(** * Miqro workflow dispatch core: shallow embedding and verified properties

    The development embeds [src/index.ts] (the loader loops, the cron
    callback and the [POST /:workflowId] handler), [src/types.ts] (the
    data model) and [src/cli.ts] (the command line).  External
    collaborators (Hono's request object, the validator, node-cron, the
    workflow bodies, the file system, the bundler) appear through their
    results.  Every call the dispatch core makes to one of them is
    recorded as an [Event] in the trace of the program state (a timer
    registered with [cron.schedule], in the list of timers), so that
    statements such as "execute is never invoked" are statements about
    that trace; the command line records its output, its calls to the
    runtime and the file system in a [World]. *)

From Stdlib Require Import ZArith Ascii String List Bool.
From stdpp Require Import base option list strings gmap fin_maps pretty.

Set Warnings "-register-all,-clear-no-such-hyp".

Local Open Scope Z_scope.
Local Open Scope string_scope.
Local Open Scope list_scope.

(** ** JavaScript values *)

(** Payloads, results, response bodies and thrown values.  Numbers are
    restricted to integers, which is all the dispatch core produces
    ([Date.now()]); [VBigInt] is a BigInt.  Values are trees: an array or
    an object holds its members, there are no cycles, getters or [toJSON]
    methods. *)
Inductive value : Type :=
| VUndefined
| VNull
| VBool (b : bool)
| VNum (n : Z)
| VStr (s : string)
| VArr (items : list value)
| VObj (fields : list (string * value))
| VBigInt (n : Z).

(** [JSON.stringify] throws a [TypeError] on a value that holds a
    BigInt; every other value of the model is serialised ([undefined]
    members are left out or printed as [null]). *)
Fixpoint serializable (v : value) : bool :=
  match v with
  | VBigInt _ => false
  | VArr items => forallb serializable items
  | VObj fields => forallb (fun kv => let '(_, x) := kv in serializable x) fields
  | _ => true
  end.

(** A [TypeError]: thrown by [const { auth } = workflow.config] when
    [workflow.config] is [undefined], by [JSON.stringify] on a BigInt and
    by an assignment to a property of a module namespace. *)
Definition type_error : value := VObj [("name", VStr "TypeError")].

(** Property read [o.k] on an object literal (first match; absent and
    non-object give [undefined]). *)
Fixpoint assoc (k : string) (fields : list (string * value)) : value :=
  match fields with
  | [] => VUndefined
  | (k', v) :: rest => if String.eqb k k' then v else assoc k rest
  end.

Definition prop (k : string) (o : value) : value :=
  match o with
  | VObj fields => assoc k fields
  | _ => VUndefined
  end.

(** Truthiness of a string, and of a [string | undefined]. *)
Definition truthy (s : string) : bool := negb (String.eqb s "").

Definition truthy_opt (o : option string) : bool :=
  match o with
  | Some s => truthy s
  | None => false
  end.

(** [String.prototype.startsWith]. *)
Definition startsWith (s pre : string) : bool := String.prefix pre s.

(** [String.prototype.endsWith]. *)
Definition endsWith (s suf : string) : bool :=
  String.prefix (String.rev suf) (String.rev s).

(** Header names are matched case-insensitively: the [Headers] object
    stores them lower-cased and lower-cases the name it is asked for. *)
Definition lower_ascii (c : ascii) : ascii :=
  let n := nat_of_ascii c in
  if ((65 <=? n) && (n <=? 90))%nat then ascii_of_nat (n + 32) else c.

Fixpoint toLowerCase (s : string) : string :=
  match s with
  | EmptyString => EmptyString
  | String c rest => String (lower_ascii c) (toLowerCase rest)
  end.

(** ** Data model ([src/types.ts]) *)

Inductive AuthConfig : Type :=
| AuthNone
| AuthApiKey (key : string)
| AuthBearer (token : string).

(** Result of [schema.safeParse]; the failure carries what
    [result.error.format()] returns. *)
Inductive SafeParseResult : Type :=
| ParseSuccess (data : value)
| ParseFailure (format : value).

Record Schema : Type := { safeParse : value -> SafeParseResult }.

Record MiqroContext : Type := {
  ctx_workflowId : string;
  ctx_name : option string;
  ctx_params : gmap string string;
  ctx_query : gmap string string;
  ctx_headers : gmap string string
}.

(** [name] is declared [string], but a definition is a plain object
    (possibly loaded from a [.js] file): when the property is missing the
    read [workflow.config.name] gives [undefined], here [None]. *)
Record WorkflowConfig : Type := {
  id : string;
  name : option string;
  description : option string;
  auth : AuthConfig;
  schedule : option string;
  schema : option Schema
}.

(** How a call of [execute] ends: a value (returned directly or through
    a fulfilled promise), a synchronous throw, a rejected promise, or a
    promise that never settles. *)
Inductive ExecResult : Type :=
| Returns (v : value)
| Throws (e : value)
| Rejects (e : value)
| Pending.

Record Workflow : Type := {
  config : WorkflowConfig;
  execute : value -> MiqroContext -> ExecResult
}.

(** ** The registry object

    [const workflows: Record<string, Workflow> = {}] is a plain object:
    reads go through the prototype chain, and the assignment
    [workflows["__proto__"] = w] replaces the prototype instead of
    creating an own property. *)
Record Registry : Type := {
  own : gmap string Workflow;
  proto : option Workflow
}.

Definition empty_registry : Registry := {| own := ∅; proto := None |}.

(** Members every plain object inherits from [Object.prototype]
    ([__proto__] is treated apart). *)
Definition object_prototype_keys : list string :=
  [ "constructor"; "hasOwnProperty"; "isPrototypeOf"; "propertyIsEnumerable";
    "toLocaleString"; "toString"; "valueOf";
    "__defineGetter__"; "__defineSetter__"; "__lookupGetter__"; "__lookupSetter__" ].

Definition inherited_from_object (k : string) : bool :=
  existsb (String.eqb k) object_prototype_keys.

(** What the read [workflows[k]] gives: [undefined], a workflow, or some
    other truthy value that has no [config] property (a member of
    [Object.prototype], or the [config] / [execute] member of a workflow
    installed as prototype). *)
Inductive Lookup : Type :=
| LUndefined
| LWorkflow (w : Workflow)
| LForeign.

Definition registry_get (r : Registry) (k : string) : Lookup :=
  if String.eqb k "__proto__" then
    match proto r with
    | Some w => LWorkflow w
    | None => LForeign
    end
  else
    match own r !! k with
    | Some w => LWorkflow w
    | None =>
        if inherited_from_object k then LForeign
        else match proto r with
             | Some _ => if String.eqb k "config" || String.eqb k "execute"
                         then LForeign else LUndefined
             | None => LUndefined
             end
    end.

(** The assignment [workflows[k] = w]. *)
Definition registry_set (k : string) (w : Workflow) (r : Registry) : Registry :=
  if String.eqb k "__proto__"
  then {| own := own r; proto := Some w |}
  else {| own := <[k := w]> (own r); proto := proto r |}.

(** ** Events, state and the effect monad *)

Inductive Event : Type :=
| ReqParam (name : string)             (* c.req.param(name) *)
| ReqHeader (name : string)            (* c.req.header(name) *)
| ReqQuery (name : string)             (* c.req.query(name) *)
| ReqJson                              (* c.req.json() *)
| ReqAll                               (* c.req.param(), .query(), .header() *)
| SafeParse (payload : value)          (* schema.safeParse(payload) *)
| Execute (w : Workflow) (payload : value) (context : MiqroContext)
| ConsoleLog (msg : string)
| ConsoleError (msg : string) (err : value)
| UnhandledRejection (err : value)     (* a rejected promise nobody awaits *)
| Readdir (dir : string)               (* readdir(dir) *)
| Import (dir file : string).          (* import(join(dir, file)) *)

(** A timer registered with [cron.schedule]: the expression and the
    workflow captured by the callback's closure. *)
Record ScheduledTask : Type := {
  expression : string;
  bound : Workflow
}.

Record State : Type := {
  workflows : Registry;
  timers : list ScheduledTask;
  trace : list Event
}.

Record Response : Type := {
  status : Z;
  body : value
}.

(** How a block of statements ends: it falls through with a value, it
    executes [return], it throws, or it stays suspended at an [await]
    whose promise never settles. *)
Inductive Completion (A : Type) : Type :=
| Normal (a : A)
| Returned (r : Response)
| Thrown (e : value)
| Suspended.
Arguments Normal {A} a.
Arguments Returned {A} r.
Arguments Thrown {A} e.
Arguments Suspended {A}.

Definition M (A : Type) : Type := State -> State * Completion A.

#[global] Instance M_ret : MRet M := fun A a s => (s, Normal a).

#[global] Instance M_bind : MBind M := fun A B f m s =>
  match m s with
  | (s', Normal a) => f a s'
  | (s', Returned r) => (s', Returned r)
  | (s', Thrown e) => (s', Thrown e)
  | (s', Suspended) => (s', Suspended)
  end.

Definition return_ {A} (r : Response) : M A := fun s => (s, Returned r).

Definition throw {A} (e : value) : M A := fun s => (s, Thrown e).

(** [await] of a promise that never settles. *)
Definition suspend {A} : M A := fun s => (s, Suspended).

Definition try_catch {A} (blk : M A) (handler : value -> M A) : M A := fun s =>
  match blk s with
  | (s', Thrown e) => handler e s'
  | other => other
  end.

Definition log_events (evs : list Event) (s : State) : State :=
  {| workflows := workflows s; timers := timers s; trace := trace s ++ evs |}.

Definition emit (ev : Event) : M unit := fun s => (log_events [ev] s, Normal tt).

Definition get_workflows : M Registry := fun s => (s, Normal (workflows s)).

Definition set_workflows (r : Registry) : M unit := fun s =>
  ({| workflows := r; timers := timers s; trace := trace s |}, Normal tt).

Definition add_timer (t : ScheduledTask) : M unit := fun s =>
  ({| workflows := workflows s; timers := timers s ++ [t]; trace := trace s |},
   Normal tt).

Fixpoint for_each {A} (l : list A) (f : A -> M unit) : M unit :=
  match l with
  | [] => mret tt
  | x :: rest => f x;; for_each rest f
  end.

Definition console_log (msg : string) : M unit := emit (ConsoleLog msg).
Definition console_error (msg : string) (e : value) : M unit := emit (ConsoleError msg e).

(** ** The request object *)

Record Request : Type := {
  workflowId : string;                  (* the matched [:workflowId] segment *)
  req_headers : gmap string string;     (* names lower-cased *)
  req_query : gmap string string;
  req_body : value + value              (* what [c.req.json()] gives or throws *)
}.

Definition req_param (c : Request) (n : string) : M string :=
  emit (ReqParam n);; mret (workflowId c).

Definition req_header (c : Request) (n : string) : M (option string) :=
  emit (ReqHeader n);; mret (req_headers c !! toLowerCase n).

Definition req_query_get (c : Request) (n : string) : M (option string) :=
  emit (ReqQuery n);; mret (req_query c !! n).

Definition req_json (c : Request) : M value :=
  emit ReqJson;;
  match req_body c with
  | inl v => mret v
  | inr e => throw e
  end.

(** The response [c.json(body, status)] builds; the status defaults to
    200. *)
Definition c_json (b : value) (st : Z) : Response := {| status := st; body := b |}.

(** [return c.json(body, status)]: [c.json] serialises the body at once,
    so the statement throws instead of returning when [JSON.stringify]
    refuses the body. *)
Definition respond {A} (b : value) (st : Z) : M A :=
  if serializable b then return_ (c_json b st) else throw type_error.

Definition error_body (msg : string) : value := VObj [("error", VStr msg)].

(** ** The webhook handler ([app.post("/:workflowId", ...)]) *)

(** The auth check: falls through when the request is let in, returns
    the 401 response otherwise. *)
Definition check_auth (c : Request) (authHeader : option string) (a : AuthConfig) : M unit :=
  match a with
  | AuthApiKey key =>
      h ← req_header c "x-api-key";
      apiKey ← (if truthy_opt h then mret h else req_query_get c "apiKey");
      if bool_decide (apiKey = Some key) then mret tt
      else respond (error_body "Unauthorized: Invalid API Key") 401
  | AuthBearer token =>
      match authHeader with
      | Some h =>
          if truthy h && startsWith h ("Bearer " +:+ token) then mret tt
          else respond (error_body "Unauthorized: Invalid Bearer token") 401
      | None => respond (error_body "Unauthorized: Invalid Bearer token") 401
      end
  | AuthNone => mret tt
  end.

(** Validation when a schema is declared: the payload is replaced by
    the parsed data, or the 400 response with the details is returned. *)
Definition validate (sch : option Schema) (payload : value) : M value :=
  match sch with
  | Some sc =>
      emit (SafeParse payload);;
      match safeParse sc payload with
      | ParseFailure details =>
          respond (VObj [("error", VStr "Validation Failed");
                         ("details", details)]) 400
      | ParseSuccess data => mret data
      end
  | None => mret payload
  end.

(** [await workflow.execute(payload, context)]: there is no timeout,
    the handler waits for as long as the promise is pending. *)
Definition await_execute (w : Workflow) (payload : value) (context : MiqroContext) : M value :=
  emit (Execute w payload context);;
  match execute w payload context with
  | Returns v => mret v
  | Throws e => throw e
  | Rejects e => throw e
  | Pending => suspend
  end.

(** The [context] object of an HTTP invocation. *)
Definition http_context (w : Workflow) (c : Request) : MiqroContext :=
  {| ctx_workflowId := id (config w);
     ctx_name := name (config w);
     ctx_params := {[ "workflowId" := workflowId c ]};
     ctx_query := req_query c;
     ctx_headers := req_headers c |}.

Definition request_context (w : Workflow) (c : Request) : M MiqroContext :=
  emit ReqAll;; mret (http_context w c).

Definition success_body (workflowId : string) (result : value) : value :=
  VObj [("status", VStr "success");
        ("message", VStr ("Workflow '" +:+ workflowId +:+ "' executed"));
        ("data", result)].

(** The handler.  When the read of the registry gives a truthy value
    that is not a workflow ([LForeign]), the guard [if (!workflow)] is
    passed, the Authorization header is read and the destructuring of
    [workflow.config], which is [undefined], throws.  Every [c.json] of
    the [try] block is inside it: a body that cannot be serialised ends
    in the [catch]. *)
Definition webhook_handler (c : Request) : M Response :=
  try_catch
    (workflowId ← req_param c "workflowId";
     ws ← get_workflows;
     match registry_get ws workflowId with
     | LUndefined =>
         respond (error_body ("Workflow '" +:+ workflowId +:+ "' not found")) 404
     | LForeign =>
         _ ← req_header c "Authorization";
         throw type_error
     | LWorkflow workflow =>
         authHeader ← req_header c "Authorization";
         check_auth c authHeader (auth (config workflow));;
         raw ← req_json c;
         payload ← validate (schema (config workflow)) raw;
         context ← request_context workflow c;
         result ← await_execute workflow payload context;
         respond (success_body workflowId result) 200
     end)
    (fun error =>
       console_error "[Miqro Webhook Error]" error;;
       respond (error_body "Invalid JSON payload or internal error") 400).

Definition initial_state (ws : Registry) : State :=
  {| workflows := ws; timers := []; trace := [] |}.

(** The mark of a request that gets no response, because the handler
    stays suspended: 0 is no HTTP status and no [c.json] of the program
    uses it. *)
Definition no_response : Response := {| status := 0; body := VUndefined |}.

(** One HTTP invocation against a registry: the events it causes and the
    response ([no_response] when there is none).  A fault escaping the
    handler would get Hono's default 500. *)
Definition dispatch (ws : Registry) (c : Request) : list Event * Response :=
  match webhook_handler c (initial_state ws) with
  | (s, Normal r) => (trace s, r)
  | (s, Returned r) => (trace s, r)
  | (s, Thrown _) => (trace s, c_json (VStr "Internal Server Error") 500)
  | (s, Suspended) => (trace s, no_response)
  end.

(** [execute] was called during these events. *)
Definition is_execute (ev : Event) : bool :=
  match ev with
  | Execute _ _ _ => true
  | _ => false
  end.

Definition execute_invoked (evs : list Event) : bool := existsb is_execute evs.

(** ** The cron callback (the closure passed to [cron.schedule]) *)

Definition cron_payload (now : Z) : value :=
  VObj [("source", VStr "cron"); ("timestamp", VNum now)].

Definition cron_context (w : Workflow) : MiqroContext :=
  {| ctx_workflowId := id (config w);
     ctx_name := name (config w);
     ctx_params := ∅;
     ctx_query := ∅;
     ctx_headers := ∅ |}.

(** [now] is what [Date.now()] gives at the firing.  The result of
    [execute] is dropped: a throw leaves the callback, a rejected promise
    is left without a handler, a pending one is not waited for. *)
Definition cron_callback (workflow : Workflow) (now : Z) : M unit :=
  console_log ("[Cron] Executing scheduled workflow: " +:+ id (config workflow));;
  let payload := cron_payload now in
  let context := cron_context workflow in
  emit (Execute workflow payload context);;
  match execute workflow payload context with
  | Returns _ => mret tt
  | Throws e => throw e
  | Rejects e => emit (UnhandledRejection e)
  | Pending => mret tt
  end.

Definition fire (t : ScheduledTask) (now : Z) : M unit := cron_callback (bound t) now.

(** ** The loaders *)

Section Loaders.

(** [cron.schedule] validates the expression and throws on an invalid
    one: [cron_reject expr] is the error thrown, if any. *)
Variable cron_reject : string -> option value.

(** [readdir(dir)]: the file names, or the error thrown. *)
Variable readdir : string -> list string + value.

(** [(await import(join(dir, file))).default]: the exported workflow
    (if the module has a default export), or the error thrown
    ([inr (Some e)]), or nothing at all when the promise of [import]
    never settles ([inr None]: a module whose evaluation does not
    finish). *)
Variable import_default : string -> string -> option Workflow + option value.

Definition cron_schedule (expr : string) (w : Workflow) : M unit :=
  match cron_reject expr with
  | Some e => throw e
  | None => add_timer {| expression := expr; bound := w |}
  end.

Definition assign_workflow (w : Workflow) : M unit :=
  ws ← get_workflows;
  set_workflows (registry_set (id (config w)) w ws).

(** [if (workflow.config.schedule) { cron.schedule(...); console.log(...) }] *)
Definition bind_schedule (w : Workflow) : M unit :=
  match schedule (config w) with
  | Some expr =>
      if truthy expr then
        cron_schedule expr w;;
        console_log ("[Miqro] Scheduled workflow '" +:+ id (config w)
                     +:+ "' with cron: '" +:+ expr +:+ "'")
      else mret tt
  | None => mret tt
  end.

(** Body of the loop of [startMiqroCore]. *)
Definition register_static (w : Workflow) : M unit :=
  if truthy (id (config w)) then
    assign_workflow w;;
    console_log ("[Miqro] Loaded workflow: " +:+ id (config w));;
    bind_schedule w
  else mret tt.

(** The part of [startMiqroCore] that builds the registry and binds
    the schedules. *)
Definition startMiqroCore (staticWorkflows : list Workflow) : M unit :=
  set_workflows empty_registry;;
  for_each staticWorkflows register_static.

(** Body of the loop of [loadWorkflows]. *)
Definition load_file (workflowsDir file : string) : M unit :=
  if endsWith file ".ts" || endsWith file ".js" then
    emit (Import workflowsDir file);;
    match import_default workflowsDir file with
    | inr (Some e) => throw e
    | inr None => suspend
    | inl None => mret tt
    | inl (Some w) =>
        if truthy (id (config w)) then
          assign_workflow w;;
          console_log ("[Miqro] Loaded workflow: " +:+ id (config w)
                       +:+ " (" +:+ file +:+ ")");;
          bind_schedule w
        else mret tt
    end
  else mret tt.

Definition loadWorkflows (workflowsDir : string) : M Registry :=
  set_workflows empty_registry;;
  try_catch
    (emit (Readdir workflowsDir);;
     match readdir workflowsDir with
     | inr e => throw e
     | inl files => for_each files (load_file workflowsDir)
     end)
    (fun error =>
       console_error ("[Miqro] Error loading workflows from " +:+ workflowsDir +:+ ":")
                     error);;
  get_workflows.

End Loaders.

(** ** Pure views of the request used in the statements *)

(** [c.req.header("x-api-key") || c.req.query("apiKey")]: the header when
    it is a non-empty string, the query parameter otherwise. *)
Definition api_key_candidate (c : Request) : option string :=
  let h := req_headers c !! "x-api-key" in
  if truthy_opt h then h else req_query c !! "apiKey".

(** The decision taken by the auth check of the handler. *)
Definition authorized (a : AuthConfig) (c : Request) : bool :=
  match a with
  | AuthNone => true
  | AuthApiKey key => bool_decide (api_key_candidate c = Some key)
  | AuthBearer token =>
      match req_headers c !! "authorization" with
      | Some h => truthy h && startsWith h ("Bearer " +:+ token)
      | None => false
      end
  end.

(** The request reads the auth check performs. *)
Definition auth_events (a : AuthConfig) (c : Request) : list Event :=
  match a with
  | AuthApiKey _ =>
      ReqHeader "x-api-key" ::
      (if truthy_opt (req_headers c !! "x-api-key") then [] else [ReqQuery "apiKey"])
  | _ => []
  end.

Definition auth_error (a : AuthConfig) : string :=
  match a with
  | AuthBearer _ => "Unauthorized: Invalid Bearer token"
  | _ => "Unauthorized: Invalid API Key"
  end.

(** The payload handed to [execute] once validation is through. *)
Inductive Validated (p : value) : option Schema -> value -> Prop :=
| validated_no_schema : Validated p None p
| validated_by_schema sc data :
    safeParse sc p = ParseSuccess data -> Validated p (Some sc) data.

Definition validate_events (sch : option Schema) (p : value) : list Event :=
  match sch with
  | Some _ => [SafeParse p]
  | None => []
  end.

(** Events of a request that is resolved and let in, up to the decode. *)
Definition admitted_events (w : Workflow) (c : Request) : list Event :=
  [ReqParam "workflowId"; ReqHeader "Authorization"]
    ++ auth_events (auth (config w)) c ++ [ReqJson].

(** Everything up to the call of [execute], for a payload that passes
    validation. *)
Definition invoked_events (c : Request) (w : Workflow) (p p' : value) : list Event :=
  admitted_events w c ++ validate_events (schema (config w)) p
    ++ [ReqAll; Execute w p' (http_context w c)].

Definition generic_400 : Response :=
  c_json (error_body "Invalid JSON payload or internal error") 400.

(** Details that say something: not [undefined], [null], the empty
    string, an empty array or an object without members. *)
Definition nonempty (v : value) : bool :=
  match v with
  | VUndefined | VNull | VStr EmptyString | VArr [] | VObj [] => false
  | _ => true
  end.

(** The possible runs of one invocation, as a relation between the
    request and what [dispatch] gives: the seven paths of a request whose
    response bodies can be serialised and whose workflow body settles,
    then the two on which [JSON.stringify] refuses a body, then the one on
    which [execute] never settles. *)
Inductive Run (ws : Registry) (c : Request) : list Event -> Response -> Prop :=
| run_unknown :
    registry_get ws (workflowId c) = LUndefined ->
    Run ws c [ReqParam "workflowId"]
        (c_json (error_body ("Workflow '" +:+ workflowId c +:+ "' not found")) 404)
| run_foreign :
    registry_get ws (workflowId c) = LForeign ->
    Run ws c [ReqParam "workflowId"; ReqHeader "Authorization";
              ConsoleError "[Miqro Webhook Error]" type_error]
        generic_400
| run_denied w :
    registry_get ws (workflowId c) = LWorkflow w ->
    authorized (auth (config w)) c = false ->
    Run ws c ([ReqParam "workflowId"; ReqHeader "Authorization"]
                ++ auth_events (auth (config w)) c)
        (c_json (error_body (auth_error (auth (config w)))) 401)
| run_malformed w e :
    registry_get ws (workflowId c) = LWorkflow w ->
    authorized (auth (config w)) c = true ->
    req_body c = inr e ->
    Run ws c (admitted_events w c ++ [ConsoleError "[Miqro Webhook Error]" e])
        generic_400
| run_invalid w p sc details :
    registry_get ws (workflowId c) = LWorkflow w ->
    authorized (auth (config w)) c = true ->
    req_body c = inl p ->
    schema (config w) = Some sc ->
    safeParse sc p = ParseFailure details ->
    serializable details = true ->
    Run ws c (admitted_events w c ++ [SafeParse p])
        (c_json (VObj [("error", VStr "Validation Failed"); ("details", details)]) 400)
| run_success w p p' v :
    registry_get ws (workflowId c) = LWorkflow w ->
    authorized (auth (config w)) c = true ->
    req_body c = inl p ->
    Validated p (schema (config w)) p' ->
    execute w p' (http_context w c) = Returns v ->
    serializable v = true ->
    Run ws c (invoked_events c w p p')
        (c_json (success_body (workflowId c) v) 200)
| run_fault w p p' e :
    registry_get ws (workflowId c) = LWorkflow w ->
    authorized (auth (config w)) c = true ->
    req_body c = inl p ->
    Validated p (schema (config w)) p' ->
    execute w p' (http_context w c) = Throws e
    \/ execute w p' (http_context w c) = Rejects e ->
    Run ws c (invoked_events c w p p' ++ [ConsoleError "[Miqro Webhook Error]" e])
        generic_400
| run_opaque_details w p sc details :
    registry_get ws (workflowId c) = LWorkflow w ->
    authorized (auth (config w)) c = true ->
    req_body c = inl p ->
    schema (config w) = Some sc ->
    safeParse sc p = ParseFailure details ->
    serializable details = false ->
    Run ws c (admitted_events w c
                ++ [SafeParse p; ConsoleError "[Miqro Webhook Error]" type_error])
        generic_400
| run_opaque_result w p p' v :
    registry_get ws (workflowId c) = LWorkflow w ->
    authorized (auth (config w)) c = true ->
    req_body c = inl p ->
    Validated p (schema (config w)) p' ->
    execute w p' (http_context w c) = Returns v ->
    serializable v = false ->
    Run ws c (invoked_events c w p p'
                ++ [ConsoleError "[Miqro Webhook Error]" type_error])
        generic_400
| run_pending w p p' :
    registry_get ws (workflowId c) = LWorkflow w ->
    authorized (auth (config w)) c = true ->
    req_body c = inl p ->
    Validated p (schema (config w)) p' ->
    execute w p' (http_context w c) = Pending ->
    Run ws c (invoked_events c w p p') no_response.

(** ** Views of the firings and of the loaders *)

Definition without_header (n : string) (c : Request) : Request :=
  {| workflowId := workflowId c;
     req_headers := delete n (req_headers c);
     req_query := req_query c;
     req_body := req_body c |}.

(** The steps of the HTTP pipeline that come before [execute]. *)
Definition pipeline_step (ev : Event) : bool :=
  match ev with
  | ReqParam _ | ReqHeader _ | ReqQuery _ | ReqJson | ReqAll | SafeParse _ => true
  | _ => false
  end.

Definition cron_log (w : Workflow) : Event :=
  ConsoleLog ("[Cron] Executing scheduled workflow: " +:+ id (config w)).

(** A definition is taken when its id is a non-empty string. *)
Definition loadable (w : Workflow) : bool := truthy (id (config w)).

(** The timer a taken definition asks for, if any. *)
Definition task_of (w : Workflow) : list ScheduledTask :=
  match schedule (config w) with
  | Some expr => if truthy expr then [{| expression := expr; bound := w |}] else []
  | None => []
  end.

Definition scheduled_tasks (defs : list Workflow) : list ScheduledTask :=
  flat_map (fun w => if loadable w then task_of w else []) defs.

Definition absorb (r : Registry) (w : Workflow) : Registry :=
  if loadable w then registry_set (id (config w)) w r else r.

Definition registry_of (defs : list Workflow) : Registry := foldl absorb empty_registry defs.

Definition has_workflow_ext (file : string) : bool :=
  endsWith file ".ts" || endsWith file ".js".

(** The definitions [loadWorkflows] meets in a directory listing, given
    what the imports give. *)
Definition imported (import_default : string -> string -> option Workflow + option value)
    (dir : string) (files : list string) : list Workflow :=
  flat_map (fun file =>
              if has_workflow_ext file then
                match import_default dir file with
                | inl (Some w) => [w]
                | _ => []
                end
              else []) files.

(** Every import of a workflow file gives a module. *)
Definition imports_succeed (import_default : string -> string -> option Workflow + option value)
    (dir : string) (files : list string) : Prop :=
  forall file, file ∈ files -> has_workflow_ext file = true ->
               exists ow, import_default dir file = inl ow.

(** The timer collaborator accepts the expressions of these tasks. *)
Definition accepted (cron_reject : string -> option value)
    (tasks : list ScheduledTask) : Prop :=
  forall t, t ∈ tasks -> cron_reject (expression t) = None.

(** What a loop leaves behind: the registry with the definitions
    absorbed and one more timer per scheduled definition. *)
Definition Loaded (defs : list Workflow) (s s' : State) : Prop :=
  workflows s' = foldl absorb (workflows s) defs
  /\ timers s' = timers s ++ scheduled_tasks defs.

(** ** Fixtures: workflows of [test/index.test.ts] and a few more *)

Definition mk_config (i n : string) (a : AuthConfig) : WorkflowConfig :=
  {| id := i; name := Some n; description := None; auth := a;
     schedule := None; schema := None |}.

Definition webhook_no_auth : Workflow :=
  {| config := mk_config "webhook-no-auth" "No Auth Workflow" AuthNone;
     execute := fun _ _ => Returns VUndefined |}.

Definition webhook_api_key : Workflow :=
  {| config := mk_config "webhook-api-key" "API Key Workflow" (AuthApiKey "secret123");
     execute := fun _ _ => Returns VUndefined |}.

Definition webhook_bearer : Workflow :=
  {| config := mk_config "webhook-bearer" "Bearer Token Workflow" (AuthBearer "token456");
     execute := fun _ _ => Returns VUndefined |}.

(** Three of the [mockWorkflows] of the test file. *)
Definition sample_workflows : list Workflow :=
  [webhook_no_auth; webhook_api_key; webhook_bearer].

(** A timer collaborator that accepts every expression. *)
Definition cron_accepts_all : string -> option value := fun _ => None.

(** The registry [startMiqroCore] builds from a list of definitions. *)
Definition registry_after (staticWorkflows : list Workflow) : Registry :=
  workflows (startMiqroCore cron_accepts_all staticWorkflows
               (initial_state empty_registry)).1.

Definition post (i : string) (hs qs : list (string * string)) (b : value + value) : Request :=
  {| workflowId := i; req_headers := list_to_map hs; req_query := list_to_map qs;
     req_body := b |}.

Definition syntax_error : value := VObj [("name", VStr "SyntaxError")].

(** The schema of scenario C: an object with a number [n > 0]; the
    failure details have the shape of zod's [format()]. *)
Definition positive_n_schema : Schema :=
  {| safeParse := fun p =>
       match prop "n" p with
       | VNum n =>
           if (0 <? n)%Z then ParseSuccess (VObj [("n", VNum n)])
           else ParseFailure
                  (VObj [("_errors", VArr []);
                         ("n", VObj [("_errors", VArr [VStr "Number must be greater than 0"])])])
       | _ =>
           ParseFailure
             (VObj [("_errors", VArr []);
                    ("n", VObj [("_errors", VArr [VStr "Required"])])])
       end |}.

(** A workflow with that schema whose body throws. *)
Definition v_throwing : Workflow :=
  {| config := {| id := "v"; name := Some "Validated"; description := None;
                  auth := AuthNone; schedule := None;
                  schema := Some positive_n_schema |};
     execute := fun _ _ => Throws (VStr "boom") |}.

(** The same workflow behind an api key, with a body that returns. *)
Definition v_guarded : Workflow :=
  {| config := {| id := "v"; name := Some "Validated"; description := None;
                  auth := AuthApiKey "secret123"; schedule := None;
                  schema := Some positive_n_schema |};
     execute := fun _ _ => Returns VUndefined |}.

(** The same workflow with a body that returns a BigInt ([1n]). *)
Definition v_counting : Workflow :=
  {| config := config v_throwing;
     execute := fun _ _ => Returns (VBigInt 1) |}.

(** A schema that rejects every payload and whose [error.format()]
    gives an object without members, and a workflow that declares it. *)
Definition silent_schema : Schema :=
  {| safeParse := fun _ => ParseFailure (VObj []) |}.

Definition v_silent : Workflow :=
  {| config := {| id := "v"; name := Some "Validated"; description := None;
                  auth := AuthNone; schedule := None;
                  schema := Some silent_schema |};
     execute := fun _ _ => Returns VUndefined |}.

(** A definition without a name. *)
Definition nameless : Workflow :=
  {| config := {| id := "nameless"; name := None; description := None;
                  auth := AuthNone; schedule := None; schema := None |};
     execute := fun _ _ => Returns VUndefined |}.

(** A scheduled definition whose body rejects. *)
Definition hourly_sync_rejecting : Workflow :=
  {| config := {| id := "hourly-sync-task"; name := Some "Hourly Sync Task";
                  description := None; auth := AuthNone;
                  schedule := Some "* * * * *"; schema := None |};
     execute := fun _ _ => Rejects (VStr "sync failed") |}.

(** Two scheduled definitions with the same id. *)
Definition dup_first : Workflow :=
  {| config := {| id := "dup"; name := Some "First"; description := None;
                  auth := AuthNone; schedule := Some "* * * * *"; schema := None |};
     execute := fun _ _ => Returns (VStr "first") |}.

Definition dup_second : Workflow :=
  {| config := {| id := "dup"; name := Some "Second"; description := None;
                  auth := AuthNone; schedule := Some "0 0 * * *"; schema := None |};
     execute := fun _ _ => Returns (VStr "second") |}.

(** ** The health route and [startMiqro] *)

(** [app.get("/health", ...)]: [uptime] is what [process.uptime()] gives,
    [Object.keys(workflows).length] counts the own properties. *)
Definition health_handler (uptime : value) : M Response :=
  ws ← get_workflows;
  return_ (c_json (VObj [("status", VStr "ok");
                         ("uptime", uptime);
                         ("loadedWorkflows", VNum (Z.of_nat (size (own ws))))]) 200).

Definition health (ws : Registry) (uptime : value) : Response :=
  match health_handler uptime (initial_state ws) with
  | (_, Normal r) => r
  | (_, Returned r) => r
  | (_, Thrown _) => c_json (VStr "Internal Server Error") 500
  | (_, Suspended) => no_response
  end.

Section StartMiqro.

Variable cron_reject : string -> option value.
Variable readdir : string -> list string + value.
Variable import_default : string -> string -> option Workflow + option value.

(** [Object.values(loadedWorkflowMap)]: the values of the own properties,
    in the property order of the engine. *)
Variable object_values : Registry -> list Workflow.

(** The part of [startMiqro] that loads the directory and hands the
    loaded definitions to [startMiqroCore]. *)
Definition startMiqro (workflowsDir : string) : M unit :=
  loadedWorkflowMap ← loadWorkflows cron_reject readdir import_default workflowsDir;
  startMiqroCore cron_reject (object_values loadedWorkflowMap).

End StartMiqro.

(** An enumeration of the own values, in some order. *)
Definition enumerates_own (object_values : Registry -> list Workflow) : Prop :=
  forall r, object_values r ≡ₚ (map_to_list (own r)).*2.

(** One such enumeration. *)
Definition own_values (r : Registry) : list Workflow := (map_to_list (own r)).*2.

(** The ids under which the definitions of a list end up as own
    properties of the registry. *)
Definition own_id (k : string) : bool := truthy k && negb (String.eqb k "__proto__").

Definition own_ids (defs : list Workflow) : list string :=
  List.filter own_id (map (fun w => id (config w)) defs).

(** How many times [execute] was called during these events. *)
Definition execute_count (evs : list Event) : nat := length (List.filter is_execute evs).

(** A computation that never executes [return], only adds events that
    satisfy [P], and only adds timers. *)
Definition Steady (P : Event -> Prop) {A} (m : M A) : Prop :=
  forall s, exists s' c evs ts,
    m s = (s', c)
    /\ (forall r, c <> Returned r)
    /\ trace s' = trace s ++ evs
    /\ Forall P evs
    /\ timers s' = timers s ++ ts.

(** A computation that never stays suspended. *)
Definition Settles {A} (m : M A) : Prop := forall s, (m s).2 <> Suspended.

(** The events [loadWorkflows] may cause on a directory: log lines, the
    listing of the directory, and imports of listed files that end in
    [.ts] or [.js]. *)
Definition load_event (readdir : string -> list string + value) (dir : string)
    (ev : Event) : Prop :=
  (exists msg, ev = ConsoleLog msg)
  \/ (exists msg e, ev = ConsoleError msg e)
  \/ ev = Readdir dir
  \/ (exists file files,
         ev = Import dir file /\ readdir dir = inl files /\ file ∈ files
         /\ has_workflow_ext file = true).

(** A directory with two workflow files and a text file, and what their
    imports give. *)
Definition sample_readdir (dir : string) : list string + value :=
  if String.eqb dir "/app/workflows" then inl ["sample.ts"; "notes.md"; "scheduled.js"]
  else inr (VObj [("code", VStr "ENOENT")]).

Definition sample_import (dir file : string) : option Workflow + option value :=
  if String.eqb file "sample.ts" then inl (Some webhook_bearer)
  else if String.eqb file "scheduled.js" then inl (Some hourly_sync_rejecting)
  else inl None.

(** The same directory when the import of [scheduled.js] throws. *)
Definition broken_import (dir file : string) : option Workflow + option value :=
  if String.eqb file "sample.ts" then inl (Some dup_first)
  else inr (Some (VObj [("name", VStr "SyntaxError")])).

(** ** The command line ([src/cli.ts])

    The file system, the module loader, the bundler and the process are
    collaborators: [Env] gives what they answer, [World] is what a run can
    change.  A run of [main] ends by falling off the end ([Done]), by
    [process.exit(code)] ([Exit]), by a fault ([Raise]), or not at all
    ([Stalled]: it waits for a promise that never settles). *)

(** A JavaScript number, by the two things the command line does with
    one: the test in [n || 3000] (0, -0 and NaN are falsy) and the text a
    template literal prints for it ([3000], [1e+21], [0.5], ...). *)
Record JsNumber : Type := {
  number_falsy : bool;
  number_text : string
}.

(** [Partial<MiqroConfig>], without the middleware. *)
Record UserConfig : Type := {
  workflowsDir : option string;
  port : option JsNumber
}.

(** What [import(configPath)] gives: the default export when the module
    has a truthy one, and the module namespace read as a configuration. *)
Record ConfigModule : Type := {
  mod_default : option UserConfig;
  mod_namespace : UserConfig
}.

Inductive Node : Type :=
| File (content : string)
| Directory.

(** [console.log(...)] and [console.error(...)] with their arguments. *)
Inductive Output : Type :=
| Stdout (args : list value)
| Stderr (args : list value).

(** The calls a run makes to the runtime (recorded when they are made,
    whatever they then give). *)
Inductive Action : Type :=
| Spawn (argv : list string)                      (* Bun.spawn(argv, ...) *)
| Serve                                           (* Bun.serve(app) *)
| BunBuild (entrypoint outdir naming : string).   (* Bun.build({...}) *)

Record World : Type := {
  fs : gmap string Node;
  out : list Output;
  actions : list Action;
  app : State
}.

Record Env : Type := {
  cwd : string;                                   (* process.cwd() *)
  dirname : string;                               (* __dirname *)
  script : string;                                (* Bun.argv[1] *)
  resolve : string -> string -> string;           (* path.resolve *)
  write_error : gmap string Node -> string -> option value;
  mkdir_error : gmap string Node -> string -> option value;
  unlink_error : gmap string Node -> string -> option value;
  import_config : string -> ConfigModule + value;
  env_cron_reject : string -> option value;
  env_readdir : string -> list string + value;
  env_import_default : string -> string -> option Workflow + option value;
  env_object_values : Registry -> list Workflow;
  bun_build : string -> (bool * value) + value;   (* [success] and [logs], or a throw *)
  spawn_error : option value;                     (* what [Bun.spawn] throws, if it does *)
  serve_error : option value                      (* what [Bun.serve] throws, if it does *)
}.

Inductive Outcome (A : Type) : Type :=
| Done (a : A)
| Exit (code : Z)
| Raise (e : value)
| Stalled.
Arguments Done {A} a.
Arguments Exit {A} code.
Arguments Raise {A} e.
Arguments Stalled {A}.

Definition Cli (A : Type) : Type := World -> World * Outcome A.

#[global] Instance Cli_ret : MRet Cli := fun A a w => (w, Done a).

#[global] Instance Cli_bind : MBind Cli := fun A B f m w =>
  match m w with
  | (w', Done a) => f a w'
  | (w', Exit code) => (w', Exit code)
  | (w', Raise e) => (w', Raise e)
  | (w', Stalled) => (w', Stalled)
  end.

Definition with_fs (f : gmap string Node) (w : World) : World :=
  {| fs := f; out := out w; actions := actions w; app := app w |}.

Definition with_out (o : list Output) (w : World) : World :=
  {| fs := fs w; out := o; actions := actions w; app := app w |}.

Definition process_exit {A} (code : Z) : Cli A := fun w => (w, Exit code).

Definition cli_raise {A} (e : value) : Cli A := fun w => (w, Raise e).

Definition cli_catch {A} (blk : Cli A) (handler : value -> Cli A) : Cli A := fun w =>
  match blk w with
  | (w', Raise e) => handler e w'
  | other => other
  end.

Definition print (o : Output) : Cli unit := fun w =>
  (with_out (out w ++ [o]) w, Done tt).

Definition cli_log (line : string) : Cli unit := print (Stdout [VStr line]).
Definition cli_error (line : string) : Cli unit := print (Stderr [VStr line]).

Definition act (a : Action) : Cli unit := fun w =>
  ({| fs := fs w; out := out w; actions := actions w ++ [a]; app := app w |}, Done tt).

(** The call just made throws [e], or it comes back. *)
Definition fails (err : option value) : Cli unit :=
  match err with
  | Some e => cli_raise e
  | None => mret tt
  end.

Definition get_fs : Cli (gmap string Node) := fun w => (w, Done (fs w)).

Definition put_fs (f : gmap string Node) : Cli unit := fun w =>
  (with_fs f w, Done tt).

Definition existsSync (f : gmap string Node) (path : string) : bool :=
  bool_decide (is_Some (f !! path)).

Definition writeFile (E : Env) (path data : string) : Cli unit :=
  f ← get_fs;
  match write_error E f path with
  | Some e => cli_raise e
  | None => put_fs (<[path := File data]> f)
  end.

Definition mkdir (E : Env) (path : string) : Cli unit :=
  f ← get_fs;
  match mkdir_error E f path with
  | Some e => cli_raise e
  | None => put_fs (<[path := Directory]> f)
  end.

Definition unlink (E : Env) (path : string) : Cli unit :=
  f ← get_fs;
  match unlink_error E f path with
  | Some e => cli_raise e
  | None => put_fs (delete path f)
  end.

(** [await] of a computation of the engine, run on the application
    state. *)
Definition run_app (m : M unit) : Cli unit := fun w =>
  match m (app w) with
  | (s', Thrown e) =>
      ({| fs := fs w; out := out w; actions := actions w; app := s' |}, Raise e)
  | (s', Suspended) =>
      ({| fs := fs w; out := out w; actions := actions w; app := s' |}, Stalled)
  | (s', _) =>
      ({| fs := fs w; out := out w; actions := actions w; app := s' |}, Done tt)
  end.

Definition nl : string := String (ascii_of_nat 10) "".
Definition dq : string := String (ascii_of_nat 34) "".
Definition quoted (s : string) : string := dq +:+ s +:+ dq.

(** Lines, each ended by a line feed. *)
Fixpoint text (lines : list string) : string :=
  match lines with
  | [] => ""
  | l :: rest => l +:+ nl +:+ text rest
  end.

Definition defaultConfig : string :=
  text [ "import type { MiqroConfig } from " +:+ quoted "@qnton/miqro" +:+ ";";
         "";
         "export default {";
         "  port: 3000,";
         "  workflowsDir: " +:+ quoted "./workflows" +:+ ",";
         "} satisfies MiqroConfig;" ].

Definition sampleWorkflow : string :=
  text [ "import type { Workflow } from " +:+ quoted "@qnton/miqro" +:+ ";";
         "";
         "const workflow: Workflow = {";
         "  config: {";
         "    id: " +:+ quoted "hello-world" +:+ ",";
         "    name: " +:+ quoted "Hello World Workflow" +:+ ",";
         "    auth: { type: " +:+ quoted "none" +:+ " },";
         "  },";
         "  execute: async (payload: { message: string }, context) => {";
         "    console.log(" +:+ quoted "Hello from Miqro!" +:+ ", payload.message);";
         "    console.log(" +:+ quoted "Context workflow ID:" +:+ ", context.workflowId);";
         "  },";
         "};";
         "";
         "export default workflow;" ].

(** [JSON.stringify(pkgContent, null, 2)]. *)
Definition pkgContent : string :=
  String.concat nl
    [ "{";
      "  " +:+ quoted "name" +:+ ": " +:+ quoted "miqro-project" +:+ ",";
      "  " +:+ quoted "type" +:+ ": " +:+ quoted "module" +:+ ",";
      "  " +:+ quoted "dependencies" +:+ ": {";
      "    " +:+ quoted "@qnton/miqro" +:+ ": " +:+ quoted "^0.2.2";
      "  },";
      "  " +:+ quoted "scripts" +:+ ": {";
      "    " +:+ quoted "dev" +:+ ": " +:+ quoted "miqro dev" +:+ ",";
      "    " +:+ quoted "start" +:+ ": " +:+ quoted "miqro start" +:+ ",";
      "    " +:+ quoted "build" +:+ ": " +:+ quoted "miqro build";
      "  }";
      "}" ].

(** [JSON.stringify(tsconfigContent, null, 2)]. *)
Definition tsconfigContent : string :=
  String.concat nl
    [ "{";
      "  " +:+ quoted "compilerOptions" +:+ ": {";
      "    " +:+ quoted "lib" +:+ ": [";
      "      " +:+ quoted "ESNext" +:+ ",";
      "      " +:+ quoted "DOM";
      "    ],";
      "    " +:+ quoted "module" +:+ ": " +:+ quoted "esnext" +:+ ",";
      "    " +:+ quoted "target" +:+ ": " +:+ quoted "esnext" +:+ ",";
      "    " +:+ quoted "moduleResolution" +:+ ": " +:+ quoted "bundler" +:+ ",";
      "    " +:+ quoted "moduleDetection" +:+ ": " +:+ quoted "force" +:+ ",";
      "    " +:+ quoted "allowImportingTsExtensions" +:+ ": true,";
      "    " +:+ quoted "noEmit" +:+ ": true,";
      "    " +:+ quoted "strict" +:+ ": true,";
      "    " +:+ quoted "skipLibCheck" +:+ ": true,";
      "    " +:+ quoted "allowSyntheticDefaultImports" +:+ ": true";
      "  }";
      "}" ].

(** [if (!existsSync(path)) { await create }]. *)
Definition unless_exists (path : string) (create : Cli unit) : Cli unit :=
  f ← get_fs;
  if existsSync f path then mret tt else create.

(** The [init] command after the configuration file is written: the
    workflows directory, the sample, [package.json] and [tsconfig.json],
    each only when the path does not exist yet. *)
Definition scaffold (E : Env) : Cli unit :=
  let workflowsPath := resolve E (cwd E) "workflows" in
  unless_exists workflowsPath (mkdir E workflowsPath);;
  let sampleWorkflowPath := resolve E workflowsPath "sample.ts" in
  unless_exists sampleWorkflowPath (writeFile E sampleWorkflowPath sampleWorkflow);;
  let pkgPath := resolve E (cwd E) "package.json" in
  unless_exists pkgPath (writeFile E pkgPath pkgContent);;
  let tsconfigPath := resolve E (cwd E) "tsconfig.json" in
  unless_exists tsconfigPath (writeFile E tsconfigPath tsconfigContent).

(** What a step of [scaffold] does: it only adds entries and it can
    neither end the process nor stall. *)
Definition Adds {A} (m : Cli A) : Prop :=
  forall w, exists f' o,
    m w = (with_fs f' w, o) /\ fs w ⊆ f'
    /\ (forall code, o <> Exit code) /\ o <> Stalled.

(** What a successful [init] prints. *)
Definition init_report : list Output :=
  [ Stdout [VStr "✅ Created miqro.config.ts and workflows directory with a sample."];
    Stdout [VStr (nl +:+ "👉 Next steps:")];
    Stdout [VStr "  1. Run: bun install"];
    Stdout [VStr "  2. Run: bun run dev"] ].

(** What [init] prints when the configuration file is already there. *)
Definition init_refusal : list Output :=
  [ Stderr [VStr "❌ miqro.config.ts already exists in the current directory."] ].

(** What [main().catch] prints. *)
Definition fatal (err : value) : list Output :=
  [ Stderr [VStr "Fatal exception in CLI"; err] ].

(** The [init] command. *)
Definition init (E : Env) : Cli unit :=
  let configPath := resolve E (cwd E) "miqro.config.ts" in
  f ← get_fs;
  (if existsSync f configPath then
     cli_error "❌ miqro.config.ts already exists in the current directory.";;
     process_exit 1
   else mret tt);;
  writeFile E configPath defaultConfig;;
  scaffold E;;
  cli_log "✅ Created miqro.config.ts and workflows directory with a sample.";;
  cli_log (nl +:+ "👉 Next steps:");;
  cli_log "  1. Run: bun install";;
  cli_log "  2. Run: bun run dev";;
  process_exit 0.

(** [importedConfig.default || importedConfig]. *)
Definition default_or_module (importedConfig : ConfigModule) : UserConfig :=
  match mod_default importedConfig with
  | Some c => c
  | None => mod_namespace importedConfig
  end.

(** Loading the user's configuration: the imported module, of which
    [default_or_module] is the [userConfig] of [main]. *)
Definition load_config (E : Env) : Cli ConfigModule :=
  let configPath := resolve E (cwd E) "miqro.config.ts" in
  match import_config E configPath with
  | inl importedConfig => mret importedConfig
  | inr _ =>
      cli_error ("❌ Could not load configuration at " +:+ configPath +:+ ".");;
      cli_error "Are you sure you have a miqro.config.ts in the current directory?";;
      process_exit 1
  end.

(** The text of the entry point [build] generates ([tempCode]).  The
    array indices are printed in decimal; the port is printed as the
    template literal prints a number. *)
Definition build_entry (E : Env) (absoluteWorkflowsDir : string)
    (workflowFiles : list string) (userConfig : UserConfig) : string :=
  "import { Hono } from 'hono';" +:+ nl
  +:+ "import { logger } from 'hono/logger';" +:+ nl
  +:+ "import cron from 'node-cron';" +:+ nl
  +:+ "import { startMiqroCore } from '" +:+ resolve E (dirname E) "index.ts"
  +:+ "'; // From miqro module" +:+ nl +:+ nl
  +:+ String.concat ""
        (imap (fun idx file =>
                 "import wf_" +:+ pretty idx +:+ " from '"
                 +:+ resolve E absoluteWorkflowsDir file +:+ "';" +:+ nl)
              workflowFiles)
  +:+ nl +:+ "const staticWorkflowsList = [" +:+ nl
  +:+ String.concat ""
        (imap (fun idx _ => "  wf_" +:+ pretty idx +:+ "," +:+ nl) workflowFiles)
  +:+ "];" +:+ nl +:+ nl
  +:+ "const app = await startMiqroCore({" +:+ nl
  +:+ "  port: "
  +:+ match port userConfig with
      | Some n => if number_falsy n then "3000" else number_text n
      | None => "3000"
      end
  +:+ "," +:+ nl
  +:+ "}, staticWorkflowsList);" +:+ nl +:+ nl
  +:+ "export default app;" +:+ nl.

(** The [build] command. *)
Definition build (E : Env) (absoluteWorkflowsDir : string) (userConfig : UserConfig) : Cli unit :=
  cli_log "📦 Building Miqro for production...";;
  files ← match env_readdir E absoluteWorkflowsDir with
          | inl files => mret files
          | inr _ =>
              cli_error ("❌ Failed reading workflows directory during build: "
                         +:+ absoluteWorkflowsDir);;
              process_exit 1
          end;
  let workflowFiles := List.filter has_workflow_ext files in
  let tempEntryPath := resolve E (cwd E) ".miqro.entry.ts" in
  let tempCode := build_entry E absoluteWorkflowsDir workflowFiles userConfig in
  writeFile E tempEntryPath tempCode;;
  let outDir := resolve E (cwd E) "dist" in
  let outName := "index.js" in
  cli_log ("Compiling single file artifact to " +:+ outDir +:+ "/" +:+ outName +:+ "...");;
  act (BunBuild tempEntryPath outDir outName);;
  result ← match bun_build E tempCode with
           | inl result => mret result
           | inr e => cli_raise e
           end;
  cli_catch (unlink E tempEntryPath) (fun _ => mret tt);;
  if negb (fst result) then
    cli_error "❌ Build failed";;
    print (Stderr [snd result]);;
    process_exit 1
  else
    cli_log ("✅ Build successful! Run it with: bun run dist/" +:+ outName).

Definition usage : Cli unit :=
  cli_error (nl +:+ "Usage: miqro <command>" +:+ nl);;
  cli_error "Available commands:";;
  cli_error "  init    - Scaffolds a new project with miqro.config.ts and sample workflow";;
  cli_error "  dev     - Starts development server with hot-reloading";;
  cli_error "  start   - Starts server in production mode";;
  cli_error ("  build   - Compiles project into a standalone executable at ./dist/index.js"
             +:+ nl);;
  cli_error "Example:";;
  cli_error "  bunx @qnton/miqro init";;
  cli_error "  bunx @qnton/miqro dev".

(** [positionals[0] || "start"]. *)
Definition command_of (positionals : list string) : string :=
  match positionals with
  | c :: _ => if truthy c then c else "start"
  | [] => "start"
  end.

(** What the commands other than [init] print when the configuration
    module cannot be imported, and when it names no [workflowsDir]. *)
Definition config_unloadable (configPath : string) : list Output :=
  [ Stderr [VStr ("❌ Could not load configuration at " +:+ configPath +:+ ".")];
    Stderr [VStr "Are you sure you have a miqro.config.ts in the current directory?"] ].

Definition config_incomplete : list Output :=
  [ Stderr [VStr "❌ miqro.config.ts is missing 'workflowsDir'"] ].

(** [if (!userConfig.workflowsDir) { ... process.exit(1) }]. *)
Definition require_workflowsDir (userConfig : UserConfig) : Cli string :=
  match workflowsDir userConfig with
  | Some d =>
      if truthy d then mret d
      else cli_error "❌ miqro.config.ts is missing 'workflowsDir'";;
           process_exit 1
  | None =>
      cli_error "❌ miqro.config.ts is missing 'workflowsDir'";;
      process_exit 1
  end.

(** The commands that need the configuration. *)
Definition run_command (E : Env) (command : string) (userConfig : UserConfig)
    (absoluteWorkflowsDir : string) : Cli unit :=
  if String.eqb command "dev" then
    cli_log "🔄 Starting Miqro in DEV mode (hot-reloading enabled)...";;
    act (Spawn ["bun"; "--watch"; script E; "start"]);;
    fails (spawn_error E)
  else if String.eqb command "start" then
    cli_log "🚀 Starting Miqro...";;
    run_app (startMiqro (env_cron_reject E) (env_readdir E) (env_import_default E)
               (env_object_values E) absoluteWorkflowsDir);;
    act Serve;;
    fails (serve_error E)
  else if String.eqb command "build" then
    build E absoluteWorkflowsDir userConfig
  else
    cli_error ("❌ Unknown command: " +:+ command);;
    usage;;
    process_exit 1.

(** [userConfig.workflowsDir = absoluteWorkflowsDir].  When the module
    has no truthy default export, [userConfig] is the module namespace
    object, whose properties cannot be assigned: [cli.ts] is module code,
    hence strict, and the assignment throws a [TypeError]. *)
Definition assign_workflowsDir (importedConfig : ConfigModule) : Cli unit :=
  match mod_default importedConfig with
  | Some _ => mret tt
  | None => cli_raise type_error
  end.

(** [main]: [positionals] is what [parseArgs] gives for the arguments. *)
Definition main (E : Env) (positionals : list string) : Cli unit :=
  let command := command_of positionals in
  (if String.eqb command "init" then init E else mret tt);;
  importedConfig ← load_config E;
  let userConfig := default_or_module importedConfig in
  dir ← require_workflowsDir userConfig;
  let absoluteWorkflowsDir := resolve E (cwd E) dir in
  assign_workflowsDir importedConfig;;
  run_command E command userConfig absoluteWorkflowsDir.

(** [main().catch(...)]: the run of the program on the parsed arguments
    ([inr e] when [parseArgs] throws). *)
Definition on_fatal (err : value) : Cli unit :=
  print (Stderr [VStr "Fatal exception in CLI"; err]);;
  process_exit 1.

Definition cli (E : Env) (args : list string + value) : World -> World * Outcome unit :=
  cli_catch
    (match args with
     | inl positionals => main E positionals
     | inr e => cli_raise e
     end)
    on_fatal.

(** The entry point [build] generates for a configuration module, the
    configured directory and its listing. *)
Definition entry_code (E : Env) (m : ConfigModule) (d : string) (files : list string) : string :=
  build_entry E (resolve E (cwd E) d) (List.filter has_workflow_ext files)
    (default_or_module m).

(** What [build] prints before and after the bundler runs. *)
Definition build_started (E : Env) : list Output :=
  [ Stdout [VStr "📦 Building Miqro for production..."];
    Stdout [VStr ("Compiling single file artifact to " +:+ resolve E (cwd E) "dist"
                  +:+ "/" +:+ "index.js" +:+ "...")] ].

Definition build_finished (result : bool * value) : list Output :=
  if fst result then
    [ Stdout [VStr ("✅ Build successful! Run it with: bun run dist/" +:+ "index.js")] ]
  else
    [ Stderr [VStr "❌ Build failed"]; Stderr [snd result] ].

(** The configuration the commands other than [init] run with, when
    there is one: the default export of the configuration module, naming a
    non-empty [workflowsDir]; with it, that directory resolved against the
    current one. *)
Definition configuration (E : Env) : option (UserConfig * string) :=
  match import_config E (resolve E (cwd E) "miqro.config.ts") with
  | inl m =>
      match mod_default m with
      | Some cfg =>
          match workflowsDir cfg with
          | Some d => if truthy d then Some (cfg, resolve E (cwd E) d) else None
          | None => None
          end
      | None => None
      end
  | inr _ => None
  end.

(** The calls to the runtime a run is to make, command by command:
    none for [init], for an unknown command, without a configuration and
    when the arguments cannot be parsed; the watcher for [dev]; the server
    for [start] once [startMiqro] is back; the bundler for [build] once the
    directory is listed and the entry point written. *)
Definition calls (E : Env) (args : list string + value) (w : World) : list Action :=
  match args with
  | inr _ => []
  | inl positionals =>
      let command := command_of positionals in
      if String.eqb command "init" then []
      else
        match configuration E with
        | None => []
        | Some (_, dir) =>
            if String.eqb command "dev" then
              [Spawn ["bun"; "--watch"; script E; "start"]]
            else if String.eqb command "start" then
              match (startMiqro (env_cron_reject E) (env_readdir E)
                       (env_import_default E) (env_object_values E) dir (app w)).2 with
              | Thrown _ | Suspended => []
              | _ => [Serve]
              end
            else if String.eqb command "build" then
              match env_readdir E dir,
                    write_error E (fs w) (resolve E (cwd E) ".miqro.entry.ts") with
              | inl _, None =>
                  [BunBuild (resolve E (cwd E) ".miqro.entry.ts")
                            (resolve E (cwd E) "dist") "index.js"]
              | _, _ => []
              end
            else []
        end
  end.

(** What a run ends with after a call to the runtime that may throw. *)
Definition after_call (err : option value) : Outcome unit :=
  match err with
  | Some _ => Exit 1
  | None => Done tt
  end.

(** A project directory: paths are joined with a slash, nothing fails,
    there is no configuration module yet. *)
Definition sample_env : Env :=
  {| cwd := "/proj";
     dirname := "/miqro/src";
     script := "/miqro/src/cli.ts";
     resolve := fun a b => a +:+ "/" +:+ b;
     write_error := fun _ _ => None;
     mkdir_error := fun _ _ => None;
     unlink_error := fun _ _ => None;
     import_config := fun _ => inr (VObj [("code", VStr "ERR_MODULE_NOT_FOUND")]);
     env_cron_reject := cron_accepts_all;
     env_readdir := sample_readdir;
     env_import_default := sample_import;
     env_object_values := own_values;
     bun_build := fun _ => inl (true, VArr []);
     spawn_error := None;
     serve_error := None |}.

(** The same project once configured, with a bundler that fails. *)
Definition configured_env : Env :=
  {| cwd := "/app";
     dirname := "/miqro/src";
     script := "/miqro/src/cli.ts";
     resolve := fun a b => a +:+ "/" +:+ b;
     write_error := fun _ _ => None;
     mkdir_error := fun _ _ => None;
     unlink_error := fun _ _ => None;
     import_config := fun _ =>
       inl {| mod_default := Some {| workflowsDir := Some "workflows"; port := None |};
              mod_namespace := {| workflowsDir := None; port := None |} |};
     env_cron_reject := cron_accepts_all;
     env_readdir := sample_readdir;
     env_import_default := sample_import;
     env_object_values := own_values;
     bun_build := fun _ => inl (false, VArr [VStr "error: build failed"]);
     spawn_error := None;
     serve_error := None |}.

(** A configuration written with named exports only. *)
Definition named_exports_env : Env :=
  {| cwd := "/app";
     dirname := "/miqro/src";
     script := "/miqro/src/cli.ts";
     resolve := fun a b => a +:+ "/" +:+ b;
     write_error := fun _ _ => None;
     mkdir_error := fun _ _ => None;
     unlink_error := fun _ _ => None;
     import_config := fun _ =>
       inl {| mod_default := None;
              mod_namespace := {| workflowsDir := Some "workflows"; port := None |} |};
     env_cron_reject := cron_accepts_all;
     env_readdir := sample_readdir;
     env_import_default := sample_import;
     env_object_values := own_values;
     bun_build := fun _ => inl (true, VArr []);
     spawn_error := None;
     serve_error := None |}.

(** The configured project with a bundler that throws. *)
Definition throwing_bundler_env : Env :=
  {| cwd := "/app";
     dirname := "/miqro/src";
     script := "/miqro/src/cli.ts";
     resolve := fun a b => a +:+ "/" +:+ b;
     write_error := fun _ _ => None;
     mkdir_error := fun _ _ => None;
     unlink_error := fun _ _ => None;
     import_config := import_config configured_env;
     env_cron_reject := cron_accepts_all;
     env_readdir := sample_readdir;
     env_import_default := sample_import;
     env_object_values := own_values;
     bun_build := fun _ => inr (VStr "AggregateError: Bundle failed");
     spawn_error := None;
     serve_error := None |}.

(** The same configuration in a directory without [workflows]. *)
Definition missing_directory_env : Env :=
  {| cwd := "/srv";
     dirname := "/miqro/src";
     script := "/miqro/src/cli.ts";
     resolve := fun a b => a +:+ "/" +:+ b;
     write_error := fun _ _ => None;
     mkdir_error := fun _ _ => None;
     unlink_error := fun _ _ => None;
     import_config := import_config configured_env;
     env_cron_reject := cron_accepts_all;
     env_readdir := sample_readdir;
     env_import_default := sample_import;
     env_object_values := own_values;
     bun_build := fun _ => inl (true, VArr []);
     spawn_error := None;
     serve_error := None |}.

(** The module of [configured_env]. *)
Definition configured_module : ConfigModule :=
  {| mod_default := Some {| workflowsDir := Some "workflows"; port := None |};
     mod_namespace := {| workflowsDir := None; port := None |} |}.

Definition empty_world : World :=
  {| fs := ∅; out := []; actions := []; app := initial_state empty_registry |}.

(** ** Running the monad: one equation per primitive *)

Lemma run_bind {A B} (m : M A) (f : A -> M B) s :
  (m ≫= f) s = match m s with
                | (s', Normal a) => f a s'
                | (s', Returned r) => (s', Returned r)
                | (s', Thrown e) => (s', Thrown e)
                | (s', Suspended) => (s', Suspended)
                end.
Proof. reflexivity. Qed.

Lemma run_ret {A B} (a : A) (f : A -> M B) s : (mret a ≫= f) s = f a s.
Proof. reflexivity. Qed.

Lemma run_emit {B} ev (f : unit -> M B) s : (emit ev ≫= f) s = f tt (log_events [ev] s).
Proof. reflexivity. Qed.

Lemma run_return {A B} r (f : A -> M B) s : (return_ r ≫= f) s = (s, Returned r).
Proof. reflexivity. Qed.

Lemma run_throw {A B} e (f : A -> M B) s : (throw e ≫= f) s = (s, Thrown e).
Proof. reflexivity. Qed.

Lemma end_return {A} r s : @return_ A r s = (s, Returned r).
Proof. reflexivity. Qed.

Lemma run_suspend {A B} (f : A -> M B) s : (suspend ≫= f) s = (s, Suspended).
Proof. reflexivity. Qed.

Lemma end_suspend {A} s : @suspend A s = (s, Suspended).
Proof. reflexivity. Qed.

(** The bodies made of a message are always serialised. *)
Lemma run_respond_error {A B} msg st (f : A -> M B) s :
  (respond (error_body msg) st ≫= f) s = (s, Returned (c_json (error_body msg) st)).
Proof. reflexivity. Qed.

Lemma end_respond_error {A} msg st s :
  @respond A (error_body msg) st s = (s, Returned (c_json (error_body msg) st)).
Proof. reflexivity. Qed.

Lemma end_respond {A} b st s :
  @respond A b st s
  = if serializable b then (s, Returned (c_json b st)) else (s, Thrown type_error).
Proof. unfold respond. by destruct (serializable b). Qed.

Lemma run_respond {A B} b st (f : A -> M B) s :
  (respond b st ≫= f) s
  = if serializable b then (s, Returned (c_json b st)) else (s, Thrown type_error).
Proof. unfold respond. by destruct (serializable b). Qed.

Lemma serializable_success_body i v : serializable (success_body i v) = serializable v.
Proof. simpl. by rewrite andb_true_r. Qed.

Lemma serializable_failure_body details :
  serializable (VObj [("error", VStr "Validation Failed"); ("details", details)])
  = serializable details.
Proof. simpl. by rewrite andb_true_r. Qed.

Lemma end_throw {A} e s : @throw A e s = (s, Thrown e).
Proof. reflexivity. Qed.

Lemma end_ret {A} (a : A) s : (mret a : M A) s = (s, Normal a).
Proof. reflexivity. Qed.

Lemma end_emit ev s : emit ev s = (log_events [ev] s, Normal tt).
Proof. reflexivity. Qed.

Lemma run_get_workflows {B} (f : Registry -> M B) s :
  (get_workflows ≫= f) s = f (workflows s) s.
Proof. reflexivity. Qed.

Lemma run_req_param {B} c n (f : string -> M B) s :
  (req_param c n ≫= f) s = f (workflowId c) (log_events [ReqParam n] s).
Proof. reflexivity. Qed.

Lemma run_req_header {B} c n (f : option string -> M B) s :
  (req_header c n ≫= f) s
  = f (req_headers c !! toLowerCase n) (log_events [ReqHeader n] s).
Proof. reflexivity. Qed.

Lemma run_req_query {B} c n (f : option string -> M B) s :
  (req_query_get c n ≫= f) s = f (req_query c !! n) (log_events [ReqQuery n] s).
Proof. reflexivity. Qed.

Lemma run_req_json {B} c (f : value -> M B) s :
  (req_json c ≫= f) s
  = match req_body c with
    | inl v => f v (log_events [ReqJson] s)
    | inr e => (log_events [ReqJson] s, Thrown e)
    end.
Proof. unfold req_json. rewrite run_bind. simpl. by destruct (req_body c). Qed.

Lemma run_request_context {B} w c (f : MiqroContext -> M B) s :
  (request_context w c ≫= f) s = f (http_context w c) (log_events [ReqAll] s).
Proof. reflexivity. Qed.

Lemma run_await_execute {B} w p ctx (f : value -> M B) s :
  (await_execute w p ctx ≫= f) s
  = match execute w p ctx with
    | Returns v => f v (log_events [Execute w p ctx] s)
    | Throws e | Rejects e => (log_events [Execute w p ctx] s, Thrown e)
    | Pending => (log_events [Execute w p ctx] s, Suspended)
    end.
Proof.
  unfold await_execute. rewrite run_bind. simpl. by destruct (execute w p ctx).
Qed.

Lemma log_events_nil s : log_events [] s = s.
Proof. destruct s. unfold log_events. simpl. by rewrite app_nil_r. Qed.

Lemma log_events_app evs1 evs2 s :
  log_events evs2 (log_events evs1 s) = log_events (evs1 ++ evs2) s.
Proof. unfold log_events. simpl. by rewrite app_assoc. Qed.

Lemma workflows_log_events evs s : workflows (log_events evs s) = workflows s.
Proof. reflexivity. Qed.

Lemma lower_authorization : toLowerCase "Authorization" = "authorization".
Proof. reflexivity. Qed.

Lemma lower_x_api_key : toLowerCase "x-api-key" = "x-api-key".
Proof. reflexivity. Qed.

(** The auth check agrees with [authorized]: it falls through exactly
    when the request is authorized and returns the 401 response otherwise,
    after the reads listed by [auth_events]. *)
Lemma check_auth_run {B} c a (f : unit -> M B) s :
  (check_auth c (req_headers c !! "authorization") a ≫= f) s
  = if authorized a c
    then f tt (log_events (auth_events a c) s)
    else (log_events (auth_events a c) s,
          Returned (c_json (error_body (auth_error a)) 401)).
Proof.
  destruct a as [|key|token]; unfold check_auth, authorized, auth_events.
  - by rewrite run_ret, log_events_nil.
  - rewrite run_bind, run_req_header, lower_x_api_key. unfold api_key_candidate.
    cbv beta zeta.
    destruct (truthy_opt (req_headers c !! "x-api-key")).
    + rewrite run_ret. by destruct (bool_decide _).
    + rewrite run_req_query, log_events_app. by destruct (bool_decide _).
  - destruct (req_headers c !! "authorization") as [h|].
    + destruct (truthy h && startsWith h ("Bearer " +:+ token));
        by rewrite ?run_ret, ?run_respond_error, log_events_nil.
    + by rewrite run_respond_error, log_events_nil.
Qed.

Lemma validate_run {B} sch p (f : value -> M B) s :
  (validate sch p ≫= f) s
  = match sch with
    | None => f p s
    | Some sc =>
        match safeParse sc p with
        | ParseSuccess data => f data (log_events [SafeParse p] s)
        | ParseFailure details =>
            if serializable details
            then (log_events [SafeParse p] s,
                  Returned (c_json (VObj [("error", VStr "Validation Failed");
                                          ("details", details)]) 400))
            else (log_events [SafeParse p] s, Thrown type_error)
        end
    end.
Proof.
  destruct sch as [sc|]; unfold validate; [|done].
  rewrite run_bind, run_emit. destruct (safeParse sc p) as [data|details]; [done|].
  rewrite end_respond, serializable_failure_body. by destruct (serializable details).
Qed.

(** ** The handler, path by path *)

Ltac run_step :=
  cbv beta iota zeta;
  first [ rewrite run_req_param | rewrite run_get_workflows
        | rewrite run_req_header | rewrite run_req_json
        | rewrite check_auth_run | rewrite validate_run
        | rewrite run_request_context | rewrite run_await_execute
        | rewrite run_emit | rewrite run_return | rewrite run_throw
        | rewrite run_respond_error | rewrite end_respond_error
        | rewrite run_ret | rewrite end_return | rewrite end_throw
        | rewrite end_ret | rewrite end_emit
        | rewrite log_events_app
        | rewrite workflows_log_events | rewrite lower_authorization ].

Ltac run := repeat run_step; cbv beta iota zeta.

Ltac run_handler := unfold webhook_handler, try_catch, console_error; run.

Section Handler.

Variables (c : Request) (s : State).

Lemma handler_unknown :
  registry_get (workflows s) (workflowId c) = LUndefined ->
  webhook_handler c s
  = (log_events [ReqParam "workflowId"] s,
     Returned (c_json (error_body ("Workflow '" +:+ workflowId c +:+ "' not found")) 404)).
Proof. intros Hget. run_handler. rewrite Hget. by run. Qed.

Lemma handler_foreign :
  registry_get (workflows s) (workflowId c) = LForeign ->
  webhook_handler c s
  = (log_events [ReqParam "workflowId"; ReqHeader "Authorization";
                 ConsoleError "[Miqro Webhook Error]" type_error] s,
     Returned generic_400).
Proof. intros Hget. run_handler. rewrite Hget. by run. Qed.

Variable w : Workflow.
Hypothesis Hget : registry_get (workflows s) (workflowId c) = LWorkflow w.

Lemma handler_denied :
  authorized (auth (config w)) c = false ->
  webhook_handler c s
  = (log_events ([ReqParam "workflowId"; ReqHeader "Authorization"]
                   ++ auth_events (auth (config w)) c) s,
     Returned (c_json (error_body (auth_error (auth (config w)))) 401)).
Proof.
  intros Hauth. run_handler. rewrite Hget. run.
  rewrite Hauth. by run.
Qed.

Hypothesis Hauth : authorized (auth (config w)) c = true.

Lemma handler_malformed e :
  req_body c = inr e ->
  webhook_handler c s
  = (log_events (admitted_events w c ++ [ConsoleError "[Miqro Webhook Error]" e]) s,
     Returned generic_400).
Proof.
  intros Hbody. run_handler. rewrite Hget. run.
  rewrite Hauth. run. rewrite Hbody. run.
  unfold admitted_events. by rewrite <- !app_assoc.
Qed.

Lemma handler_invalid p sc details :
  req_body c = inl p ->
  schema (config w) = Some sc ->
  safeParse sc p = ParseFailure details ->
  serializable details = true ->
  webhook_handler c s
  = (log_events (admitted_events w c ++ [SafeParse p]) s,
     Returned (c_json (VObj [("error", VStr "Validation Failed");
                             ("details", details)]) 400)).
Proof.
  intros Hbody Hsch Hparse Hser. run_handler. rewrite Hget. run.
  rewrite Hauth. run. rewrite Hbody. run.
  rewrite Hsch, Hparse, Hser. run.
  unfold admitted_events. by rewrite <- !app_assoc.
Qed.

Lemma handler_opaque_details p sc details :
  req_body c = inl p ->
  schema (config w) = Some sc ->
  safeParse sc p = ParseFailure details ->
  serializable details = false ->
  webhook_handler c s
  = (log_events (admitted_events w c
                   ++ [SafeParse p; ConsoleError "[Miqro Webhook Error]" type_error]) s,
     Returned generic_400).
Proof.
  intros Hbody Hsch Hparse Hser. run_handler. rewrite Hget. run.
  rewrite Hauth. run. rewrite Hbody. run.
  rewrite Hsch, Hparse, Hser. run.
  unfold admitted_events. by rewrite <- !app_assoc.
Qed.

Lemma handler_success p p' v :
  req_body c = inl p ->
  Validated p (schema (config w)) p' ->
  execute w p' (http_context w c) = Returns v ->
  serializable v = true ->
  webhook_handler c s
  = (log_events (invoked_events c w p p') s,
     Returned (c_json (success_body (workflowId c) v) 200)).
Proof.
  intros Hbody Hval Hexec Hser. run_handler. rewrite Hget. run.
  rewrite Hauth. run. rewrite Hbody. run.
  unfold invoked_events, admitted_events.
  destruct Hval as [|sc data Hparse]; rewrite ?Hparse; run;
    rewrite Hexec; run; rewrite end_respond, serializable_success_body, Hser;
    simpl validate_events; by rewrite <- ?app_assoc.
Qed.

Lemma handler_opaque_result p p' v :
  req_body c = inl p ->
  Validated p (schema (config w)) p' ->
  execute w p' (http_context w c) = Returns v ->
  serializable v = false ->
  webhook_handler c s
  = (log_events (invoked_events c w p p'
                   ++ [ConsoleError "[Miqro Webhook Error]" type_error]) s,
     Returned generic_400).
Proof.
  intros Hbody Hval Hexec Hser. run_handler. rewrite Hget. run.
  rewrite Hauth. run. rewrite Hbody. run.
  unfold invoked_events, admitted_events.
  destruct Hval as [|sc data Hparse]; rewrite ?Hparse; run;
    rewrite Hexec; run; rewrite end_respond, serializable_success_body, Hser; run;
    simpl validate_events; by rewrite <- ?app_assoc.
Qed.

Lemma handler_fault p p' e :
  req_body c = inl p ->
  Validated p (schema (config w)) p' ->
  execute w p' (http_context w c) = Throws e
  \/ execute w p' (http_context w c) = Rejects e ->
  webhook_handler c s
  = (log_events (invoked_events c w p p' ++ [ConsoleError "[Miqro Webhook Error]" e]) s,
     Returned generic_400).
Proof.
  intros Hbody Hval Hexec. run_handler. rewrite Hget. run.
  rewrite Hauth. run. rewrite Hbody. run.
  unfold invoked_events, admitted_events.
  destruct Hval as [|sc data Hparse]; rewrite ?Hparse; run;
    destruct Hexec as [Hexec|Hexec]; rewrite Hexec; run;
    simpl validate_events; by rewrite <- ?app_assoc.
Qed.

(** While [execute] does not settle the handler stays at its [await]:
    nothing is returned and nothing is logged. *)
Lemma handler_pending p p' :
  req_body c = inl p ->
  Validated p (schema (config w)) p' ->
  execute w p' (http_context w c) = Pending ->
  webhook_handler c s = (log_events (invoked_events c w p p') s, Suspended).
Proof.
  intros Hbody Hval Hexec. run_handler. rewrite Hget. run.
  rewrite Hauth. run. rewrite Hbody. run.
  unfold invoked_events, admitted_events.
  destruct Hval as [|sc data Hparse]; rewrite ?Hparse; run;
    rewrite Hexec; run; simpl validate_events; by rewrite <- ?app_assoc.
Qed.

End Handler.

(** ** From the handler to [dispatch] *)

Lemma dispatch_of_handler ws c evs r :
  webhook_handler c (initial_state ws) = (log_events evs (initial_state ws), Returned r) ->
  dispatch ws c = (evs, r).
Proof. unfold dispatch. by intros ->. Qed.

Lemma validated_cases sch p :
  (exists p', Validated p sch p')
  \/ (exists sc details, sch = Some sc /\ safeParse sc p = ParseFailure details).
Proof.
  destruct sch as [sc|]; [|left; eexists; constructor].
  destruct (safeParse sc p) as [data|details] eqn:Hparse.
  - left. exists data. by constructor.
  - right. by exists sc, details.
Qed.

Lemma dispatch_of_suspended ws c evs :
  webhook_handler c (initial_state ws) = (log_events evs (initial_state ws), Suspended) ->
  dispatch ws c = (evs, no_response).
Proof. unfold dispatch. by intros ->. Qed.

(** Each rule is a run of the code. *)
Lemma Run_sound ws c evs r : Run ws c evs r -> dispatch ws c = (evs, r).
Proof.
  intros HR. destruct HR.
  - by apply dispatch_of_handler, handler_unknown.
  - by apply dispatch_of_handler, handler_foreign.
  - by apply dispatch_of_handler, handler_denied.
  - by apply dispatch_of_handler, handler_malformed.
  - by eapply dispatch_of_handler, handler_invalid.
  - by apply dispatch_of_handler, handler_success.
  - by apply dispatch_of_handler, handler_fault.
  - by eapply dispatch_of_handler, handler_opaque_details.
  - by eapply dispatch_of_handler, handler_opaque_result.
  - by apply dispatch_of_suspended, handler_pending.
Qed.

(** And the code always takes one of them. *)
Lemma Run_total ws c : Run ws c (dispatch ws c).1 (dispatch ws c).2.
Proof.
  assert (exists evs r, Run ws c evs r) as (evs & r & HR).
  { destruct (registry_get ws (workflowId c)) as [|w|] eqn:Hget.
    - do 2 eexists. by apply run_unknown.
    - destruct (authorized (auth (config w)) c) eqn:Hauth.
      2: { do 2 eexists. by eapply run_denied. }
      destruct (req_body c) as [p|e] eqn:Hbody.
      2: { do 2 eexists. by eapply run_malformed. }
      destruct (validated_cases (schema (config w)) p)
        as [[p' Hval]|(sc & details & Hsch & Hparse)].
      2: { destruct (serializable details) eqn:Hser.
           - do 2 eexists. by eapply run_invalid.
           - do 2 eexists. by eapply run_opaque_details. }
      destruct (execute w p' (http_context w c)) as [v|e|e|] eqn:Hexec.
      + destruct (serializable v) eqn:Hser.
        * do 2 eexists. by eapply run_success.
        * do 2 eexists. by eapply run_opaque_result.
      + do 2 eexists. eapply run_fault; eauto.
      + do 2 eexists. eapply run_fault; eauto.
      + do 2 eexists. by eapply run_pending.
    - do 2 eexists. by apply run_foreign. }
  by rewrite (Run_sound _ _ _ _ HR).
Qed.

Lemma Validated_fun p sch p1 p2 : Validated p sch p1 -> Validated p sch p2 -> p1 = p2.
Proof.
  destruct 1; inversion 1; [done|]. congruence.
Qed.

(** Facts on the event lists. *)
Lemma execute_invoked_app evs1 evs2 :
  execute_invoked (evs1 ++ evs2) = execute_invoked evs1 || execute_invoked evs2.
Proof. apply existsb_app. Qed.

Lemma execute_invoked_auth a c : execute_invoked (auth_events a c) = false.
Proof.
  destruct a; try done. unfold auth_events.
  by destruct (truthy_opt (req_headers c !! "x-api-key")).
Qed.

Lemma execute_invoked_admitted w c : execute_invoked (admitted_events w c) = false.
Proof.
  unfold admitted_events. by rewrite !execute_invoked_app, execute_invoked_auth.
Qed.

Lemma elem_of_auth_events ev a c :
  ev ∈ auth_events a c -> ev = ReqHeader "x-api-key" \/ ev = ReqQuery "apiKey".
Proof.
  destruct a; unfold auth_events; try by intros ?%elem_of_nil.
  destruct (truthy_opt _); set_solver.
Qed.

Lemma elem_of_admitted_events ev w c :
  ev ∈ admitted_events w c ->
  ev = ReqParam "workflowId" \/ ev = ReqHeader "Authorization"
  \/ ev = ReqHeader "x-api-key" \/ ev = ReqQuery "apiKey" \/ ev = ReqJson.
Proof.
  unfold admitted_events. rewrite !elem_of_app.
  intros [Hin|[Hin%elem_of_auth_events|Hin]]; set_solver.
Qed.

Lemma ReqJson_admitted w c : ReqJson ∈ admitted_events w c.
Proof. unfold admitted_events. set_solver. Qed.

Lemma elem_of_validate_events ev sch p : ev ∈ validate_events sch p -> ev = SafeParse p.
Proof. destruct sch; set_solver. Qed.

(** [execute] is called at most with the resolved workflow, on an
    authorized request, with the validated payload and the request's
    context. *)
Lemma execute_in_dispatch ws c w p' ctx :
  Execute w p' ctx ∈ (dispatch ws c).1 ->
  registry_get ws (workflowId c) = LWorkflow w
  /\ authorized (auth (config w)) c = true
  /\ ctx = http_context w c
  /\ exists p, req_body c = inl p /\ Validated p (schema (config w)) p'.
Proof.
  intros Hin.
  assert (forall w0 p p0,
             Execute w p' ctx ∈ invoked_events c w0 p p0 ->
             w = w0 /\ p' = p0 /\ ctx = http_context w0 c) as Hinv.
  { intros w0 p p0. unfold invoked_events. rewrite !elem_of_app.
    intros [Hx%elem_of_admitted_events|[Hx%elem_of_validate_events|Hx]];
      [set_solver..|].
    apply elem_of_cons in Hx as [?|Hx]; [done|].
    apply list_elem_of_singleton in Hx. by injection Hx as <- <- <-. }
  destruct (Run_total ws c)
    as [| | | | |w0 p p0 v|w0 p p0 e|w0 p sc details|w0 p p0 v|w0 p p0].
  1-2: set_solver.
  1: { apply elem_of_app in Hin as [Hin|Hin%elem_of_auth_events]; set_solver. }
  1-2: apply elem_of_app in Hin as [Hin%elem_of_admitted_events|Hin]; set_solver.
  3: { apply elem_of_app in Hin as [Hin%elem_of_admitted_events|Hin]; set_solver. }
  - destruct (Hinv _ _ _ Hin) as (-> & -> & ->). eauto 10.
  - apply elem_of_app in Hin as [Hin|Hin]; [|set_solver].
    destruct (Hinv _ _ _ Hin) as (-> & -> & ->). eauto 10.
  - apply elem_of_app in Hin as [Hin|Hin]; [|set_solver].
    destruct (Hinv _ _ _ Hin) as (-> & -> & ->). eauto 10.
  - destruct (Hinv _ _ _ Hin) as (-> & -> & ->). eauto 10.
Qed.

(** ** The cases of [test/index.test.ts], run on the model *)

Example test_unknown_workflow_id_404 :
  status (dispatch (registry_after sample_workflows)
            (post "some-fake-id" [("content-type", "application/json")] []
                  (inl (VObj [("testPayload", VBool true)])))).2 = 404.
Proof. vm_compute. reflexivity. Qed.

Example test_bad_json_payload_400 :
  status (dispatch (registry_after sample_workflows)
            (post "webhook-no-auth" [] [] (inr syntax_error))).2 = 400.
Proof. vm_compute. reflexivity. Qed.

Example test_no_auth_200 :
  status (dispatch (registry_after sample_workflows)
            (post "webhook-no-auth" [] [] (inl (VObj [("testPayload", VBool true)])))).2
  = 200.
Proof. vm_compute. reflexivity. Qed.

Example test_missing_api_key_401 :
  status (dispatch (registry_after sample_workflows)
            (post "webhook-api-key" [] [] (inl (VObj [])))).2 = 401.
Proof. vm_compute. reflexivity. Qed.

Example test_incorrect_api_key_401 :
  status (dispatch (registry_after sample_workflows)
            (post "webhook-api-key" [("x-api-key", "wrong-key")] [] (inl (VObj [])))).2
  = 401.
Proof. vm_compute. reflexivity. Qed.

Example test_correct_api_key_200 :
  status (dispatch (registry_after sample_workflows)
            (post "webhook-api-key" [("x-api-key", "secret123")] [] (inl (VObj [])))).2
  = 200.
Proof. vm_compute. reflexivity. Qed.

Example test_missing_bearer_token_401 :
  status (dispatch (registry_after sample_workflows)
            (post "webhook-bearer" [] [] (inl (VObj [])))).2 = 401.
Proof. vm_compute. reflexivity. Qed.

Example test_incorrect_bearer_token_401 :
  status (dispatch (registry_after sample_workflows)
            (post "webhook-bearer" [("authorization", "Bearer wrong-token")] []
                  (inl (VObj [])))).2 = 401.
Proof. vm_compute. reflexivity. Qed.

Example test_correct_bearer_token_200 :
  status (dispatch (registry_after sample_workflows)
            (post "webhook-bearer" [("authorization", "Bearer token456")] []
                  (inl (VObj [])))).2 = 200.
Proof. vm_compute. reflexivity. Qed.

Example test_validation_passes_200 :
  (dispatch (registry_after [nameless; {| config := config v_throwing;
                                           execute := fun p _ => Returns p |}])
     (post "v" [] [] (inl (VObj [("n", VNum 5); ("extra", VNull)])))).2
  = c_json (success_body "v" (VObj [("n", VNum 5)])) 200.
Proof. vm_compute. reflexivity. Qed.

Example endsWith_ts : endsWith "sample.ts" ".ts" = true.
Proof. reflexivity. Qed.

Example endsWith_short : endsWith "ts" ".ts" = false.
Proof. reflexivity. Qed.

Example endsWith_other : endsWith "notes.md" ".js" = false.
Proof. reflexivity. Qed.

Example toLowerCase_header : toLowerCase "X-Api-Key" = "x-api-key".
Proof. reflexivity. Qed.

Example lookup_toString : registry_get empty_registry "toString" = LForeign.
Proof. reflexivity. Qed.

Example lookup_fresh_id : registry_get empty_registry "echo" = LUndefined.
Proof. reflexivity. Qed.

(** ** Strings *)

Lemma startsWith_spec s pre :
  startsWith s pre = true <-> exists rest, s = pre +:+ rest.
Proof.
  unfold startsWith. revert s.
  induction pre as [|a pre IH]; intros [|b s]; simpl.
  - split; [by exists ""|done].
  - split; [by eexists|done].
  - split; [done|by intros [rest ?]].
  - destruct (Ascii.ascii_dec a b) as [->|Hne].
    + rewrite IH. split; intros [rest Hrest]; exists rest;
        change (String b pre +:+ rest) with (String b (pre +:+ rest)) in *; congruence.
    + split; [done|]. intros [rest Hrest].
      change (String a pre +:+ rest) with (String a (pre +:+ rest)) in *. congruence.
Qed.

Lemma startsWith_refl s : startsWith s s = true.
Proof.
  unfold startsWith. induction s as [|a s IH]; simpl; [done|].
  by destruct (Ascii.ascii_dec a a).
Qed.

(** ** The auth step *)

Section Auth.

Variables (ws : Registry) (c : Request) (w : Workflow).
Hypothesis Hget : registry_get ws (workflowId c) = LWorkflow w.

(** A request that is let in goes on to the decode and does not end
    in a 401. *)
Lemma authorized_admitted :
  authorized (auth (config w)) c = true ->
  status (dispatch ws c).2 <> 401 /\ ReqJson ∈ (dispatch ws c).1.
Proof.
  intros Hauth.
  destruct (Run_total ws c) as [?|?|w0|w0|w0|w0|w0|w0|w0|w0]; try congruence.
  all: split; [done|]; unfold invoked_events; rewrite ?elem_of_app;
    auto using ReqJson_admitted.
Qed.

(** A request that is not let in ends in the 401 response right after
    the credential reads. *)
Lemma unauthorized_denied :
  authorized (auth (config w)) c = false ->
  dispatch ws c
  = ([ReqParam "workflowId"; ReqHeader "Authorization"]
       ++ auth_events (auth (config w)) c,
     c_json (error_body (auth_error (auth (config w)))) 401).
Proof. intros Hauth. apply Run_sound. by apply run_denied. Qed.

Lemma denied_no_decode :
  authorized (auth (config w)) c = false ->
  (ReqJson ∉ (dispatch ws c).1) /\ execute_invoked (dispatch ws c).1 = false.
Proof.
  intros Hauth. rewrite (unauthorized_denied Hauth). cbv [fst]. split.
  - rewrite elem_of_app. intros [Hin|Hin%elem_of_auth_events]; set_solver.
  - by rewrite execute_invoked_app, execute_invoked_auth.
Qed.

End Auth.

Lemma status_401_iff ws c w :
  registry_get ws (workflowId c) = LWorkflow w ->
  status (dispatch ws c).2 = 401 <-> authorized (auth (config w)) c = false.
Proof.
  intros Hget. destruct (authorized (auth (config w)) c) eqn:Hauth.
  - split; [|done]. by destruct (authorized_admitted ws c w Hget Hauth).
  - by rewrite (unauthorized_denied ws c w Hget Hauth).
Qed.

Lemma bearer_authorized_iff c T :
  authorized (AuthBearer T) c = true
  <-> exists rest, req_headers c !! "authorization" = Some ("Bearer " +:+ T +:+ rest).
Proof.
  unfold authorized. destruct (req_headers c !! "authorization") as [h|].
  - rewrite andb_true_iff, startsWith_spec. split.
    + intros [_ [rest ->]]. by exists rest.
    + intros [rest [= ->]]. split; [done|]. by exists rest.
  - split; [done|]. by intros [? ?].
Qed.

Lemma api_key_candidate_eq c :
  api_key_candidate c
  = match req_headers c !! "x-api-key" with
    | Some v => if String.eqb v "" then req_query c !! "apiKey" else Some v
    | None => req_query c !! "apiKey"
    end.
Proof.
  unfold api_key_candidate. destruct (req_headers c !! "x-api-key") as [v|]; [|done].
  simpl. unfold truthy. by destruct (String.eqb v "").
Qed.

(** ** Unknown workflow ids *)

(** An id that resolves to [undefined] gets the 404 response at once:
    nothing but the route parameter is read. *)
Lemma unresolved_id_404 ws c :
  registry_get ws (workflowId c) = LUndefined ->
  dispatch ws c
  = ([ReqParam "workflowId"],
     c_json (error_body ("Workflow '" +:+ workflowId c +:+ "' not found")) 404).
Proof. intros Hget. apply Run_sound. by apply run_unknown. Qed.

(** That is the case of every unregistered id which is neither a member
    of [Object.prototype] nor (when a definition was installed as
    prototype) one of its members. *)
Lemma registry_get_undefined ws k :
  own ws !! k = None ->
  proto ws = None ->
  k <> "__proto__" ->
  inherited_from_object k = false ->
  registry_get ws k = LUndefined.
Proof.
  intros Hown Hproto Hk Hinh. unfold registry_get.
  destruct (String.eqb_spec k "__proto__"); [done|].
  by rewrite Hown, Hinh, Hproto.
Qed.

(** C7 (the code at the failing input).  A POST to [/constructor], an id
    that no definition registers, is not answered with 404: the read
    [workflows["constructor"]] finds the member inherited from
    [Object.prototype], the handler goes on, fails on
    [workflow.config] and answers with the generic 400. *)
Theorem inherited_member_not_404 ws c :
  workflowId c = "constructor" ->
  own ws !! "constructor" = None ->
  dispatch ws c
  = ([ReqParam "workflowId"; ReqHeader "Authorization";
      ConsoleError "[Miqro Webhook Error]" type_error],
     generic_400).
Proof.
  intros Hid Hown. apply Run_sound, run_foreign.
  rewrite Hid. unfold registry_get. by rewrite Hown.
Qed.

Lemma inherited_member_not_404_witness :
  status (dispatch (registry_after sample_workflows)
                   (post "constructor" [] [] (inl (VObj [])))).2 = 400.
Proof.
  rewrite (inherited_member_not_404 (registry_after sample_workflows)
             (post "constructor" [] [] (inl (VObj [])))).
  - reflexivity.
  - reflexivity.
  - vm_compute. reflexivity.
Defined.

(** ** Bearer tokens *)

(** C2 (as stated, refuted).  With token [token456], the header
    [Bearer token4567] is another value than [Bearer token456], and the
    invocation is not denied. *)
Lemma bearer_longer_value_accepted :
  ~ (forall ws c w T,
        registry_get ws (workflowId c) = LWorkflow w ->
        auth (config w) = AuthBearer T ->
        req_headers c !! "authorization" <> Some ("Bearer " +:+ T) ->
        status (dispatch ws c).2 = 401).
Proof.
  intros Hclaim.
  specialize (Hclaim (registry_after sample_workflows)
                (post "webhook-bearer" [("authorization", "Bearer token4567")] []
                      (inl (VObj [])))
                webhook_bearer "token456").
  vm_compute in Hclaim.
  assert (200 = 401) as Habs; [|discriminate Habs].
  apply Hclaim; [reflexivity|reflexivity|discriminate].
Qed.

(** C2 (as amended).  For a workflow with auth variant bearer(T), the
    invocation is allowed exactly when the Authorization header is present
    and starts with [Bearer T] (so in particular when it equals it); every
    other value, and an absent header, is denied with the 401 response and
    [execute] is not called. *)
Theorem bearer_prefix_match ws c w T :
  registry_get ws (workflowId c) = LWorkflow w ->
  auth (config w) = AuthBearer T ->
  let allowed :=
    exists rest, req_headers c !! "authorization" = Some ("Bearer " +:+ T +:+ rest) in
  (req_headers c !! "authorization" = Some ("Bearer " +:+ T) ->
   status (dispatch ws c).2 <> 401)
  /\ (allowed -> status (dispatch ws c).2 <> 401 /\ ReqJson ∈ (dispatch ws c).1)
  /\ (~ allowed ->
      (dispatch ws c).2 = c_json (error_body "Unauthorized: Invalid Bearer token") 401
      /\ execute_invoked (dispatch ws c).1 = false).
Proof.
  intros Hget Ha allowed. split; [|split].
  - intros Hh. apply (authorized_admitted ws c w Hget).
    rewrite Ha. unfold authorized. rewrite Hh, startsWith_refl. reflexivity.
  - intros Hal. apply (authorized_admitted ws c w Hget).
    rewrite Ha. by apply bearer_authorized_iff.
  - intros Hnal.
    assert (authorized (auth (config w)) c = false) as Hden.
    { rewrite Ha. apply not_true_is_false. by rewrite bearer_authorized_iff. }
    split.
    + rewrite (unauthorized_denied ws c w Hget Hden). by rewrite Ha.
    + by apply (denied_no_decode ws c w Hget).
Qed.

Lemma bearer_prefix_match_witness :
  status (dispatch (registry_after sample_workflows)
            (post "webhook-bearer" [("authorization", "Bearer token456")] []
                  (inl (VObj [])))).2 <> 401.
Proof.
  apply (proj1 (bearer_prefix_match (registry_after sample_workflows)
                  (post "webhook-bearer" [("authorization", "Bearer token456")] []
                        (inl (VObj [])))
                  webhook_bearer "token456" eq_refl eq_refl)).
  reflexivity.
Defined.

(** ** API keys *)

(** The reads of an api-key check: the header, then the query parameter
    when the header gave nothing. *)
Lemma api_key_reads ws c w key :
  registry_get ws (workflowId c) = LWorkflow w ->
  auth (config w) = AuthApiKey key ->
  exists rest,
    (dispatch ws c).1
    = [ReqParam "workflowId"; ReqHeader "Authorization"; ReqHeader "x-api-key"]
        ++ (if truthy_opt (req_headers c !! "x-api-key") then [] else [ReqQuery "apiKey"])
        ++ rest.
Proof.
  intros Hget Ha.
  assert (auth_events (auth (config w)) c
          = ReqHeader "x-api-key"
              :: (if truthy_opt (req_headers c !! "x-api-key") then []
                  else [ReqQuery "apiKey"])) as Hev.
  { by rewrite Ha. }
  destruct (Run_total ws c) as [?|?|w0|w0|w0|w0|w0|w0|w0|w0]; try congruence;
    assert (w0 = w) as -> by congruence;
    unfold invoked_events, admitted_events; rewrite Hev; simpl;
    rewrite <- ?app_assoc; eauto.
  exists []. by rewrite app_nil_r.
Qed.

(** C5.  For a workflow with auth variant apiKey(key), the candidate is
    the [x-api-key] header when it carries a non-empty value and the
    [apiKey] query parameter otherwise (the header is read first, the query
    parameter only when the header gave nothing); the invocation is allowed
    when the candidate equals [key] and denied with the 401 response, without
    decoding the body or calling [execute], in every other case. *)
Theorem api_key_header_then_query ws c w key :
  registry_get ws (workflowId c) = LWorkflow w ->
  auth (config w) = AuthApiKey key ->
  let h := req_headers c !! "x-api-key" in
  let q := req_query c !! "apiKey" in
  let from_header := match h with Some v => negb (String.eqb v "") | None => false end in
  let candidate := if from_header then h else q in
  (exists rest,
      (dispatch ws c).1
      = [ReqParam "workflowId"; ReqHeader "Authorization"; ReqHeader "x-api-key"]
          ++ (if from_header then [] else [ReqQuery "apiKey"]) ++ rest)
  /\ (candidate = Some key ->
      status (dispatch ws c).2 <> 401 /\ ReqJson ∈ (dispatch ws c).1)
  /\ (candidate <> Some key ->
      dispatch ws c
      = ([ReqParam "workflowId"; ReqHeader "Authorization"; ReqHeader "x-api-key"]
           ++ (if from_header then [] else [ReqQuery "apiKey"]),
         c_json (error_body "Unauthorized: Invalid API Key") 401)).
Proof.
  intros Hget Ha h q from_header candidate.
  assert (truthy_opt h = from_header) as Hfrom by done.
  assert (api_key_candidate c = candidate) as Hcand.
  { unfold api_key_candidate. fold h q. by rewrite Hfrom. }
  assert (auth_events (auth (config w)) c
          = ReqHeader "x-api-key" :: (if from_header then [] else [ReqQuery "apiKey"]))
    as Hev.
  { rewrite Ha. unfold auth_events. fold h. by rewrite Hfrom. }
  assert (authorized (auth (config w)) c = bool_decide (candidate = Some key)) as Hauth.
  { rewrite Ha. unfold authorized. by rewrite Hcand. }
  split; [|split].
  - destruct (api_key_reads ws c w key Hget Ha) as [rest Hrest].
    exists rest. fold h in Hrest. by rewrite Hfrom in Hrest.
  - intros Hc. apply (authorized_admitted ws c w Hget).
    rewrite Hauth. by apply bool_decide_eq_true.
  - intros Hc. rewrite (unauthorized_denied ws c w Hget).
    + by rewrite Hev, Ha.
    + rewrite Hauth. by apply bool_decide_eq_false.
Qed.

Lemma api_key_header_then_query_witness :
  status (dispatch (registry_after sample_workflows)
            (post "webhook-api-key" [("x-api-key", "secret123")] []
                  (inl (VObj [])))).2 <> 401.
Proof.
  apply (proj1 (proj2 (api_key_header_then_query (registry_after sample_workflows)
                         (post "webhook-api-key" [("x-api-key", "secret123")] []
                               (inl (VObj [])))
                         webhook_api_key "secret123" eq_refl eq_refl))).
  reflexivity.
Defined.

(** C10.  For a workflow with auth variant apiKey(key), an [x-api-key]
    header with the empty string as value is decided like an absent one:
    the query parameter is read, the request is denied exactly when the same
    request without the header is, and it is allowed when the query
    parameter equals [key]. *)
Theorem empty_api_key_header_as_absent ws c w key :
  registry_get ws (workflowId c) = LWorkflow w ->
  auth (config w) = AuthApiKey key ->
  req_headers c !! "x-api-key" = Some "" ->
  ReqQuery "apiKey" ∈ (dispatch ws c).1
  /\ (status (dispatch ws c).2 = 401
      <-> status (dispatch ws (without_header "x-api-key" c)).2 = 401)
  /\ (req_query c !! "apiKey" = Some key ->
      status (dispatch ws c).2 <> 401 /\ ReqJson ∈ (dispatch ws c).1).
Proof.
  intros Hget Ha Hh.
  assert (api_key_candidate c = req_query c !! "apiKey") as Hcand.
  { by rewrite api_key_candidate_eq, Hh. }
  assert (api_key_candidate (without_header "x-api-key" c) = req_query c !! "apiKey")
    as Hcand'.
  { rewrite api_key_candidate_eq. simpl. by rewrite lookup_delete_eq. }
  split; [|split].
  - destruct (api_key_reads ws c w key Hget Ha) as [rest Hev].
    rewrite Hev, Hh. set_solver.
  - rewrite (status_401_iff ws c w Hget).
    rewrite (status_401_iff ws (without_header "x-api-key" c) w Hget).
    rewrite Ha. unfold authorized. by rewrite Hcand, Hcand'.
  - intros Hq. apply (authorized_admitted ws c w Hget).
    rewrite Ha. unfold authorized. rewrite Hcand. by apply bool_decide_eq_true.
Qed.

Lemma empty_api_key_header_as_absent_witness :
  status (dispatch (registry_after sample_workflows)
            (post "webhook-api-key" [("x-api-key", "")] [("apiKey", "secret123")]
                  (inl (VObj [])))).2 <> 401.
Proof.
  apply (proj2 (proj2 (empty_api_key_header_as_absent (registry_after sample_workflows)
                         (post "webhook-api-key" [("x-api-key", "")]
                               [("apiKey", "secret123")] (inl (VObj [])))
                         webhook_api_key "secret123" eq_refl eq_refl eq_refl))).
  reflexivity.
Defined.

(** ** Malformed bodies *)

(** C4 (as stated, refuted).  The body of a POST to the api-key workflow
    without credentials does not decode, and the answer is 401, not 400:
    the auth check runs before the decode. *)
Lemma malformed_body_without_key_401 :
  ~ (forall ws c w e,
        registry_get ws (workflowId c) = LWorkflow w ->
        req_body c = inr e ->
        status (dispatch ws c).2 = 400).
Proof.
  intros Hclaim.
  specialize (Hclaim (registry_after sample_workflows)
                (post "webhook-api-key" [] [] (inr syntax_error))
                webhook_api_key syntax_error eq_refl eq_refl).
  vm_compute in Hclaim. discriminate Hclaim.
Qed.

(** C4 (as amended).  For a registered workflow, whatever its auth
    variant and schema, a POST whose body does not decode never reaches
    [execute]; it yields the generic 400 response when the credentials pass
    the auth check, and the 401 response (the body is then not even decoded)
    when they do not. *)
Theorem malformed_body_after_auth ws c w e :
  registry_get ws (workflowId c) = LWorkflow w ->
  req_body c = inr e ->
  execute_invoked (dispatch ws c).1 = false
  /\ (authorized (auth (config w)) c = true ->
      dispatch ws c
      = (admitted_events w c ++ [ConsoleError "[Miqro Webhook Error]" e], generic_400))
  /\ (authorized (auth (config w)) c = false ->
      status (dispatch ws c).2 = 401 /\ ReqJson ∉ (dispatch ws c).1).
Proof.
  intros Hget Hbody.
  assert (authorized (auth (config w)) c = true ->
          dispatch ws c
          = (admitted_events w c ++ [ConsoleError "[Miqro Webhook Error]" e],
             generic_400)) as Hok.
  { intros Hauth. apply Run_sound. by apply run_malformed. }
  split; [|split]; [|done|].
  - destruct (authorized (auth (config w)) c) eqn:Hauth.
    + rewrite Hok by done. cbv [fst].
      by rewrite execute_invoked_app, execute_invoked_admitted.
    + by apply (denied_no_decode ws c w Hget).
  - intros Hauth. split.
    + by apply (status_401_iff ws c w Hget).
    + by apply (denied_no_decode ws c w Hget).
Qed.

Lemma malformed_body_after_auth_witness :
  execute_invoked
    (dispatch (registry_after sample_workflows)
       (post "webhook-bearer" [("authorization", "Bearer token456")] []
             (inr syntax_error))).1 = false.
Proof.
  apply (proj1 (malformed_body_after_auth (registry_after sample_workflows)
                  (post "webhook-bearer" [("authorization", "Bearer token456")] []
                        (inr syntax_error))
                  webhook_bearer syntax_error eq_refl eq_refl)).
Defined.

(** ** Validation *)

Lemma Execute_in_invoked c w p p' :
  Execute w p' (http_context w c) ∈ invoked_events c w p p'.
Proof. unfold invoked_events. set_solver. Qed.




(** ** The context handed to [execute] *)

(** C8 (as stated, refuted).  The definition [nameless] has no name;
    the context its [execute] receives has an undefined name, not the id. *)
Lemma missing_name_stays_undefined :
  ~ (forall ws c w p ctx,
        name (config w) = None ->
        Execute w p ctx ∈ (dispatch ws c).1 ->
        ctx_name ctx = Some (id (config w))).
Proof.
  intros Hclaim.
  pose (c := post "nameless" [] [] (inl VNull)).
  specialize (Hclaim (registry_after [nameless]) c nameless VNull
                (http_context nameless c) eq_refl).
  assert (Execute nameless VNull (http_context nameless c)
            ∈ (dispatch (registry_after [nameless]) c).1) as Hin.
  { assert (Run (registry_after [nameless]) c (invoked_events c nameless VNull VNull)
                (c_json (success_body (workflowId c) VUndefined) 200)) as HR.
    { apply run_success; try reflexivity. constructor. }
    rewrite (Run_sound _ _ _ _ HR). apply Execute_in_invoked. }
  specialize (Hclaim Hin). discriminate Hclaim.
Qed.

(** C8 (as amended).  The context passed to [execute] carries the
    definition's name as it is and the definition's id as workflowId: the
    name is not defaulted, a definition without a name gets an undefined
    context name. *)
Theorem context_name_verbatim ws c w p ctx :
  Execute w p ctx ∈ (dispatch ws c).1 ->
  ctx_name ctx = name (config w) /\ ctx_workflowId ctx = id (config w).
Proof.
  intros Hin.
  by destruct (execute_in_dispatch ws c w p ctx Hin) as (_ & _ & -> & _).
Qed.

Lemma context_name_verbatim_witness :
  ctx_name (http_context nameless (post "nameless" [] [] (inl VNull))) = None
  /\ ctx_workflowId (http_context nameless (post "nameless" [] [] (inl VNull)))
     = "nameless".
Proof.
  apply (context_name_verbatim (registry_after [nameless])
           (post "nameless" [] [] (inl VNull)) nameless VNull).
  vm_compute. repeat constructor.
Defined.

(** ** Scheduled firings *)

Lemma cron_callback_run w now s :
  cron_callback w now s
  = match execute w (cron_payload now) (cron_context w) with
    | Returns _ =>
        (log_events [cron_log w; Execute w (cron_payload now) (cron_context w)] s,
         Normal tt)
    | Throws e =>
        (log_events [cron_log w; Execute w (cron_payload now) (cron_context w)] s,
         Thrown e)
    | Rejects e =>
        (log_events [cron_log w; Execute w (cron_payload now) (cron_context w);
                     UnhandledRejection e] s,
         Normal tt)
    | Pending =>
        (log_events [cron_log w; Execute w (cron_payload now) (cron_context w)] s,
         Normal tt)
    end.
Proof.
  unfold cron_callback, console_log. run.
  destruct (execute w (cron_payload now) (cron_context w)); by run.
Qed.

(** C6.  Every firing logs, builds the payload [{source: "cron",
    timestamp: now}] and a context with empty params, query and headers, and
    calls [execute] with them at once: whatever the workflow's auth variant
    and schema, no request is read, no body decoded and no schema applied. *)
Theorem scheduled_firing_direct w now s :
  exists rest completion,
    cron_callback w now s
    = (log_events ([cron_log w; Execute w (cron_payload now) (cron_context w)] ++ rest) s,
       completion)
    /\ forallb (fun ev => negb (pipeline_step ev) && negb (is_execute ev)) rest = true
    /\ prop "source" (cron_payload now) = VStr "cron"
    /\ prop "timestamp" (cron_payload now) = VNum now
    /\ ctx_workflowId (cron_context w) = id (config w)
    /\ ctx_params (cron_context w) = ∅
    /\ ctx_query (cron_context w) = ∅
    /\ ctx_headers (cron_context w) = ∅.
Proof.
  rewrite cron_callback_run.
  destruct (execute w (cron_payload now) (cron_context w)) as [v|e|e|].
  - by exists [], (Normal tt).
  - by exists [], (Thrown e).
  - by exists [UnhandledRejection e], (Normal tt).
  - by exists [], (Normal tt).
Qed.

(** C1 (the code at the failing input).  A fault of [execute] in a
    firing is neither caught nor logged by the callback: a throw leaves the
    callback, a rejection is left as an unhandled rejection. *)
Theorem scheduled_fault_escapes w now s e :
  execute w (cron_payload now) (cron_context w) = Throws e
  \/ execute w (cron_payload now) (cron_context w) = Rejects e ->
  cron_callback w now s
  = match execute w (cron_payload now) (cron_context w) with
    | Throws _ =>
        (log_events [cron_log w; Execute w (cron_payload now) (cron_context w)] s,
         Thrown e)
    | _ =>
        (log_events [cron_log w; Execute w (cron_payload now) (cron_context w);
                     UnhandledRejection e] s,
         Normal tt)
    end.
Proof.
  intros Hfault. rewrite cron_callback_run.
  by destruct Hfault as [-> | ->].
Qed.

Lemma scheduled_fault_escapes_witness :
  cron_callback hourly_sync_rejecting 1700000000000 (initial_state empty_registry)
  = (log_events [cron_log hourly_sync_rejecting;
                 Execute hourly_sync_rejecting (cron_payload 1700000000000)
                         (cron_context hourly_sync_rejecting);
                 UnhandledRejection (VStr "sync failed")]
                (initial_state empty_registry),
     Normal tt).
Proof.
  apply (scheduled_fault_escapes hourly_sync_rejecting 1700000000000
           (initial_state empty_registry) (VStr "sync failed")).
  right. reflexivity.
Defined.

(** ** Loading and schedule binding *)

Lemma registry_get_set_eq k w r : registry_get (registry_set k w r) k = LWorkflow w.
Proof.
  unfold registry_get, registry_set. destruct (String.eqb k "__proto__"); simpl; [done|].
  by rewrite lookup_insert_eq.
Qed.

Lemma registry_get_set_ne k k' w w' r :
  k' <> k ->
  registry_get r k = LWorkflow w ->
  registry_get (registry_set k' w' r) k = LWorkflow w.
Proof.
  intros Hne. unfold registry_get, registry_set.
  destruct (String.eqb_spec k "__proto__") as [->|Hk];
    destruct (String.eqb_spec k' "__proto__") as [->|Hk']; simpl; try done.
  - destruct (own r !! k); [done|].
    destruct (inherited_from_object k); [done|].
    by destruct (proto r), (String.eqb k "config" || String.eqb k "execute").
  - by rewrite lookup_insert_ne.
Qed.

Lemma foldl_absorb_keeps k w post r :
  registry_get r k = LWorkflow w ->
  (forall w', w' ∈ post -> id (config w') <> k) ->
  registry_get (foldl absorb r post) k = LWorkflow w.
Proof.
  revert r. induction post as [|w' post IH]; intros r Hget Hpost; simpl; [done|].
  apply IH.
  - unfold absorb. destruct (loadable w'); [|done].
    apply registry_get_set_ne; [|done]. apply Hpost. by left.
  - intros w'' Hin. apply Hpost. by right.
Qed.

(** Last loaded wins: the read of an id gives the last taken definition
    with that id. *)
Lemma registry_of_last pre w post :
  loadable w = true ->
  (forall w', w' ∈ post -> id (config w') <> id (config w)) ->
  registry_get (registry_of (pre ++ w :: post)) (id (config w)) = LWorkflow w.
Proof.
  intros Hload Hpost. unfold registry_of. rewrite foldl_app. simpl.
  apply foldl_absorb_keeps; [|done].
  unfold absorb. rewrite Hload. apply registry_get_set_eq.
Qed.

Lemma task_in_scheduled_tasks defs w expr :
  w ∈ defs ->
  loadable w = true ->
  schedule (config w) = Some expr ->
  truthy expr = true ->
  {| expression := expr; bound := w |} ∈ scheduled_tasks defs.
Proof.
  intros Hin Hload Hsch Hexpr. unfold scheduled_tasks.
  apply list_elem_of_In, in_flat_map. exists w. split; [by apply list_elem_of_In|].
  rewrite Hload. unfold task_of. rewrite Hsch, Hexpr. by left.
Qed.

Lemma scheduled_tasks_app defs1 defs2 :
  scheduled_tasks (defs1 ++ defs2) = scheduled_tasks defs1 ++ scheduled_tasks defs2.
Proof. apply flat_map_app. Qed.

Section LoaderRuns.

Variable cron_reject : string -> option value.

Lemma Loaded_nil s s' :
  workflows s' = workflows s -> timers s' = timers s -> Loaded [] s s'.
Proof. intros Hw Ht. split; simpl; [done|]. by rewrite app_nil_r. Qed.

Lemma Loaded_app defs1 defs2 s1 s2 s3 :
  Loaded defs1 s1 s2 -> Loaded defs2 s2 s3 -> Loaded (defs1 ++ defs2) s1 s3.
Proof.
  intros [Hw1 Ht1] [Hw2 Ht2]. split.
  - by rewrite foldl_app, <- Hw1.
  - by rewrite scheduled_tasks_app, app_assoc, <- Ht1.
Qed.

Lemma accepted_app tasks1 tasks2 :
  accepted cron_reject (tasks1 ++ tasks2) ->
  accepted cron_reject tasks1 /\ accepted cron_reject tasks2.
Proof. unfold accepted. split; intros t Hin; apply H; set_solver. Qed.

Lemma bind_schedule_run w s :
  accepted cron_reject (task_of w) ->
  exists s', bind_schedule cron_reject w s = (s', Normal tt)
             /\ workflows s' = workflows s
             /\ timers s' = timers s ++ task_of w.
Proof.
  intros Hacc. unfold bind_schedule, task_of in *.
  destruct (schedule (config w)) as [expr|].
  2: { eexists. split; [reflexivity|]. split; [done|]. by rewrite app_nil_r. }
  destruct (truthy expr).
  2: { eexists. split; [reflexivity|]. split; [done|]. by rewrite app_nil_r. }
  assert (cron_reject expr = None) as Hexpr.
  { apply (Hacc {| expression := expr; bound := w |}). by left. }
  unfold cron_schedule. rewrite Hexpr. eexists. split; [reflexivity|]. by split.
Qed.

(** One turn of either loop on a definition. *)
Lemma take_definition_run w msg s :
  accepted cron_reject (if loadable w then task_of w else []) ->
  loadable w = true ->
  exists s', (assign_workflow w;; console_log msg;; bind_schedule cron_reject w) s
             = (s', Normal tt)
             /\ Loaded [w] s s'.
Proof.
  intros Hacc Hload. rewrite Hload in Hacc.
  destruct (bind_schedule_run w
              (log_events [ConsoleLog msg]
                 {| workflows := registry_set (id (config w)) w (workflows s);
                    timers := timers s; trace := trace s |}) Hacc)
    as (s' & Hrun & Hw & Ht).
  exists s'. split.
  - rewrite run_bind. unfold assign_workflow. rewrite run_get_workflows.
    unfold set_workflows, console_log. rewrite run_emit. exact Hrun.
  - split; simpl.
    + rewrite Hw. simpl. unfold absorb. by rewrite Hload.
    + rewrite Ht. simpl. by rewrite Hload, app_nil_r.
Qed.

Lemma register_static_run w s :
  accepted cron_reject (scheduled_tasks [w]) ->
  exists s', register_static cron_reject w s = (s', Normal tt) /\ Loaded [w] s s'.
Proof.
  unfold scheduled_tasks. simpl. rewrite app_nil_r. intros Hacc.
  unfold register_static. destruct (truthy (id (config w))) eqn:Hload.
  - by apply take_definition_run.
  - exists s. split; [done|]. split; simpl.
    + unfold absorb, loadable. by rewrite Hload.
    + unfold loadable. by rewrite Hload, app_nil_r.
Qed.

Lemma startMiqroCore_loop defs s :
  accepted cron_reject (scheduled_tasks defs) ->
  exists s', for_each defs (register_static cron_reject) s = (s', Normal tt)
             /\ Loaded defs s s'.
Proof.
  revert s. induction defs as [|w defs IH]; intros s Hacc.
  - exists s. split; [done|]. by apply Loaded_nil.
  - change (w :: defs) with ([w] ++ defs) in Hacc |- *.
    rewrite scheduled_tasks_app in Hacc. apply accepted_app in Hacc as [Hw Hdefs].
    destruct (register_static_run w s Hw) as (s1 & Hrun1 & Hl1).
    destruct (IH s1 Hdefs) as (s2 & Hrun2 & Hl2).
    exists s2. split; [|by eapply Loaded_app].
    simpl. rewrite run_bind, Hrun1. exact Hrun2.
Qed.

Lemma startMiqroCore_run defs s :
  accepted cron_reject (scheduled_tasks defs) ->
  exists s', startMiqroCore cron_reject defs s = (s', Normal tt)
             /\ workflows s' = registry_of defs
             /\ timers s' = timers s ++ scheduled_tasks defs.
Proof.
  intros Hacc.
  destruct (startMiqroCore_loop defs
              {| workflows := empty_registry; timers := timers s; trace := trace s |}
              Hacc) as (s' & Hrun & Hw & Ht).
  exists s'. split; [|by split].
  unfold startMiqroCore. by rewrite run_bind.
Qed.

End LoaderRuns.

Section LoadWorkflowsRuns.

Variable cron_reject : string -> option value.
Variable readdir : string -> list string + value.
Variable import_default : string -> string -> option Workflow + option value.

Lemma imported_cons dir file files :
  imported import_default dir (file :: files)
  = imported import_default dir [file] ++ imported import_default dir files.
Proof. unfold imported. simpl. by rewrite app_nil_r. Qed.

Lemma load_file_run dir file s :
  imports_succeed import_default dir [file] ->
  accepted cron_reject (scheduled_tasks (imported import_default dir [file])) ->
  exists s', load_file cron_reject import_default dir file s = (s', Normal tt)
             /\ Loaded (imported import_default dir [file]) s s'.
Proof.
  intros Himp Hacc. unfold imported in *. simpl in *. rewrite app_nil_r in *.
  unfold load_file, has_workflow_ext in *.
  destruct (endsWith file ".ts" || endsWith file ".js") eqn:Hext.
  2: { exists s. split; [done|]. by apply Loaded_nil. }
  destruct (Himp file) as [ow How]; [by left|done|].
  rewrite run_emit, How. rewrite How in Hacc.
  destruct ow as [w|].
  2: { eexists. split; [reflexivity|]. by apply Loaded_nil. }
  destruct (truthy (id (config w))) eqn:Hload.
  - unfold scheduled_tasks in Hacc. simpl in Hacc. rewrite app_nil_r in Hacc.
    destruct (take_definition_run cron_reject w
                ("[Miqro] Loaded workflow: " +:+ id (config w) +:+ " (" +:+ file +:+ ")")
                (log_events [Import dir file] s) Hacc Hload) as (s' & Hrun & Hl).
    exists s'. split; [exact Hrun|exact Hl].
  - eexists. split; [reflexivity|]. split; simpl.
    + unfold absorb, loadable. by rewrite Hload.
    + unfold scheduled_tasks, loadable. simpl. by rewrite Hload, app_nil_r.
Qed.

Lemma loadWorkflows_loop dir files s :
  imports_succeed import_default dir files ->
  accepted cron_reject (scheduled_tasks (imported import_default dir files)) ->
  exists s', for_each files (load_file cron_reject import_default dir) s = (s', Normal tt)
             /\ Loaded (imported import_default dir files) s s'.
Proof.
  revert s. induction files as [|file files IH]; intros s Himp Hacc.
  - exists s. split; [done|]. by apply Loaded_nil.
  - rewrite imported_cons in Hacc |- *.
    rewrite scheduled_tasks_app in Hacc.
    apply accepted_app in Hacc as [Hfile Hfiles].
    destruct (load_file_run dir file s) as (s1 & Hrun1 & Hl1); [|done|].
    { intros f Hf. apply Himp. apply list_elem_of_singleton in Hf as ->. by left. }
    destruct (IH s1) as (s2 & Hrun2 & Hl2); [|done|].
    { intros f Hf. apply Himp. by right. }
    exists s2. split; [|by eapply Loaded_app].
    simpl. rewrite run_bind, Hrun1. exact Hrun2.
Qed.

Lemma loadWorkflows_run dir files s :
  readdir dir = inl files ->
  imports_succeed import_default dir files ->
  accepted cron_reject (scheduled_tasks (imported import_default dir files)) ->
  exists s', loadWorkflows cron_reject readdir import_default dir s
             = (s', Normal (registry_of (imported import_default dir files)))
             /\ workflows s' = registry_of (imported import_default dir files)
             /\ timers s' = timers s
                              ++ scheduled_tasks (imported import_default dir files).
Proof.
  intros Hdir Himp Hacc.
  destruct (loadWorkflows_loop dir files
              (log_events [Readdir dir]
                 {| workflows := empty_registry; timers := timers s; trace := trace s |})
              Himp Hacc) as (s' & Hrun & Hw & Ht).
  exists s'. split; [|by split].
  unfold loadWorkflows. rewrite run_bind. unfold set_workflows.
  rewrite run_bind. unfold try_catch. rewrite run_emit, Hdir, Hrun.
  unfold get_workflows. by rewrite Hw.
Qed.

(** C9.  Both loaders register a timer for every definition they take
    that declares a schedule (the timer collaborator accepting the
    expressions), in load order and whatever comes later.  So when a
    definition [w1] is followed by a definition [w2] with the same id, both
    scheduled: both timers are bound, a firing of the first still calls the
    body of [w1], while the read of the id in the registry gives [w2] and
    HTTP dispatch to the id calls no other body than that of [w2]. *)
Theorem overwritten_definition_keeps_timer pre w1 mid w2 post e1 e2 :
  let defs := pre ++ w1 :: mid ++ w2 :: post in
  let t1 := {| expression := e1; bound := w1 |} in
  let t2 := {| expression := e2; bound := w2 |} in
  let both_bound (s s' : State) :=
    timers s' = timers s ++ scheduled_tasks defs
    /\ t1 ∈ timers s' /\ t2 ∈ timers s'
    /\ registry_get (workflows s') (id (config w2)) = LWorkflow w2
    /\ (forall c w p ctx,
           workflowId c = id (config w2) ->
           Execute w p ctx ∈ (dispatch (workflows s') c).1 -> w = w2) in
  accepted cron_reject (scheduled_tasks defs) ->
  id (config w1) = id (config w2) ->
  loadable w2 = true ->
  schedule (config w1) = Some e1 -> truthy e1 = true ->
  schedule (config w2) = Some e2 -> truthy e2 = true ->
  (forall w, w ∈ post -> id (config w) <> id (config w2)) ->
  (forall s, exists s',
        startMiqroCore cron_reject defs s = (s', Normal tt) /\ both_bound s s')
  /\ (forall dir files s,
         readdir dir = inl files ->
         imports_succeed import_default dir files ->
         imported import_default dir files = defs ->
         exists s',
           loadWorkflows cron_reject readdir import_default dir s
           = (s', Normal (workflows s'))
           /\ both_bound s s')
  /\ (forall now s,
         Execute w1 (cron_payload now) (cron_context w1) ∈ trace (fire t1 now s).1).
Proof.
  intros defs t1 t2 both_bound Hacc Hid Hload He1 Ht1 He2 Ht2 Hpost.
  assert (forall s s',
             workflows s' = registry_of defs ->
             timers s' = timers s ++ scheduled_tasks defs ->
             both_bound s s') as Hbound.
  { intros s s' Hw Ht. split; [done|].
    assert (t1 ∈ scheduled_tasks defs) as Hin1.
    { apply task_in_scheduled_tasks; try done.
      - unfold defs. set_solver.
      - unfold loadable in *. by rewrite Hid. }
    assert (t2 ∈ scheduled_tasks defs) as Hin2.
    { apply task_in_scheduled_tasks; try done. unfold defs. set_solver. }
    assert (registry_get (workflows s') (id (config w2)) = LWorkflow w2) as Hget.
    { rewrite Hw. unfold defs.
      change (pre ++ w1 :: mid ++ w2 :: post) with (pre ++ [w1] ++ mid ++ w2 :: post).
      rewrite !app_assoc. by apply registry_of_last. }
    rewrite Ht. repeat split; try (apply elem_of_app; by right); try done.
    intros c w p ctx Hc Hin.
    destruct (execute_in_dispatch _ _ _ _ _ Hin) as (Hget' & _).
    rewrite Hc in Hget'. congruence. }
  split; [|split].
  - intros s. destruct (startMiqroCore_run cron_reject defs s Hacc) as (s' & Hrun & Hw & Ht).
    exists s'. split; [done|]. by apply Hbound.
  - intros dir files s Hdir Himp Hdefs.
    destruct (loadWorkflows_run dir files s Hdir Himp) as (s' & Hrun & Hw & Ht).
    { by rewrite Hdefs. }
    rewrite Hdefs in *. exists s'. split; [by rewrite Hw|]. by apply Hbound.
  - intros now s. unfold fire. simpl bound. rewrite cron_callback_run.
    destruct (execute w1 (cron_payload now) (cron_context w1)); simpl; set_solver.
Qed.

End LoadWorkflowsRuns.

Lemma overwritten_definition_keeps_timer_witness :
  exists s',
    startMiqroCore cron_accepts_all [dup_first; dup_second] (initial_state empty_registry)
    = (s', Normal tt)
    /\ timers s' = [ {| expression := "* * * * *"; bound := dup_first |};
                     {| expression := "0 0 * * *"; bound := dup_second |} ]
    /\ registry_get (workflows s') "dup" = LWorkflow dup_second.
Proof.
  destruct (proj1 (overwritten_definition_keeps_timer
                     cron_accepts_all (fun _ => inl []) (fun _ _ => inl None)
                     [] dup_first [] dup_second [] "* * * * *" "0 0 * * *"
                     (fun t _ => eq_refl) eq_refl eq_refl eq_refl eq_refl eq_refl eq_refl
                     (fun w Hin => False_ind _ (proj1 (elem_of_nil w) Hin)))
             (initial_state empty_registry))
    as (s' & Hrun & Htimers & _ & _ & Hget & _).
  exists s'. split; [exact Hrun|]. split; [exact Htimers|exact Hget].
Defined.

(** ** More on the webhook handler *)

(** On every state the handler takes one of the runs, and leaves the
    state as it was but for the events: it returns the response of the
    run, or it stays suspended on the run that has none. *)
Lemma handler_run c s :
  exists evs r,
    Run (workflows s) c evs r
    /\ (webhook_handler c s = (log_events evs s, Returned r)
        /\ (forall w p ctx, Execute w p ctx ∈ evs -> execute w p ctx <> Pending)
        \/ webhook_handler c s = (log_events evs s, Suspended)
           /\ exists w p p', evs = invoked_events c w p p'
                             /\ execute w p' (http_context w c) = Pending).
Proof.
  assert (forall w0 p p0 w p' ctx,
             Execute w p' ctx ∈ invoked_events c w0 p p0 ->
             w = w0 /\ p' = p0 /\ ctx = http_context w0 c) as Hinv.
  { intros w0 p p0 w p' ctx. unfold invoked_events. rewrite !elem_of_app.
    intros [Hx%elem_of_admitted_events|[Hx%elem_of_validate_events|Hx]];
      [set_solver..|].
    apply elem_of_cons in Hx as [?|Hx]; [done|].
    apply list_elem_of_singleton in Hx. by injection Hx as <- <- <-. }
  destruct (registry_get (workflows s) (workflowId c)) as [|w|] eqn:Hget.
  - do 2 eexists. split; [by apply run_unknown|]. left.
    split; [by apply handler_unknown|]. set_solver.
  - destruct (authorized (auth (config w)) c) eqn:Hauth.
    2: { do 2 eexists. split; [by eapply run_denied|]. left.
         split; [by apply handler_denied|]. intros w' p ctx Hin.
         apply elem_of_app in Hin as [Hin|Hin%elem_of_auth_events]; set_solver. }
    destruct (req_body c) as [p|e] eqn:Hbody.
    2: { do 2 eexists. split; [by eapply run_malformed|]. left.
         split; [by apply handler_malformed|]. intros w' p ctx Hin.
         apply elem_of_app in Hin as [Hin%elem_of_admitted_events|Hin]; set_solver. }
    destruct (validated_cases (schema (config w)) p)
      as [[p' Hval]|(sc & details & Hsch & Hparse)].
    2: { destruct (serializable details) eqn:Hser.
         - do 2 eexists. split; [by eapply run_invalid|]. left.
           split; [by eapply handler_invalid|]. intros w' p0 ctx Hin.
           apply elem_of_app in Hin as [Hin%elem_of_admitted_events|Hin]; set_solver.
         - do 2 eexists. split; [by eapply run_opaque_details|]. left.
           split; [by eapply handler_opaque_details|]. intros w' p0 ctx Hin.
           apply elem_of_app in Hin as [Hin%elem_of_admitted_events|Hin]; set_solver. }
    destruct (execute w p' (http_context w c)) as [v|e|e|] eqn:Hexec.
    + destruct (serializable v) eqn:Hser.
      * do 2 eexists. split; [by eapply run_success|]. left.
        split; [by apply handler_success|]. intros w' p0 ctx Hin.
        destruct (Hinv _ _ _ _ _ _ Hin) as (-> & -> & ->). congruence.
      * do 2 eexists. split; [by eapply run_opaque_result|]. left.
        split; [by eapply handler_opaque_result|]. intros w' p0 ctx Hin.
        apply elem_of_app in Hin as [Hin|Hin]; [|set_solver].
        destruct (Hinv _ _ _ _ _ _ Hin) as (-> & -> & ->). congruence.
    + do 2 eexists. split; [eapply run_fault; eauto|]. left.
      split; [apply handler_fault; eauto|]. intros w' p0 ctx Hin.
      apply elem_of_app in Hin as [Hin|Hin]; [|set_solver].
      destruct (Hinv _ _ _ _ _ _ Hin) as (-> & -> & ->). congruence.
    + do 2 eexists. split; [eapply run_fault; eauto|]. left.
      split; [apply handler_fault; eauto|]. intros w' p0 ctx Hin.
      apply elem_of_app in Hin as [Hin|Hin]; [|set_solver].
      destruct (Hinv _ _ _ _ _ _ Hin) as (-> & -> & ->). congruence.
    + do 2 eexists. split; [by eapply run_pending|]. right.
      split; [by apply handler_pending|]. by exists w, p, p'.
  - do 2 eexists. split; [by apply run_foreign|]. left.
    split; [by apply handler_foreign|]. set_solver.
Qed.

Lemma Run_status ws c evs r :
  Run ws c evs r ->
  status r = 200 \/ status r = 400 \/ status r = 401 \/ status r = 404
  \/ r = no_response.
Proof. destruct 1; simpl; auto 6. Qed.

(** X1.  On a request whose body has arrived, the handler never throws
    and never touches the registry or the timers, and it answers exactly
    when the call of [execute] it makes, if it makes one, settles: then it
    returns a response with status 200, 400, 401 or 404, whatever the
    registry, the request and the workflow body do; while the promise of
    [execute] stays pending the handler stays suspended at its [await]
    (there is no timeout) and the request gets no response. *)
Theorem handler_answers_unless_pending c s :
  exists evs,
    (webhook_handler c s).1 = log_events evs s
    /\ workflows (webhook_handler c s).1 = workflows s
    /\ timers (webhook_handler c s).1 = timers s
    /\ ((exists r, (webhook_handler c s).2 = Returned r
                   /\ (status r = 200 \/ status r = 400
                       \/ status r = 401 \/ status r = 404))
        \/ (webhook_handler c s).2 = Suspended)
    /\ ((webhook_handler c s).2 = Suspended
        <-> exists w p ctx, Execute w p ctx ∈ evs /\ execute w p ctx = Pending).
Proof.
  destruct (handler_run c s)
    as (evs & r & HR & [[Hrun Hsettled]|[Hrun Hwait]]);
    rewrite Hrun; simpl.
  - exists evs. repeat split; try done.
    + left. exists r. split; [done|].
      destruct (Run_status _ _ _ _ HR) as [?|[?|[?|[?|Hnone]]]]; auto.
      subst r. exfalso. inversion HR; subst.
      assert (webhook_handler c s
              = (log_events (invoked_events c w p p') s, Suspended)) as Hsus.
      { by apply handler_pending. }
      congruence.
    + intros (w & p & ctx & Hin & Hexec). by destruct (Hsettled w p ctx Hin).
  - destruct Hwait as (w & p & p' & -> & Hexec).
    exists (invoked_events c w p p'). repeat split; try done; [by right|].
    intros _. exists w, p', (http_context w c). split; [|done].
    apply Execute_in_invoked.
Qed.

Lemma elem_of_invoked_events ev c w p p' :
  ev ∈ invoked_events c w p p' ->
  ev ∈ admitted_events w c \/ ev = SafeParse p \/ ev = ReqAll
  \/ ev = Execute w p' (http_context w c).
Proof.
  unfold invoked_events. rewrite !elem_of_app.
  intros [Hin|[Hin%elem_of_validate_events|Hin]]; [auto..|].
  apply elem_of_cons in Hin as [->|Hin]; [auto|].
  apply list_elem_of_singleton in Hin as ->. auto.
Qed.

Lemma execute_count_app evs1 evs2 :
  execute_count (evs1 ++ evs2) = (execute_count evs1 + execute_count evs2)%nat.
Proof. unfold execute_count. by rewrite List.filter_app, length_app. Qed.

Lemma execute_count_auth a c : execute_count (auth_events a c) = 0%nat.
Proof.
  destruct a; try done. unfold auth_events.
  by destruct (truthy_opt (req_headers c !! "x-api-key")).
Qed.

Lemma execute_count_admitted w c : execute_count (admitted_events w c) = 0%nat.
Proof.
  unfold admitted_events. by rewrite !execute_count_app, execute_count_auth.
Qed.

Lemma execute_count_invoked c w p p' : execute_count (invoked_events c w p p') = 1%nat.
Proof.
  unfold invoked_events. rewrite !execute_count_app, execute_count_admitted.
  by destruct (schema (config w)).
Qed.

(** X2.  One invocation calls [execute] at most once: exactly once when
    the answer is 200, not at all when it is 401 or 404. *)
Theorem execute_at_most_once ws c :
  (execute_count (dispatch ws c).1 <= 1)%nat
  /\ (status (dispatch ws c).2 = 200 -> execute_count (dispatch ws c).1 = 1%nat)
  /\ (status (dispatch ws c).2 = 401 \/ status (dispatch ws c).2 = 404 ->
      execute_count (dispatch ws c).1 = 0%nat).
Proof.
  destruct (Run_total ws c);
    rewrite ?execute_count_app, ?execute_count_invoked, ?execute_count_admitted,
      ?execute_count_auth; unfold execute_count; simpl; intuition lia.
Qed.

(** X3.  The handler writes to the error log exactly when it answers with
    the generic 400 (a body that does not decode, a fault of [execute], a
    response body that cannot be serialised, a read of the registry that
    gives no workflow): 404, 401, validation failures and successes log
    no error, and neither does a request that is left waiting. *)
Theorem error_logged_iff_generic_400 ws c :
  (exists msg e, ConsoleError msg e ∈ (dispatch ws c).1)
  <-> (dispatch ws c).2 = generic_400.
Proof.
  destruct (Run_total ws c)
    as [?|?|w|w e|w p sc details|w p p' v|w p p' e|w p sc details|w p p' v|w p p'].
  - split; [intros (msg & e & Hin); set_solver|done].
  - split; [done|]. intros _. exists "[Miqro Webhook Error]", type_error.
    repeat constructor.
  - split; [|done]. intros (msg & e & Hin).
    apply elem_of_app in Hin as [Hin|Hin%elem_of_auth_events]; set_solver.
  - split; [done|]. intros _. exists "[Miqro Webhook Error]", e.
    apply elem_of_app. right. by left.
  - split; [|done]. intros (msg & e & Hin).
    apply elem_of_app in Hin as [Hin%elem_of_admitted_events|Hin]; set_solver.
  - split; [|done]. intros (msg & e & Hin).
    apply elem_of_invoked_events in Hin as [Hin%elem_of_admitted_events|Hin]; set_solver.
  - split; [done|]. intros _. exists "[Miqro Webhook Error]", e.
    apply elem_of_app. right. by left.
  - split; [done|]. intros _. exists "[Miqro Webhook Error]", type_error.
    apply elem_of_app. right. right. by left.
  - split; [done|]. intros _. exists "[Miqro Webhook Error]", type_error.
    apply elem_of_app. right. by left.
  - split; [|done]. intros (msg & e & Hin).
    apply elem_of_invoked_events in Hin as [Hin%elem_of_admitted_events|Hin]; set_solver.
Qed.

(** X4.  For a workflow without schema, [execute] receives the body
    exactly as it was decoded. *)
Theorem no_schema_raw_payload ws c w p ctx :
  Execute w p ctx ∈ (dispatch ws c).1 ->
  schema (config w) = None ->
  req_body c = inl p.
Proof.
  intros Hin Hsch.
  destruct (execute_in_dispatch ws c w p ctx Hin) as (_ & _ & _ & p0 & Hbody & Hval).
  rewrite Hsch in Hval. by inversion Hval; subst.
Qed.

Lemma no_schema_raw_payload_witness :
  req_body (post "nameless" [] [] (inl (VStr "raw"))) = inl (VStr "raw").
Proof.
  apply (no_schema_raw_payload (registry_after [nameless])
           (post "nameless" [] [] (inl (VStr "raw"))) nameless (VStr "raw")
           (http_context nameless (post "nameless" [] [] (inl (VStr "raw"))))).
  - vm_compute. repeat constructor.
  - reflexivity.
Defined.

(** X5.  For a workflow with auth variant none, no combination of
    credentials (absent ones included) is answered with 401: every request
    goes on to the decode. *)
Theorem auth_none_never_401 ws c w :
  registry_get ws (workflowId c) = LWorkflow w ->
  auth (config w) = AuthNone ->
  status (dispatch ws c).2 <> 401
  /\ ReqJson ∈ (dispatch ws c).1
  /\ (forall n, ReqQuery n ∉ (dispatch ws c).1)
  /\ (forall n, ReqHeader n ∈ (dispatch ws c).1 -> n = "Authorization").
Proof.
  intros Hget Ha.
  assert (authorized (auth (config w)) c = true) as Hauth by by rewrite Ha.
  destruct (authorized_admitted ws c w Hget Hauth) as [Hst Hjson].
  repeat split; [done..| |].
  - intros n Hin.
    destruct (Run_total ws c) as [?|?|w0|w0|w0|w0|w0|w0|w0|w0]; try congruence;
      assert (w0 = w) as -> by congruence;
      unfold invoked_events, admitted_events in Hin; rewrite Ha in Hin;
      simpl in Hin; destruct (schema (config w)); set_solver.
  - intros n Hin.
    destruct (Run_total ws c) as [?|?|w0|w0|w0|w0|w0|w0|w0|w0]; try congruence;
      assert (w0 = w) as -> by congruence;
      unfold invoked_events, admitted_events in Hin; rewrite Ha in Hin;
      simpl in Hin; destruct (schema (config w)); set_solver.
Qed.

Lemma auth_none_never_401_witness :
  status (dispatch (registry_after sample_workflows)
            (post "webhook-no-auth" [("authorization", "Bearer nonsense")]
                  [("apiKey", "nonsense")] (inl (VObj [])))).2 <> 401.
Proof.
  apply (proj1 (auth_none_never_401 (registry_after sample_workflows)
                  (post "webhook-no-auth" [("authorization", "Bearer nonsense")]
                        [("apiKey", "nonsense")] (inl (VObj [])))
                  webhook_no_auth eq_refl eq_refl)).
Defined.

(** ** More on [startMiqroCore] *)

Lemma for_each_app {A} (l1 l2 : list A) (f : A -> M unit) s :
  for_each (l1 ++ l2) f s = (for_each l1 f;; for_each l2 f) s.
Proof.
  revert s. induction l1 as [|x l1 IH]; intros s; [done|].
  simpl. rewrite !run_bind. destruct (f x s) as [s1 [[]|r|e|]]; [|done..].
  rewrite IH. by rewrite run_bind.
Qed.

(** X6.  A definition whose id is the empty string is skipped as a
    whole: it is not registered, its schedule is not bound and nothing is
    logged, so the start runs as if the definition were not in the list. *)
Theorem idless_definition_ignored cron_reject pre w post s :
  id (config w) = "" ->
  startMiqroCore cron_reject (pre ++ w :: post) s
  = startMiqroCore cron_reject (pre ++ post) s.
Proof.
  intros Hid. unfold startMiqroCore. rewrite !run_bind.
  destruct (set_workflows empty_registry s) as [s0 [[]|r|e|]]; [|done..].
  rewrite !for_each_app, !run_bind.
  destruct (for_each pre (register_static cron_reject) s0) as [s1 [[]|r|e|]]; [|done..].
  simpl. rewrite run_bind. unfold register_static at 1. by rewrite Hid.
Qed.

Lemma idless_definition_ignored_witness :
  startMiqroCore cron_accepts_all
    ([dup_first] ++ {| config := mk_config "" "No id" AuthNone;
                       execute := fun _ _ => Returns VNull |} :: [dup_second])
    (initial_state empty_registry)
  = startMiqroCore cron_accepts_all ([dup_first] ++ [dup_second])
      (initial_state empty_registry).
Proof.
  apply (idless_definition_ignored cron_accepts_all [dup_first]
           {| config := mk_config "" "No id" AuthNone;
              execute := fun _ _ => Returns VNull |}
           [dup_second] (initial_state empty_registry)).
  reflexivity.
Defined.

Section StartOutcomes.

Variable cron_reject : string -> option value.

(** One turn of the loop on a definition whose expression the timer
    collaborator refuses: the definition is in the registry, no timer is
    bound, the error is thrown. *)
Lemma register_static_rejected w e err s :
  loadable w = true ->
  schedule (config w) = Some e ->
  truthy e = true ->
  cron_reject e = Some err ->
  exists s', register_static cron_reject w s = (s', Thrown err)
             /\ workflows s' = absorb (workflows s) w
             /\ timers s' = timers s.
Proof.
  intros Hload Hsch He Hrej. unfold register_static.
  unfold loadable in Hload. rewrite Hload.
  unfold assign_workflow, bind_schedule, cron_schedule.
  rewrite Hsch, He, Hrej. eexists. split; [reflexivity|]. split; [|done].
  simpl. unfold absorb, loadable. by rewrite Hload.
Qed.

Lemma register_static_cases w s :
  (exists s', register_static cron_reject w s = (s', Normal tt)
              /\ Loaded [w] s s' /\ accepted cron_reject (scheduled_tasks [w]))
  \/ (exists e err s',
         loadable w = true /\ schedule (config w) = Some e /\ truthy e = true
         /\ cron_reject e = Some err
         /\ register_static cron_reject w s = (s', Thrown err)
         /\ workflows s' = absorb (workflows s) w
         /\ timers s' = timers s).
Proof.
  assert (accepted cron_reject (scheduled_tasks [w]) ->
          exists s', register_static cron_reject w s = (s', Normal tt)
                     /\ Loaded [w] s s' /\ accepted cron_reject (scheduled_tasks [w]))
    as Hok.
  { intros Hacc. destruct (register_static_run cron_reject w s Hacc) as (s' & ? & ?).
    by exists s'. }
  assert (scheduled_tasks [w] = if loadable w then task_of w else []) as Hone.
  { unfold scheduled_tasks. simpl. by rewrite app_nil_r. }
  rewrite Hone in Hok |- *. clear Hone. unfold task_of in Hok |- *.
  destruct (loadable w) eqn:Hload.
  2: { left. apply Hok. by intros t ?%elem_of_nil. }
  destruct (schedule (config w)) as [e|] eqn:Hsch.
  2: { left. apply Hok. by intros t ?%elem_of_nil. }
  destruct (truthy e) eqn:He.
  2: { left. apply Hok. by intros t ?%elem_of_nil. }
  destruct (cron_reject e) as [err|] eqn:Hrej.
  - right. destruct (register_static_rejected w e err s) as (s' & ? & ? & ?); try done.
    by exists e, err, s'.
  - left. apply Hok. intros t Hin.
    apply list_elem_of_singleton in Hin as ->. done.
Qed.

(** The loop either goes through the whole list, or stops at the first
    definition whose expression is refused. *)
Lemma startMiqroCore_loop_cases defs s :
  (exists s', for_each defs (register_static cron_reject) s = (s', Normal tt)
              /\ Loaded defs s s' /\ accepted cron_reject (scheduled_tasks defs))
  \/ (exists pre w post e err s',
         defs = pre ++ w :: post
         /\ accepted cron_reject (scheduled_tasks pre)
         /\ loadable w = true /\ schedule (config w) = Some e /\ truthy e = true
         /\ cron_reject e = Some err
         /\ for_each defs (register_static cron_reject) s = (s', Thrown err)
         /\ workflows s' = foldl absorb (workflows s) (pre ++ [w])
         /\ timers s' = timers s ++ scheduled_tasks pre).
Proof.
  revert s. induction defs as [|w defs IH]; intros s.
  - left. exists s. split; [done|]. split; [by apply Loaded_nil|].
    by intros t ?%elem_of_nil.
  - destruct (register_static_cases w s)
      as [(s1 & Hrun1 & Hl1 & Hacc1)|(e & err & s1 & Hload & Hsch & He & Hrej & Hrun1 & Hw1 & Ht1)].
    + destruct (IH s1)
        as [(s2 & Hrun2 & Hl2 & Hacc2)
           |(pre & w' & post & e & err & s2 & -> & Hpre & Hload & Hsch & He & Hrej
             & Hrun2 & Hw2 & Ht2)].
      * left. exists s2. split; [|split].
        -- simpl. by rewrite run_bind, Hrun1.
        -- by apply (Loaded_app [w] defs s s1 s2).
        -- change (w :: defs) with ([w] ++ defs). rewrite scheduled_tasks_app.
           intros t [Hin|Hin]%elem_of_app; auto.
      * right. exists (w :: pre), w', post, e, err, s2.
        destruct Hl1 as [Hw1 Ht1].
        repeat split; try done.
        -- change (w :: pre) with ([w] ++ pre). rewrite scheduled_tasks_app.
           intros t [Hin|Hin]%elem_of_app; auto.
        -- simpl. by rewrite run_bind, Hrun1.
        -- rewrite Hw2, Hw1. done.
        -- rewrite Ht2, Ht1. change (w :: pre) with ([w] ++ pre).
           by rewrite scheduled_tasks_app, app_assoc.
    + right. exists [], w, defs, e, err, s1. repeat split; try done.
      * by intros t ?%elem_of_nil.
      * simpl. by rewrite run_bind, Hrun1.
      * simpl. by rewrite app_nil_r.
Qed.

(** Whatever the outcome, the registry and the new timers come from
    definitions of the list, and every new timer was accepted. *)
Lemma startMiqroCore_any_outcome defs s :
  exists done bound_defs,
    done ⊆ defs /\ bound_defs ⊆ defs
    /\ workflows (startMiqroCore cron_reject defs s).1 = registry_of done
    /\ timers (startMiqroCore cron_reject defs s).1
       = timers s ++ scheduled_tasks bound_defs
    /\ accepted cron_reject (scheduled_tasks bound_defs).
Proof.
  unfold startMiqroCore. rewrite run_bind. unfold set_workflows.
  destruct (startMiqroCore_loop_cases defs
              {| workflows := empty_registry; timers := timers s; trace := trace s |})
    as [(s' & -> & [Hw Ht] & Hacc)
       |(pre & w & post & e & err & s' & -> & Hpre & _ & _ & _ & _ & -> & Hw & Ht)].
  - by exists defs, defs.
  - exists (pre ++ [w]), pre. repeat split; try done; set_solver.
Qed.

End StartOutcomes.

Lemma foldl_absorb_own l r k w :
  own (foldl absorb r l) !! k = Some w ->
  own r !! k = Some w
  \/ (w ∈ l /\ id (config w) = k /\ loadable w = true /\ k <> "__proto__").
Proof.
  revert r. induction l as [|x l IH]; intros r Hk; simpl in Hk; [by left|].
  destruct (IH _ Hk) as [Hr|(Hin & ? & ? & ?)].
  2: { right. repeat split; try done. by right. }
  unfold absorb in Hr. destruct (loadable x) eqn:Hload; [|by left].
  unfold registry_set in Hr.
  destruct (String.eqb_spec (id (config x)) "__proto__") as [Hp|Hp]; simpl in Hr;
    [by left|].
  destruct (decide (id (config x) = k)) as [<-|Hne].
  - rewrite lookup_insert_eq in Hr. injection Hr as <-.
    right. repeat split; try done. by left.
  - rewrite lookup_insert_ne in Hr by done. by left.
Qed.

Lemma foldl_absorb_proto l r w :
  proto (foldl absorb r l) = Some w ->
  proto r = Some w \/ (w ∈ l /\ id (config w) = "__proto__" /\ loadable w = true).
Proof.
  revert r. induction l as [|x l IH]; intros r Hp; simpl in Hp; [by left|].
  destruct (IH _ Hp) as [Hr|(Hin & ? & ?)].
  2: { right. repeat split; try done. by right. }
  unfold absorb in Hr. destruct (loadable x) eqn:Hload; [|by left].
  unfold registry_set in Hr.
  destruct (String.eqb_spec (id (config x)) "__proto__") as [Hx|Hx]; simpl in Hr;
    [|by left].
  injection Hr as <-. right. repeat split; try done. by left.
Qed.

Lemma loadable_nonempty w : loadable w = true -> id (config w) <> "".
Proof. unfold loadable, truthy. intros Hl Hid. by rewrite Hid in Hl. Qed.

(** X7.  Whatever the list of definitions and however the start ends
    (also when [cron.schedule] throws), every own entry of the registry is
    stored under the id of its definition, which is non-empty, and is one of
    the given definitions. *)
Theorem registry_keyed_by_id cron_reject defs s k w :
  own (workflows (startMiqroCore cron_reject defs s).1) !! k = Some w ->
  id (config w) = k /\ k <> "" /\ k <> "__proto__" /\ w ∈ defs.
Proof.
  destruct (startMiqroCore_any_outcome cron_reject defs s)
    as (done & bound_defs & Hdone & _ & -> & _).
  intros Hk. apply foldl_absorb_own in Hk as [Hk|(Hin & Hid & Hload & Hp)]; [done|].
  repeat split; try done; [|by apply Hdone].
  rewrite <- Hid. by apply loadable_nonempty.
Qed.

Lemma registry_keyed_by_id_witness :
  id (config dup_second) = "dup" /\ "dup" <> "" /\ "dup" <> "__proto__"
  /\ dup_second ∈ [dup_first; dup_second].
Proof.
  apply (registry_keyed_by_id cron_accepts_all [dup_first; dup_second]
           (initial_state empty_registry) "dup" dup_second).
  vm_compute. reflexivity.
Defined.

Lemma elem_of_scheduled_tasks t defs :
  t ∈ scheduled_tasks defs ->
  bound t ∈ defs /\ loadable (bound t) = true
  /\ schedule (config (bound t)) = Some (expression t) /\ truthy (expression t) = true.
Proof.
  unfold scheduled_tasks. intros Hin%list_elem_of_In.
  apply in_flat_map in Hin as (w & Hw%list_elem_of_In & Hin).
  destruct (loadable w) eqn:Hload; [|done].
  unfold task_of in Hin. destruct (schedule (config w)) as [e|] eqn:Hsch; [|done].
  destruct (truthy e) eqn:He; [|done].
  destruct Hin as [<-|[]]. by simpl.
Qed.

(** X8.  Whatever the list of definitions and however the start ends,
    every timer it adds is bound to one of the given definitions, one with a
    non-empty id whose declared schedule is the non-empty expression of the
    timer, and that expression was accepted by [cron.schedule]: a definition
    without schedule, or with an empty one, never gets a timer. *)
Theorem timers_bound_to_scheduled_definitions cron_reject defs s t :
  t ∈ timers (startMiqroCore cron_reject defs s).1 ->
  t ∈ timers s
  \/ (bound t ∈ defs
      /\ id (config (bound t)) <> ""
      /\ schedule (config (bound t)) = Some (expression t)
      /\ expression t <> ""
      /\ cron_reject (expression t) = None).
Proof.
  destruct (startMiqroCore_any_outcome cron_reject defs s)
    as (done & bound_defs & _ & Hb & _ & -> & Hacc).
  intros [Hin|Hin]%elem_of_app; [by left|right].
  destruct (elem_of_scheduled_tasks _ _ Hin) as (Hbt & Hload & Hsch & He).
  repeat split; try done.
  - by apply Hb.
  - by apply loadable_nonempty.
  - unfold truthy in He. intros Heq. by rewrite Heq in He.
  - by apply Hacc.
Qed.

Lemma timers_bound_to_scheduled_definitions_witness :
  {| expression := "0 0 * * *"; bound := dup_second |} ∈ []
  \/ (dup_second ∈ [dup_first; dup_second]
      /\ id (config dup_second) <> ""
      /\ schedule (config dup_second) = Some "0 0 * * *"
      /\ "0 0 * * *" <> ""
      /\ cron_accepts_all "0 0 * * *" = None).
Proof.
  apply (timers_bound_to_scheduled_definitions cron_accepts_all [dup_first; dup_second]
           (initial_state empty_registry)
           {| expression := "0 0 * * *"; bound := dup_second |}).
  vm_compute. repeat constructor.
Defined.

(** X9.  When [cron.schedule] refuses the expression of a definition,
    [startMiqroCore] throws that error: the definitions before it are
    registered and scheduled, the definition itself is registered but has no
    timer, and the definitions after it are neither registered nor
    scheduled. *)
Theorem invalid_expression_aborts_start cron_reject pre w post e err s :
  accepted cron_reject (scheduled_tasks pre) ->
  id (config w) <> "" ->
  schedule (config w) = Some e ->
  e <> "" ->
  cron_reject e = Some err ->
  exists s',
    startMiqroCore cron_reject (pre ++ w :: post) s = (s', Thrown err)
    /\ workflows s' = registry_of (pre ++ [w])
    /\ timers s' = timers s ++ scheduled_tasks pre.
Proof.
  intros Hpre Hid Hsch He Hrej.
  assert (loadable w = true) as Hload.
  { unfold loadable, truthy. by destruct (String.eqb_spec (id (config w)) ""). }
  assert (truthy e = true) as Hte.
  { unfold truthy. by destruct (String.eqb_spec e ""). }
  destruct (startMiqroCore_loop cron_reject pre
              {| workflows := empty_registry; timers := timers s; trace := trace s |}
              Hpre) as (s1 & Hrun1 & Hw1 & Ht1).
  destruct (register_static_rejected cron_reject w e err s1 Hload Hsch Hte Hrej)
    as (s2 & Hrun2 & Hw2 & Ht2).
  exists s2. split; [|split].
  - unfold startMiqroCore. rewrite run_bind. unfold set_workflows.
    rewrite for_each_app, run_bind, Hrun1. simpl. by rewrite run_bind, Hrun2.
  - rewrite Hw2, Hw1. unfold registry_of. by rewrite foldl_app.
  - by rewrite Ht2, Ht1.
Qed.

Lemma invalid_expression_aborts_start_witness :
  exists s',
    startMiqroCore (fun e => if String.eqb e "* * * * *" then Some (VStr "invalid") else None)
      ([webhook_no_auth] ++ dup_first :: [dup_second]) (initial_state empty_registry)
    = (s', Thrown (VStr "invalid"))
    /\ workflows s' = registry_of ([webhook_no_auth] ++ [dup_first])
    /\ timers s' = timers (initial_state empty_registry) ++ scheduled_tasks [webhook_no_auth].
Proof.
  apply (invalid_expression_aborts_start
           (fun e => if String.eqb e "* * * * *" then Some (VStr "invalid") else None)
           [webhook_no_auth] dup_first [dup_second] "* * * * *" (VStr "invalid")
           (initial_state empty_registry)).
  - intros t Hin. vm_compute in Hin. by apply elem_of_nil in Hin.
  - discriminate.
  - reflexivity.
  - discriminate.
  - reflexivity.
Defined.

(** ** The registry a start leaves behind *)

Lemma registry_after_of defs : registry_after defs = registry_of defs.
Proof.
  unfold registry_after.
  destruct (startMiqroCore_run cron_accepts_all defs (initial_state empty_registry))
    as (s' & Hrun & Hw & _); [done|].
  by rewrite Hrun.
Qed.

Lemma registry_of_get defs k w :
  registry_get (registry_of defs) k = LWorkflow w ->
  id (config w) = k /\ w ∈ defs.
Proof.
  unfold registry_get, registry_of.
  destruct (String.eqb_spec k "__proto__") as [->|Hk].
  - destruct (proto (foldl absorb empty_registry defs)) as [w'|] eqn:Hp; [|done].
    intros [= ->]. by apply foldl_absorb_proto in Hp as [?|(? & ? & ?)].
  - destruct (own (foldl absorb empty_registry defs) !! k) as [w'|] eqn:Ho.
    + intros [= ->]. by apply foldl_absorb_own in Ho as [?|(? & ? & ? & ?)].
    + destruct (inherited_from_object k); [done|].
      by destruct (proto _), (String.eqb k "config" || String.eqb k "execute").
Qed.

(** X10.  On a registry built by [startMiqroCore], the context handed to
    [execute] mirrors the request: workflowId is the path segment that was
    requested, params holds just that segment, and query and headers are the
    request's; the body called belongs to one of the given definitions. *)
Theorem context_mirrors_request defs c w p ctx :
  Execute w p ctx ∈ (dispatch (registry_after defs) c).1 ->
  w ∈ defs
  /\ ctx_workflowId ctx = workflowId c
  /\ ctx_params ctx = {[ "workflowId" := workflowId c ]}
  /\ ctx_query ctx = req_query c
  /\ ctx_headers ctx = req_headers c.
Proof.
  intros Hin.
  destruct (execute_in_dispatch _ _ _ _ _ Hin) as (Hget & _ & -> & _).
  rewrite registry_after_of in Hget.
  destruct (registry_of_get defs _ _ Hget) as [Hid ?].
  repeat split; simpl; done.
Qed.

Lemma context_mirrors_request_witness :
  webhook_no_auth ∈ sample_workflows
  /\ ctx_workflowId (http_context webhook_no_auth
                       (post "webhook-no-auth" [("x-test", "header-val")] []
                             (inl (VObj []))))
     = "webhook-no-auth"
  /\ ctx_params (http_context webhook_no_auth
                   (post "webhook-no-auth" [("x-test", "header-val")] []
                         (inl (VObj []))))
     = {[ "workflowId" := "webhook-no-auth" ]}
  /\ ctx_query (http_context webhook_no_auth
                  (post "webhook-no-auth" [("x-test", "header-val")] []
                        (inl (VObj []))))
     = list_to_map []
  /\ ctx_headers (http_context webhook_no_auth
                    (post "webhook-no-auth" [("x-test", "header-val")] []
                          (inl (VObj []))))
     = list_to_map [("x-test", "header-val")].
Proof.
  apply (context_mirrors_request sample_workflows
           (post "webhook-no-auth" [("x-test", "header-val")] [] (inl (VObj [])))
           webhook_no_auth (VObj [])).
  vm_compute. repeat constructor.
Defined.

(** ** The health route *)

Lemma own_ids_cons w defs :
  own_ids (w :: defs)
  = if own_id (id (config w)) then id (config w) :: own_ids defs else own_ids defs.
Proof. reflexivity. Qed.

Lemma dom_foldl_absorb defs r :
  dom (own (foldl absorb r defs)) = dom (own r) ∪ list_to_set (own_ids defs).
Proof.
  revert r. induction defs as [|w defs IH]; intros r; simpl.
  { set_solver. }
  rewrite IH, own_ids_cons. unfold absorb, loadable, own_id, registry_set.
  destruct (truthy (id (config w))); simpl; [|done].
  destruct (String.eqb (id (config w)) "__proto__"); simpl; [done|].
  rewrite dom_insert_L. set_solver.
Qed.

Lemma size_list_to_set_le (l : list string) :
  (size (list_to_set l : gset string) <= length l)%nat.
Proof.
  induction l as [|x l IH]; [by rewrite list_to_set_nil, size_empty|].
  rewrite list_to_set_cons, size_union_alt, size_singleton. simpl length.
  assert (size (list_to_set l ∖ {[x]} : gset string) <= size (list_to_set l : gset string))%nat.
  { apply subseteq_size. set_solver. }
  lia.
Qed.

(** X11.  After a start on a list of definitions, GET /health answers 200
    with status "ok", the uptime, and as loadedWorkflows the number of
    distinct ids under which definitions were registered (empty ids and
    [__proto__] do not count): never more than the number of definitions,
    exactly that number when their ids are pairwise distinct, non-empty and
    not [__proto__], and the same for two lists with the same ids, whatever
    their schedules. *)
Theorem health_counts_distinct_ids defs uptime :
  let count := size (list_to_set (own_ids defs) : gset string) in
  health (registry_after defs) uptime
  = c_json (VObj [("status", VStr "ok"); ("uptime", uptime);
                  ("loadedWorkflows", VNum (Z.of_nat count))]) 200
  /\ (count <= length defs)%nat
  /\ (NoDup (map (fun w => id (config w)) defs) ->
      forallb (fun w => own_id (id (config w))) defs = true ->
      count = length defs)
  /\ (forall defs',
         map (fun w => id (config w)) defs' = map (fun w => id (config w)) defs ->
         health (registry_after defs') uptime = health (registry_after defs) uptime).
Proof.
  intros count.
  assert (forall l, health (registry_after l) uptime
                    = c_json (VObj [("status", VStr "ok"); ("uptime", uptime);
                                    ("loadedWorkflows",
                                     VNum (Z.of_nat (size (list_to_set (own_ids l)
                                                             : gset string))))]) 200)
    as Hhealth.
  { intros l. rewrite registry_after_of. unfold health, health_handler.
    rewrite run_get_workflows, end_return. simpl workflows.
    rewrite <- (size_dom (D:=gset string)). unfold registry_of.
    rewrite dom_foldl_absorb. simpl. rewrite dom_empty_L.
    by replace (∅ ∪ list_to_set (own_ids l)) with (list_to_set (own_ids l) : gset string)
      by set_solver. }
  split; [apply Hhealth|]. split; [|split].
  - etrans; [apply size_list_to_set_le|]. unfold own_ids.
    rewrite <- (length_map (fun w => id (config w)) defs). apply List.filter_length_le.
  - intros Hnd Hall. unfold count.
    assert (own_ids defs = map (fun w => id (config w)) defs) as ->.
    { unfold own_ids. clear Hnd count Hhealth.
      induction defs as [|w defs IH]; [done|]. simpl in *.
      apply andb_true_iff in Hall as [-> Hall]. by rewrite IH. }
    rewrite size_list_to_set by done. by rewrite length_map.
  - intros defs' Hids. rewrite !Hhealth. unfold own_ids. by rewrite Hids.
Qed.

(** ** More on [loadWorkflows] *)

Lemma Steady_mono (P Q : Event -> Prop) {A} (m : M A) :
  (forall ev, P ev -> Q ev) -> Steady P m -> Steady Q m.
Proof.
  intros HPQ Hm s. destruct (Hm s) as (s' & c & evs & ts & ? & ? & ? & HP & ?).
  exists s', c, evs, ts. repeat split; try done. by eapply Forall_impl.
Qed.

Lemma Steady_ret P {A} (a : A) : Steady P (mret a : M A).
Proof.
  intros s. exists s, (Normal a), [], []. rewrite !app_nil_r. by repeat split.
Qed.

Lemma Steady_throw P {A} e : Steady P (throw e : M A).
Proof.
  intros s. exists s, (Thrown e), [], []. rewrite !app_nil_r. by repeat split.
Qed.

Lemma Steady_emit (P : Event -> Prop) ev : P ev -> Steady P (emit ev).
Proof.
  intros HP s. exists (log_events [ev] s), (Normal tt), [ev], [].
  rewrite app_nil_r. repeat split; try done. by constructor.
Qed.

Lemma Steady_get_workflows P : Steady P get_workflows.
Proof.
  intros s. exists s, (Normal (workflows s)), [], []. rewrite !app_nil_r.
  by repeat split.
Qed.

Lemma Steady_set_workflows P r : Steady P (set_workflows r).
Proof.
  intros s. eexists _, (Normal tt), [], []. rewrite !app_nil_r.
  by repeat split.
Qed.

Lemma Steady_add_timer P t : Steady P (add_timer t).
Proof.
  intros s. eexists _, (Normal tt), [], [t]. rewrite app_nil_r.
  by repeat split.
Qed.

Lemma Steady_bind P {A B} (m : M A) (f : A -> M B) :
  Steady P m -> (forall a, Steady P (f a)) -> Steady P (m ≫= f).
Proof.
  intros Hm Hf s. destruct (Hm s) as (s1 & c1 & evs1 & ts1 & Hrun & Hc & Htr & HP & Hti).
  rewrite run_bind, Hrun. destruct c1 as [a|r|e|].
  - destruct (Hf a s1) as (s2 & c2 & evs2 & ts2 & Hrun2 & Hc2 & Htr2 & HP2 & Hti2).
    exists s2, c2, (evs1 ++ evs2), (ts1 ++ ts2). rewrite Hrun2, Htr2, Htr, Hti2, Hti.
    rewrite !app_assoc. repeat split; try done. by apply Forall_app.
  - by destruct (Hc r).
  - by exists s1, (Thrown e), evs1, ts1.
  - by exists s1, Suspended, evs1, ts1.
Qed.

Lemma Steady_suspend P {A} : Steady P (suspend : M A).
Proof.
  intros s. exists s, Suspended, [], []. rewrite !app_nil_r. by repeat split.
Qed.

Lemma Steady_try_catch P {A} (blk : M A) (handler : value -> M A) :
  Steady P blk -> (forall e, Steady P (handler e)) -> Steady P (try_catch blk handler).
Proof.
  intros Hm Hh s. destruct (Hm s) as (s1 & c1 & evs1 & ts1 & Hrun & Hc & Htr & HP & Hti).
  unfold try_catch. rewrite Hrun. destruct c1 as [a|r|e|].
  - by exists s1, (Normal a), evs1, ts1.
  - by destruct (Hc r).
  - destruct (Hh e s1) as (s2 & c2 & evs2 & ts2 & Hrun2 & Hc2 & Htr2 & HP2 & Hti2).
    exists s2, c2, (evs1 ++ evs2), (ts1 ++ ts2). rewrite Hrun2, Htr2, Htr, Hti2, Hti.
    rewrite !app_assoc. repeat split; try done. by apply Forall_app.
  - by exists s1, Suspended, evs1, ts1.
Qed.

Lemma Settles_bind {A B} (m : M A) (f : A -> M B) :
  Settles m -> (forall a, Settles (f a)) -> Settles (m ≫= f).
Proof.
  intros Hm Hf s. rewrite run_bind. specialize (Hm s).
  destruct (m s) as [s1 [a|r|e|]]; simpl in *; try done. apply Hf.
Qed.

Lemma for_each_suspended {A} (l : list A) (f : A -> M unit) s :
  (for_each l f s).2 = Suspended -> exists x s0, x ∈ l /\ (f x s0).2 = Suspended.
Proof.
  revert s. induction l as [|x l IH]; intros s; simpl; [done|].
  rewrite run_bind. destruct (f x s) as [s1 [[]|r|e|]] eqn:Hrun; simpl; try done.
  - intros (y & s0 & Hy & Hs)%IH. exists y, s0. split; [by right|done].
  - intros _. exists x, s. split; [by left|]. by rewrite Hrun.
Qed.

Lemma Steady_for_each P {A} (l : list A) (f : A -> M unit) :
  (forall x, x ∈ l -> Steady P (f x)) -> Steady P (for_each l f).
Proof.
  induction l as [|x l IH]; intros Hf; simpl.
  - apply Steady_ret.
  - apply Steady_bind; [apply Hf; by left|]. intros _. apply IH.
    intros y Hy. apply Hf. by right.
Qed.

Section LoadOutcomes.

Variable cron_reject : string -> option value.
Variable readdir : string -> list string + value.
Variable import_default : string -> string -> option Workflow + option value.

Lemma Steady_bind_schedule P w :
  (forall msg, P (ConsoleLog msg)) -> Steady P (bind_schedule cron_reject w).
Proof.
  intros Hlog. unfold bind_schedule.
  destruct (schedule (config w)) as [e|]; [|apply Steady_ret].
  destruct (truthy e); [|apply Steady_ret].
  apply Steady_bind; [|intros _; by apply Steady_emit].
  unfold cron_schedule. destruct (cron_reject e); [apply Steady_throw|apply Steady_add_timer].
Qed.

Lemma Steady_load_file dir files file :
  readdir dir = inl files ->
  file ∈ files ->
  Steady (load_event readdir dir) (load_file cron_reject import_default dir file).
Proof.
  intros Hdir Hin. unfold load_file.
  destruct (endsWith file ".ts" || endsWith file ".js") eqn:Hext; [|apply Steady_ret].
  apply Steady_bind.
  { apply Steady_emit. do 3 right. by exists file, files. }
  intros _. destruct (import_default dir file) as [[w|]|[e|]];
    [|apply Steady_ret|apply Steady_throw|apply Steady_suspend].
  destruct (truthy (id (config w))); [|apply Steady_ret].
  apply Steady_bind.
  { unfold assign_workflow. apply Steady_bind; [apply Steady_get_workflows|].
    intros r. apply Steady_set_workflows. }
  intros _. apply Steady_bind.
  { apply Steady_emit. left. by eexists. }
  intros _. apply Steady_bind_schedule. intros msg. left. by eexists.
Qed.

Lemma Steady_load_block dir :
  Steady (load_event readdir dir)
    (try_catch
       (emit (Readdir dir);;
        match readdir dir with
        | inr e => throw e
        | inl files => for_each files (load_file cron_reject import_default dir)
        end)
       (fun error =>
          console_error ("[Miqro] Error loading workflows from " +:+ dir +:+ ":") error)).
Proof.
  apply Steady_try_catch.
  - apply Steady_bind; [apply Steady_emit; by do 2 right; left|].
    intros _. destruct (readdir dir) as [files|e] eqn:Hdir; [|apply Steady_throw].
    apply Steady_for_each. intros file Hin. by eapply Steady_load_file.
  - intros e. apply Steady_emit. right. left. by do 2 eexists.
Qed.

Lemma Settles_bind_schedule w : Settles (bind_schedule cron_reject w).
Proof.
  unfold bind_schedule. destruct (schedule (config w)) as [e|]; [|done].
  destruct (truthy e); [|done].
  apply Settles_bind; [|done]. unfold cron_schedule. by destruct (cron_reject e).
Qed.

(** The loop body waits only for the import. *)
Lemma load_file_suspended dir file s :
  (load_file cron_reject import_default dir file s).2 = Suspended ->
  has_workflow_ext file = true /\ import_default dir file = inr None.
Proof.
  unfold load_file, has_workflow_ext.
  destruct (endsWith file ".ts" || endsWith file ".js"); [|done].
  rewrite run_emit.
  destruct (import_default dir file) as [[w|]|[e|]]; try done.
  destruct (truthy (id (config w))); [|done].
  intros Hsus. exfalso. revert Hsus.
  apply Settles_bind; [done|]. intros _.
  apply Settles_bind; [done|]. intros _. apply Settles_bind_schedule.
Qed.

(** The block in the [try] never throws past the [catch]: it completes,
    or it waits for an import of a listed workflow file that never
    settles. *)
Lemma load_block_outcome dir s :
  exists s',
    let blk :=
      try_catch
        (emit (Readdir dir);;
         match readdir dir with
         | inr e => throw e
         | inl files => for_each files (load_file cron_reject import_default dir)
         end)
        (fun error =>
           console_error ("[Miqro] Error loading workflows from " +:+ dir +:+ ":") error) in
    blk s = (s', Normal tt)
    \/ (blk s = (s', Suspended)
        /\ exists files file,
             readdir dir = inl files /\ file ∈ files
             /\ has_workflow_ext file = true /\ import_default dir file = inr None).
Proof.
  cbv zeta. unfold try_catch.
  destruct ((emit (Readdir dir);;
             match readdir dir with
             | inr e => throw e
             | inl files => for_each files (load_file cron_reject import_default dir)
             end) s) as [s1 [[]|r|e|]] eqn:Hrun.
  - exists s1. by left.
  - assert (Steady (load_event readdir dir)
              (emit (Readdir dir);;
               match readdir dir with
               | inr e => throw e
               | inl files => for_each files (load_file cron_reject import_default dir)
               end)) as Hst.
    { apply Steady_bind; [apply Steady_emit; by do 2 right; left|].
      intros _. destruct (readdir dir) as [files|e] eqn:Hdir; [|apply Steady_throw].
      apply Steady_for_each. intros file Hin. by eapply Steady_load_file. }
    destruct (Hst s) as (s' & c & evs & ts & Hrun' & Hc & _).
    rewrite Hrun in Hrun'. injection Hrun' as <- <-. by destruct (Hc r).
  - eexists. left. reflexivity.
  - exists s1. right. split; [done|].
    rewrite run_emit in Hrun. destruct (readdir dir) as [files|e]; [|done].
    assert ((for_each files (load_file cron_reject import_default dir)
               (log_events [Readdir dir] s)).2 = Suspended) as Hsus by by rewrite Hrun.
    apply for_each_suspended in Hsus as (file & s0 & Hin & Hsus).
    apply load_file_suspended in Hsus as [Hext Himp].
    by exists files, file.
Qed.

(** X12.  Once [readdir] has answered (with a listing or an error),
    [loadWorkflows] never throws, whatever the listing, the imports and
    [cron.schedule] do, and it only adds timers and events.  It returns
    the registry as built up to that point whenever the imports it awaits
    settle; it stays suspended (there is no timeout) only at the import of
    a listed workflow file whose promise never settles. *)
Theorem loadWorkflows_never_throws dir s :
  let run := loadWorkflows cron_reject readdir import_default dir s in
  (exists evs ts, trace run.1 = trace s ++ evs /\ timers run.1 = timers s ++ ts)
  /\ (run.2 = Normal (workflows run.1) \/ run.2 = Suspended)
  /\ (run.2 = Suspended ->
      exists files file,
        readdir dir = inl files /\ file ∈ files
        /\ has_workflow_ext file = true /\ import_default dir file = inr None)
  /\ ((forall file, import_default dir file <> inr None) ->
      run = (run.1, Normal (workflows run.1))).
Proof.
  cbv zeta. unfold loadWorkflows. rewrite run_bind. unfold set_workflows.
  set (s0 := {| workflows := empty_registry; timers := timers s; trace := trace s |}).
  destruct (Steady_load_block dir s0) as (s'' & c & evs & ts & Hrun' & _ & Htr & _ & Hti).
  destruct (load_block_outcome dir s0) as (s' & [Hrun|[Hrun Hwait]]); cbv zeta in Hrun;
    rewrite Hrun in Hrun'; injection Hrun' as <- <-; rewrite run_bind, Hrun; simpl.
  - repeat split; try done; [by exists evs, ts|by left].
  - repeat split; try done; [by exists evs, ts|by right|].
    intros Hall. destruct Hwait as (files & file & _ & _ & _ & Himp).
    by destruct (Hall file).
Qed.

(** X13.  The only files [loadWorkflows] imports are files of the
    directory listing whose name ends in [.ts] or [.js]. *)
Theorem only_workflow_files_imported dir s d file :
  Import d file ∈ trace (loadWorkflows cron_reject readdir import_default dir s).1 ->
  Import d file ∈ trace s
  \/ (d = dir /\ has_workflow_ext file = true
      /\ exists files, readdir dir = inl files /\ file ∈ files).
Proof.
  unfold loadWorkflows. rewrite run_bind. unfold set_workflows.
  set (s0 := {| workflows := empty_registry; timers := timers s; trace := trace s |}).
  destruct (Steady_load_block dir s0) as (s'' & c & evs & ts & Hrun' & _ & Htr & HP & _).
  assert (trace (loadWorkflows cron_reject readdir import_default dir s).1
          = trace s ++ evs) as Htrace.
  { unfold loadWorkflows. rewrite run_bind. unfold set_workflows. fold s0.
    rewrite run_bind, Hrun'. by destruct c. }
  unfold loadWorkflows in Htrace. rewrite run_bind in Htrace.
  unfold set_workflows in Htrace. fold s0 in Htrace. rewrite Htrace.
  intros [Hin|Hin]%elem_of_app; [by left|right].
  rewrite Forall_forall in HP. destruct (HP _ Hin)
    as [(? & ?)|[(? & ? & ?)|[?|(f & files & [= -> ->] & ? & ? & ?)]]]; try done.
  eauto.
Qed.

(** X14.  When the directory cannot be listed, [loadWorkflows] logs the
    error and returns an empty registry; no file is imported and no timer is
    bound. *)
Theorem unreadable_directory_loads_nothing dir e s :
  readdir dir = inr e ->
  loadWorkflows cron_reject readdir import_default dir s
  = ({| workflows := empty_registry;
        timers := timers s;
        trace := trace s
                 ++ [Readdir dir;
                     ConsoleError ("[Miqro] Error loading workflows from " +:+ dir +:+ ":")
                                  e] |},
     Normal empty_registry).
Proof.
  intros Hdir. unfold loadWorkflows, try_catch, console_error, set_workflows.
  rewrite !run_bind. simpl. rewrite Hdir. simpl.
  unfold log_events. simpl. by rewrite <- app_assoc.
Qed.

End LoadOutcomes.

Lemma only_workflow_files_imported_witness :
  Import "/app/workflows" "scheduled.js" ∈ trace (initial_state empty_registry)
  \/ ("/app/workflows" = "/app/workflows" /\ has_workflow_ext "scheduled.js" = true
      /\ exists files, sample_readdir "/app/workflows" = inl files
                        /\ "scheduled.js" ∈ files).
Proof.
  apply (only_workflow_files_imported cron_accepts_all sample_readdir sample_import
           "/app/workflows" (initial_state empty_registry)).
  vm_compute. repeat constructor.
Defined.

Lemma unreadable_directory_loads_nothing_witness :
  (loadWorkflows cron_accepts_all sample_readdir sample_import "/missing"
     (initial_state empty_registry)).2 = Normal empty_registry.
Proof.
  rewrite (unreadable_directory_loads_nothing cron_accepts_all sample_readdir
             sample_import "/missing" (VObj [("code", VStr "ENOENT")])
             (initial_state empty_registry)).
  - reflexivity.
  - reflexivity.
Defined.

Section LoadAborts.

Variable cron_reject : string -> option value.
Variable readdir : string -> list string + value.
Variable import_default : string -> string -> option Workflow + option value.



End LoadAborts.



(** ** File names *)

Lemma append_cons a s t : String a s +:+ t = String a (s +:+ t).
Proof. reflexivity. Qed.

Lemma append_nil_r s : s +:+ "" = s.
Proof. induction s as [|a s IH]; [done|]. by rewrite append_cons, IH. Qed.

Lemma append_assoc s t u : (s +:+ t) +:+ u = s +:+ (t +:+ u).
Proof. induction s as [|a s IH]; [done|]. by rewrite !append_cons, IH. Qed.

Lemma rev_app_spec s t : String.rev_app s t = String.rev s +:+ t.
Proof.
  unfold String.rev. revert t. induction s as [|a s IH]; intros t; [done|].
  simpl. rewrite (IH (String a t)), (IH (String a "")).
  by rewrite append_assoc.
Qed.

Lemma rev_cons a s : String.rev (String a s) = String.rev s +:+ String a "".
Proof. unfold String.rev at 1. simpl. apply rev_app_spec. Qed.

Lemma rev_append s t : String.rev (s +:+ t) = String.rev t +:+ String.rev s.
Proof.
  induction s as [|a s IH]; [by rewrite append_nil_r|].
  by rewrite append_cons, !rev_cons, IH, append_assoc.
Qed.

Lemma rev_involutive s : String.rev (String.rev s) = s.
Proof.
  induction s as [|a s IH]; [done|].
  by rewrite rev_cons, rev_append, IH.
Qed.

Lemma endsWith_spec s suf : endsWith s suf = true <-> exists stem, s = stem +:+ suf.
Proof.
  unfold endsWith. change (String.prefix (String.rev suf) (String.rev s))
    with (startsWith (String.rev s) (String.rev suf)).
  rewrite startsWith_spec. split.
  - intros [r Hr]. exists (String.rev r).
    rewrite <- (rev_involutive s), Hr, rev_append. by rewrite rev_involutive.
  - intros [stem ->]. exists (String.rev stem). apply rev_append.
Qed.

(** X17.  The loaders of workflow files take a directory entry exactly
    when its name is some stem, possibly empty, followed by [.ts] or by
    [.js]. *)
Theorem workflow_file_names file :
  has_workflow_ext file = true
  <-> exists stem, file = stem +:+ ".ts" \/ file = stem +:+ ".js".
Proof.
  unfold has_workflow_ext. rewrite orb_true_iff, !endsWith_spec. split.
  - intros [[stem ->]|[stem ->]]; exists stem; auto.
  - intros [stem [->| ->]]; [left|right]; by exists stem.
Qed.

(** ** [startMiqro] *)

Lemma foldl_absorb_plain l r :
  (forall w, w ∈ l -> loadable w = true /\ id (config w) <> "__proto__") ->
  foldl absorb r l
  = {| own := foldl (fun m w => <[id (config w) := w]> m) (own r) l;
       proto := proto r |}.
Proof.
  revert r. induction l as [|w l IH]; intros r Hl; simpl; [by destruct r|].
  destruct (Hl w) as [Hload Hid]; [by left|].
  rewrite IH by (intros w' ?; apply Hl; by right).
  unfold absorb, registry_set. rewrite Hload.
  by destruct (String.eqb_spec (id (config w)) "__proto__").
Qed.

Lemma foldl_insert_list_to_map (l : list Workflow) (m : gmap string Workflow) :
  foldl (fun m w => <[id (config w) := w]> m) m l
  = list_to_map (reverse ((fun w => (id (config w), w)) <$> l)) ∪ m.
Proof.
  revert m. induction l as [|w l IH]; intros m.
  { simpl. by rewrite (left_id_L ∅ (∪)). }
  rewrite fmap_cons, reverse_cons, list_to_map_app. simpl foldl. rewrite IH.
  rewrite <- (assoc_L (∪)). f_equal.
  rewrite list_to_map_cons, list_to_map_nil.
  by rewrite insert_union_singleton_l, insert_empty.
Qed.

(** Handing the own values of a registry built by a loader to
    [startMiqroCore] rebuilds its own entries; a prototype is lost. *)
Lemma registry_of_own_values object_values defs :
  enumerates_own object_values ->
  own (registry_of (object_values (registry_of defs))) = own (registry_of defs)
  /\ proto (registry_of (object_values (registry_of defs))) = None
  /\ (forall w, w ∈ object_values (registry_of defs) ->
                w ∈ defs /\ loadable w = true
                /\ own (registry_of defs) !! id (config w) = Some w).
Proof.
  intros Henum. set (r := registry_of defs).
  assert (forall k w, own r !! k = Some w ->
                      w ∈ defs /\ id (config w) = k /\ loadable w = true
                      /\ k <> "__proto__") as Hinv.
  { intros k w Hk. by apply foldl_absorb_own in Hk as [?|?]. }
  assert (forall w, w ∈ object_values r ->
                    w ∈ defs /\ loadable w = true /\ id (config w) <> "__proto__"
                    /\ own r !! id (config w) = Some w) as Hvals.
  { intros w Hw. rewrite (Henum r) in Hw.
    apply list_elem_of_fmap in Hw as ([k w'] & -> & Hkw).
    apply elem_of_map_to_list in Hkw. simpl.
    destruct (Hinv _ _ Hkw) as (? & <- & ? & ?). done. }
  assert (registry_of (object_values r)
          = {| own := own r; proto := None |}) as ->.
  { unfold registry_of. rewrite foldl_absorb_plain.
    2: { intros w Hw. by destruct (Hvals w Hw) as (? & ? & ? & ?). }
    simpl. f_equal. rewrite foldl_insert_list_to_map, (right_id_L ∅ (∪)).
    rewrite <- (list_to_map_to_list (own r)) at 1.
    symmetry. apply list_to_map_proper; [apply NoDup_fst_map_to_list|].
    rewrite reverse_Permutation, (Henum r).
    rewrite <- list_fmap_compose.
    rewrite <- (list_fmap_id (map_to_list (own r))) at 1.
    match goal with |- ?a ≡ₚ ?b => assert (a = b) as ->; [|done] end.
    apply list_fmap_ext. intros i [k w] Hi. simpl.
    apply list_elem_of_lookup_2, elem_of_map_to_list in Hi.
    by destruct (Hinv _ _ Hi) as (_ & -> & _). }
  repeat split; try done; by destruct (Hvals w) as (? & ? & ? & ?).
Qed.

Section StartMiqroRuns.

Variable cron_reject : string -> option value.
Variable readdir : string -> list string + value.
Variable import_default : string -> string -> option Workflow + option value.
Variable object_values : Registry -> list Workflow.
Hypothesis Henum : enumerates_own object_values.

Lemma startMiqro_run dir files s :
  readdir dir = inl files ->
  imports_succeed import_default dir files ->
  accepted cron_reject (scheduled_tasks (imported import_default dir files)) ->
  exists s',
    startMiqro cron_reject readdir import_default object_values dir s = (s', Normal tt)
    /\ workflows s'
       = registry_of (object_values (registry_of (imported import_default dir files)))
    /\ timers s'
       = timers s ++ scheduled_tasks (imported import_default dir files)
           ++ scheduled_tasks
                (object_values (registry_of (imported import_default dir files))).
Proof.
  intros Hdir Himp Hacc. set (defs := imported import_default dir files) in *.
  destruct (loadWorkflows_run cron_reject readdir import_default dir files s Hdir Himp Hacc)
    as (s1 & Hrun1 & Hw1 & Ht1).
  destruct (registry_of_own_values object_values defs Henum) as (_ & _ & Hkept).
  assert (accepted cron_reject (scheduled_tasks (object_values (registry_of defs))))
    as Hacc2.
  { intros [e w] Hin.
    destruct (elem_of_scheduled_tasks _ _ Hin) as (Hb & Hload & Hsch & He).
    simpl in *. destruct (Hkept w Hb) as (Hdefs & _ & _).
    apply (Hacc {| expression := e; bound := w |}). by apply task_in_scheduled_tasks. }
  destruct (startMiqroCore_run cron_reject (object_values (registry_of defs)) s1 Hacc2)
    as (s2 & Hrun2 & Hw2 & Ht2).
  exists s2. split; [|split].
  - unfold startMiqro. by rewrite run_bind, Hrun1.
  - done.
  - by rewrite Ht2, Ht1, app_assoc.
Qed.

(** X18.  [startMiqro] binds every schedule twice: once while the
    directory is loaded and once more when the loaded definitions go through
    [startMiqroCore].  Every scheduled definition that is registered under
    its id therefore has two timers, and each tick of its expression calls
    its body twice. *)
Theorem startMiqro_binds_twice dir files s :
  readdir dir = inl files ->
  imports_succeed import_default dir files ->
  accepted cron_reject (scheduled_tasks (imported import_default dir files)) ->
  exists s' first second,
    startMiqro cron_reject readdir import_default object_values dir s = (s', Normal tt)
    /\ timers s' = timers s ++ first ++ second
    /\ first = scheduled_tasks (imported import_default dir files)
    /\ forall k w e,
         own (workflows s') !! k = Some w ->
         schedule (config w) = Some e ->
         e <> "" ->
         {| expression := e; bound := w |} ∈ first
         /\ {| expression := e; bound := w |} ∈ second.
Proof.
  intros Hdir Himp Hacc. set (defs := imported import_default dir files) in *.
  destruct (startMiqro_run dir files s Hdir Himp Hacc) as (s' & Hrun & Hw & Ht).
  fold defs in Hw, Ht.
  destruct (registry_of_own_values object_values defs Henum) as (Hown & _ & Hkept).
  exists s', (scheduled_tasks defs), (scheduled_tasks (object_values (registry_of defs))).
  repeat split; try done.
  - rewrite Hw, Hown in H. apply foldl_absorb_own in H as [?|(Hin & _ & Hload & _)]; [done|].
    apply task_in_scheduled_tasks; try done.
    unfold truthy. by destruct (String.eqb_spec e "").
  - rewrite Hw, Hown in H.
    assert (w ∈ object_values (registry_of defs)) as Hin.
    { rewrite (Henum (registry_of defs)).
      apply list_elem_of_fmap. exists (k, w). split; [done|].
      by apply elem_of_map_to_list. }
    destruct (Hkept w Hin) as (_ & Hload & _).
    apply task_in_scheduled_tasks; try done.
    unfold truthy. by destruct (String.eqb_spec e "").
Qed.

(** X19.  After [startMiqro] the served registry has the own entries the
    directory load produced and the plain prototype.  It reads as the
    registry of the load does, except when a definition with id
    [__proto__] was loaded, and then exactly at the keys [__proto__] (a
    foreign value instead of that definition, which the load had installed
    as prototype and scheduled) and [config] and [execute] where no
    definition has that id ([undefined] instead of a member of that
    definition). *)
Theorem startMiqro_registry dir files s :
  readdir dir = inl files ->
  imports_succeed import_default dir files ->
  accepted cron_reject (scheduled_tasks (imported import_default dir files)) ->
  let loaded := registry_of (imported import_default dir files) in
  exists s',
    startMiqro cron_reject readdir import_default object_values dir s = (s', Normal tt)
    /\ workflows s' = {| own := own loaded; proto := None |}
    /\ (forall k,
          registry_get (workflows s') k <> registry_get loaded k
          <-> exists w, proto loaded = Some w
                        /\ (k = "__proto__"
                            \/ ((k = "config" \/ k = "execute")
                                /\ own loaded !! k = None)))
    /\ (forall w, proto loaded = Some w ->
                  registry_get loaded "__proto__" = LWorkflow w
                  /\ registry_get (workflows s') "__proto__" = LForeign
                  /\ forall k, (k = "config" \/ k = "execute") ->
                               own loaded !! k = None ->
                               registry_get loaded k = LForeign
                               /\ registry_get (workflows s') k = LUndefined).
Proof.
  intros Hdir Himp Hacc loaded.
  destruct (startMiqro_run dir files s Hdir Himp Hacc) as (s' & Hrun & Hw & Ht).
  fold loaded in Hw.
  destruct (registry_of_own_values object_values (imported import_default dir files) Henum)
    as (Hown & Hproto & _).
  fold loaded in Hown, Hproto.
  assert (workflows s' = {| own := own loaded; proto := None |}) as Hserved.
  { rewrite Hw. destruct (registry_of (object_values loaded)) as [o pr].
    simpl in *. by subst. }
  assert (forall w k, proto loaded = Some w ->
                      (k = "config" \/ k = "execute") -> own loaded !! k = None ->
                      registry_get loaded k = LForeign
                      /\ registry_get (workflows s') k = LUndefined) as Hmembers.
  { intros w k Hp Hk Hnone. rewrite Hserved. unfold registry_get. simpl.
    rewrite Hnone, Hp. by destruct Hk as [-> | ->]. }
  exists s'. split; [done|]. split; [done|]. split.
  - intros k. split.
    + intros Hne. destruct (proto loaded) as [w|] eqn:Hp.
      * exists w. split; [done|].
        destruct (String.eqb_spec k "__proto__") as [->|Hk]; [by left|right].
        revert Hne. rewrite Hserved. unfold registry_get. simpl.
        rewrite (proj2 (String.eqb_neq _ _) Hk), Hp.
        destruct (own loaded !! k); [done|].
        destruct (inherited_from_object k); [done|].
        destruct (String.eqb_spec k "config") as [->|?]; [auto|].
        destruct (String.eqb_spec k "execute") as [->|?]; [auto|]. done.
      * exfalso. apply Hne. rewrite Hserved. f_equal.
        destruct loaded as [o pr]. simpl in *. by subst.
    + intros (w & Hp & [->|[Hk Hnone]]).
      * rewrite Hserved. unfold registry_get. simpl. by rewrite Hp.
      * destruct (Hmembers w k Hp Hk Hnone) as [-> ->]. done.
  - intros w Hp. split; [|split].
    + unfold registry_get. simpl. by rewrite Hp.
    + by rewrite Hserved.
    + intros k. by apply (Hmembers w).
Qed.

End StartMiqroRuns.

Lemma sample_imports_succeed :
  imports_succeed sample_import "/app/workflows" ["sample.ts"; "notes.md"; "scheduled.js"].
Proof.
  intros file _ _. unfold sample_import.
  destruct (String.eqb file "sample.ts"); [by eexists|].
  destruct (String.eqb file "scheduled.js"); by eexists.
Qed.

Lemma startMiqro_binds_twice_witness :
  exists s' first second,
    startMiqro cron_accepts_all sample_readdir sample_import own_values "/app/workflows"
      (initial_state empty_registry) = (s', Normal tt)
    /\ timers s' = timers (initial_state empty_registry) ++ first ++ second
    /\ first = scheduled_tasks (imported sample_import "/app/workflows"
                                  ["sample.ts"; "notes.md"; "scheduled.js"])
    /\ forall k w e,
         own (workflows s') !! k = Some w ->
         schedule (config w) = Some e ->
         e <> "" ->
         {| expression := e; bound := w |} ∈ first
         /\ {| expression := e; bound := w |} ∈ second.
Proof.
  apply (startMiqro_binds_twice cron_accepts_all sample_readdir sample_import own_values
           (fun r => reflexivity _) "/app/workflows"
           ["sample.ts"; "notes.md"; "scheduled.js"] (initial_state empty_registry)).
  - reflexivity.
  - exact sample_imports_succeed.
  - intros t _. reflexivity.
Defined.

Lemma startMiqro_registry_witness :
  exists s',
    startMiqro cron_accepts_all sample_readdir sample_import own_values "/app/workflows"
      (initial_state empty_registry) = (s', Normal tt)
    /\ workflows s'
       = {| own := own (registry_of (imported sample_import "/app/workflows"
                                      ["sample.ts"; "notes.md"; "scheduled.js"]));
            proto := None |}.
Proof.
  destruct (startMiqro_registry cron_accepts_all sample_readdir sample_import own_values
              (fun r => reflexivity _) "/app/workflows"
              ["sample.ts"; "notes.md"; "scheduled.js"] (initial_state empty_registry)
              eq_refl sample_imports_succeed (fun t _ => eq_refl))
    as (s' & Hrun & Hserved & _).
  exists s'. split; [exact Hrun|exact Hserved].
Defined.

(** The count of the test: three definitions with distinct ids. *)
Lemma health_counts_distinct_ids_witness :
  health (registry_after sample_workflows) (VNum 12)
  = c_json (VObj [("status", VStr "ok"); ("uptime", VNum 12);
                  ("loadedWorkflows", VNum 3)]) 200.
Proof.
  rewrite (proj1 (health_counts_distinct_ids sample_workflows (VNum 12))).
  vm_compute. reflexivity.
Defined.

(** ** The command line *)

Lemma cli_bind_run {A B} (m : Cli A) (f : A -> Cli B) w :
  (m ≫= f) w
  = match m w with
    | (w', Done a) => f a w'
    | (w', Exit code) => (w', Exit code)
    | (w', Raise e) => (w', Raise e)
    | (w', Stalled) => (w', Stalled)
    end.
Proof. reflexivity. Qed.

Lemma with_fs_same w : with_fs (fs w) w = w.
Proof. by destruct w. Qed.

Lemma Adds_bind {A B} (m : Cli A) (f : A -> Cli B) :
  Adds m -> (forall a, Adds (f a)) -> Adds (m ≫= f).
Proof.
  intros Hm Hf w. destruct (Hm w) as (f1 & o1 & Hrun & Hsub & Hne & Hns).
  rewrite cli_bind_run, Hrun. destruct o1 as [a|code|e|].
  - destruct (Hf a (with_fs f1 w)) as (f2 & o2 & Hrun2 & Hsub2 & Hne2 & Hns2).
    exists f2, o2. rewrite Hrun2. repeat split; try done.
    simpl in Hsub2. by etrans.
  - by destruct (Hne code).
  - by exists f1, (Raise e).
  - done.
Qed.

Lemma Adds_unless_exists path (create : gmap string Node -> string -> option value) (n : Node) :
  Adds (unless_exists path
          (f ← get_fs;
           match create f path with
           | Some e => cli_raise e
           | None => put_fs (<[path := n]> f)
           end)).
Proof.
  intros w. unfold unless_exists. rewrite cli_bind_run. unfold get_fs at 1.
  destruct (existsSync (fs w) path) eqn:Hex.
  - exists (fs w), (Done tt). by rewrite with_fs_same.
  - rewrite cli_bind_run. unfold get_fs.
    destruct (create (fs w) path) as [e|].
    + exists (fs w), (Raise e). by rewrite with_fs_same.
    + exists (<[path := n]> (fs w)), (Done tt). repeat split; try done.
      apply insert_subseteq. apply bool_decide_eq_false in Hex.
      by apply eq_None_not_Some.
Qed.

Lemma Adds_scaffold E : Adds (scaffold E).
Proof.
  unfold scaffold.
  repeat (apply Adds_bind; [|intros _]);
    first [apply (Adds_unless_exists _ (write_error E))
          |apply (Adds_unless_exists _ (mkdir_error E))].
Qed.

(** A step of [scaffold] that does not fail leaves its path in place. *)
Lemma unless_exists_creates path (create : gmap string Node -> string -> option value) n w :
  (forall f, create f path = None) ->
  exists f',
    unless_exists path
      (f ← get_fs;
       match create f path with
       | Some e => cli_raise e
       | None => put_fs (<[path := n]> f)
       end) w = (with_fs f' w, Done tt)
    /\ fs w ⊆ f' /\ is_Some (f' !! path).
Proof.
  intros Hok. unfold unless_exists. rewrite cli_bind_run. unfold get_fs at 1.
  destruct (existsSync (fs w) path) eqn:Hex.
  - exists (fs w). rewrite with_fs_same. repeat split; try done.
    by apply bool_decide_eq_true in Hex.
  - rewrite cli_bind_run. unfold get_fs. rewrite Hok.
    exists (<[path := n]> (fs w)). repeat split.
    + apply insert_subseteq. apply bool_decide_eq_false in Hex.
      by apply eq_None_not_Some.
    + rewrite lookup_insert_eq. by eexists.
Qed.

Lemma scaffold_creates E w :
  (forall f p, write_error E f p = None) ->
  (forall f p, mkdir_error E f p = None) ->
  exists f',
    scaffold E w = (with_fs f' w, Done tt)
    /\ fs w ⊆ f'
    /\ is_Some (f' !! resolve E (cwd E) "workflows")
    /\ is_Some (f' !! resolve E (resolve E (cwd E) "workflows") "sample.ts")
    /\ is_Some (f' !! resolve E (cwd E) "package.json")
    /\ is_Some (f' !! resolve E (cwd E) "tsconfig.json").
Proof.
  intros Hw Hm. unfold scaffold.
  destruct (unless_exists_creates (resolve E (cwd E) "workflows") (mkdir_error E)
              Directory w) as (f1 & R1 & S1 & I1); [done|].
  destruct (unless_exists_creates (resolve E (resolve E (cwd E) "workflows") "sample.ts")
              (write_error E) (File sampleWorkflow) (with_fs f1 w))
    as (f2 & R2 & S2 & I2); [done|].
  destruct (unless_exists_creates (resolve E (cwd E) "package.json")
              (write_error E) (File pkgContent) (with_fs f2 (with_fs f1 w)))
    as (f3 & R3 & S3 & I3); [done|].
  destruct (unless_exists_creates (resolve E (cwd E) "tsconfig.json")
              (write_error E) (File tsconfigContent)
              (with_fs f3 (with_fs f2 (with_fs f1 w))))
    as (f4 & R4 & S4 & I4); [done|].
  simpl in S2, S3, S4.
  exists f4. unfold mkdir, writeFile.
  rewrite cli_bind_run, R1, cli_bind_run, R2, cli_bind_run, R3, R4.
  repeat split; try done.
  - by etrans; [|etrans; [|etrans]].
  - destruct I1 as [n I1]. exists n.
    eapply lookup_weaken; [exact I1|]. by etrans; [|etrans].
  - destruct I2 as [n I2]. exists n.
    eapply lookup_weaken; [exact I2|]. by etrans.
  - destruct I3 as [n I3]. exists n. by eapply lookup_weaken.
Qed.

Lemma with_out_same w : with_out (out w ++ []) w = w.
Proof. destruct w. unfold with_out. simpl. by rewrite app_nil_r. Qed.

Lemma init_existing E w :
  is_Some (fs w !! resolve E (cwd E) "miqro.config.ts") ->
  init E w = (with_out (out w ++ init_refusal) w, Exit 1).
Proof.
  intros Hcfg. unfold init. rewrite cli_bind_run. unfold get_fs.
  rewrite cli_bind_run. unfold existsSync. by rewrite bool_decide_eq_true_2.
Qed.

Lemma init_fresh E w :
  fs w !! resolve E (cwd E) "miqro.config.ts" = None ->
  init E w
  = match write_error E (fs w) (resolve E (cwd E) "miqro.config.ts") with
    | Some e => (w, Raise e)
    | None =>
        match scaffold E (with_fs (<[resolve E (cwd E) "miqro.config.ts"
                                     := File defaultConfig]> (fs w)) w) with
        | (w1, Done _) => (with_out (out w1 ++ init_report) w1, Exit 0)
        | (w1, Exit code) => (w1, Exit code)
        | (w1, Raise e) => (w1, Raise e)
        | (w1, Stalled) => (w1, Stalled)
        end
    end.
Proof.
  intros Hcfg. unfold init. rewrite cli_bind_run. unfold get_fs at 1.
  rewrite cli_bind_run. unfold existsSync.
  rewrite bool_decide_eq_false_2 by (rewrite Hcfg; by intros [? ?]).
  unfold mret at 1, Cli_ret at 1. rewrite cli_bind_run.
  unfold writeFile at 1. rewrite cli_bind_run. unfold get_fs.
  destruct (write_error E (fs w) _) as [e|]; [done|].
  unfold put_fs. rewrite cli_bind_run.
  destruct (scaffold E _) as [w1 [[]|code|e|]]; try done.
  unfold init_report, cli_log, print, process_exit, with_out.
  rewrite !cli_bind_run. simpl. by rewrite <- !app_assoc.
Qed.

(** Every run of [init]. *)
Lemma cli_init E rest w :
  exists f' o code,
    cli E (inl ("init" :: rest)) w = (with_out (out w ++ o) (with_fs f' w), Exit code)
    /\ fs w ⊆ f'
    /\ (code = 0 \/ code = 1)
    /\ (code = 0 ->
        fs w !! resolve E (cwd E) "miqro.config.ts" = None
        /\ f' !! resolve E (cwd E) "miqro.config.ts" = Some (File defaultConfig)
        /\ o = init_report).
Proof.
  unfold cli, cli_catch, main. change (command_of ("init" :: rest)) with "init".
  change (String.eqb "init" "init") with true. cbv beta iota zeta.
  rewrite cli_bind_run.
  destruct (fs w !! resolve E (cwd E) "miqro.config.ts") as [n|] eqn:Hcfg.
  - rewrite init_existing by (rewrite Hcfg; by eexists).
    exists (fs w), init_refusal, 1. rewrite with_fs_same.
    repeat split; try done; auto.
  - rewrite init_fresh by done.
    destruct (write_error E (fs w) _) as [e|].
    + exists (fs w), (fatal e), 1. rewrite with_fs_same.
      repeat split; try done; auto.
    + destruct (Adds_scaffold E (with_fs (<[resolve E (cwd E) "miqro.config.ts"
                                             := File defaultConfig]> (fs w)) w))
        as (f' & o & Hrun & Hsub & Hne & Hns).
      rewrite Hrun. simpl in Hsub.
      assert (fs w ⊆ f') as Hsub'.
      { etrans; [|exact Hsub]. by apply insert_subseteq. }
      destruct o as [[]|code|e|].
      * exists f', init_report, 0. repeat split; try done; auto.
        eapply lookup_weaken; [|exact Hsub]. by rewrite lookup_insert_eq.
      * by destruct (Hne code).
      * exists f', (fatal e), 1. repeat split; try done; auto.
      * done.
Qed.

(** X20.  Whatever the file system answers, [init] overwrites nothing:
    every entry that was there before the run is there unchanged after
    it.  The run spawns, serves and builds nothing, loads no workflow, and
    always ends the process, with code 0 or 1 (it never goes on to load a
    configuration). *)
Theorem init_never_overwrites (E : Env) (rest : list string) (w : World) :
  let w' := (cli E (inl ("init" :: rest)) w).1 in
  (forall p n, fs w !! p = Some n -> fs w' !! p = Some n)
  /\ actions w' = actions w
  /\ app w' = app w
  /\ ((cli E (inl ("init" :: rest)) w).2 = Exit 0
      \/ (cli E (inl ("init" :: rest)) w).2 = Exit 1).
Proof.
  destruct (cli_init E rest w) as (f' & o & code & Hrun & Hsub & Hcode & _).
  rewrite Hrun. simpl. repeat split; try done.
  - intros p n Hp. by eapply lookup_weaken.
  - destruct Hcode as [-> | ->]; auto.
Qed.

(** X21.  When [miqro.config.ts] already exists in the current directory,
    [init] prints the refusal on the error stream and exits with code 1,
    and the file system is left exactly as it was. *)
Theorem init_refuses_existing_config (E : Env) (rest : list string) (w : World) :
  is_Some (fs w !! resolve E (cwd E) "miqro.config.ts") ->
  cli E (inl ("init" :: rest)) w = (with_out (out w ++ init_refusal) w, Exit 1).
Proof.
  intros Hcfg. unfold cli, cli_catch, main.
  change (command_of ("init" :: rest)) with "init".
  change (String.eqb "init" "init") with true. cbv beta iota zeta.
  rewrite cli_bind_run. by rewrite init_existing.
Qed.

Lemma init_refuses_existing_config_witness :
  cli sample_env (inl ["init"])
    (with_fs {[ "/proj/miqro.config.ts" := File "export default {};" ]} empty_world)
  = (with_out init_refusal
       (with_fs {[ "/proj/miqro.config.ts" := File "export default {};" ]} empty_world),
     Exit 1).
Proof.
  apply (init_refuses_existing_config sample_env []
           (with_fs {[ "/proj/miqro.config.ts" := File "export default {};" ]} empty_world)).
  vm_compute. by eexists.
Defined.

(** X22.  In a directory without [miqro.config.ts], when no write and no
    [mkdir] fails, [init] exits with code 0 after writing the default
    configuration; the workflows directory, the sample workflow,
    [package.json] and [tsconfig.json] all exist afterwards, and the four
    lines of the report are printed. *)
Theorem init_scaffolds (E : Env) (rest : list string) (w : World) :
  fs w !! resolve E (cwd E) "miqro.config.ts" = None ->
  (forall f p, write_error E f p = None) ->
  (forall f p, mkdir_error E f p = None) ->
  let w' := (cli E (inl ("init" :: rest)) w).1 in
  (cli E (inl ("init" :: rest)) w).2 = Exit 0
  /\ fs w' !! resolve E (cwd E) "miqro.config.ts" = Some (File defaultConfig)
  /\ is_Some (fs w' !! resolve E (cwd E) "workflows")
  /\ is_Some (fs w' !! resolve E (resolve E (cwd E) "workflows") "sample.ts")
  /\ is_Some (fs w' !! resolve E (cwd E) "package.json")
  /\ is_Some (fs w' !! resolve E (cwd E) "tsconfig.json")
  /\ out w' = out w ++ init_report.
Proof.
  intros Hcfg Hw Hm. unfold cli, cli_catch, main.
  change (command_of ("init" :: rest)) with "init".
  change (String.eqb "init" "init") with true. cbv beta iota zeta.
  rewrite cli_bind_run, init_fresh, Hw by done.
  destruct (scaffold_creates E (with_fs (<[resolve E (cwd E) "miqro.config.ts"
                                           := File defaultConfig]> (fs w)) w) Hw Hm)
    as (f' & Hrun & Hsub & I1 & I2 & I3 & I4).
  rewrite Hrun. simpl. simpl in Hsub. repeat split; try done.
  eapply lookup_weaken; [|exact Hsub]. by rewrite lookup_insert_eq.
Qed.

Lemma init_scaffolds_witness :
  let w' := (cli sample_env (inl ["init"]) empty_world).1 in
  (cli sample_env (inl ["init"]) empty_world).2 = Exit 0
  /\ fs w' !! "/proj/miqro.config.ts" = Some (File defaultConfig)
  /\ is_Some (fs w' !! "/proj/workflows")
  /\ is_Some (fs w' !! "/proj/workflows/sample.ts")
  /\ is_Some (fs w' !! "/proj/package.json")
  /\ is_Some (fs w' !! "/proj/tsconfig.json")
  /\ out w' = init_report.
Proof.
  apply (init_scaffolds sample_env [] empty_world); reflexivity.
Defined.

(** X23.  A second [init] after a successful one is refused: when a run
    of [init] exits with code 0, running [init] again on the world it
    leaves exits with code 1 and changes nothing but the error stream. *)
Theorem init_twice (E : Env) (rest rest' : list string) (w : World) :
  (cli E (inl ("init" :: rest)) w).2 = Exit 0 ->
  let w1 := (cli E (inl ("init" :: rest)) w).1 in
  cli E (inl ("init" :: rest')) w1 = (with_out (out w1 ++ init_refusal) w1, Exit 1).
Proof.
  intros Hexit.
  destruct (cli_init E rest w) as (f' & o & code & Hrun & Hsub & Hcode & Hzero).
  rewrite Hrun in *. simpl in *. injection Hexit as ->.
  destruct Hzero as (_ & Hcfg & _); [done|].
  unfold cli, cli_catch, main.
  change (command_of ("init" :: rest')) with "init".
  change (String.eqb "init" "init") with true. cbv beta iota zeta.
  rewrite cli_bind_run. rewrite init_existing; [done|].
  simpl. rewrite Hcfg. by eexists.
Qed.

Lemma init_twice_witness :
  let w1 := (cli sample_env (inl ["init"]) empty_world).1 in
  cli sample_env (inl ["init"]) w1 = (with_out (out w1 ++ init_refusal) w1, Exit 1).
Proof.
  apply (init_twice sample_env [] [] empty_world). reflexivity.
Defined.

Lemma command_not_init pos :
  command_of pos <> "init" -> String.eqb (command_of pos) "init" = false.
Proof. intros Hne. by apply String.eqb_neq. Qed.

Ltac cli_ret := unfold mret at 1, Cli_ret at 1; cbv beta iota.

(** After the configuration is loaded, is the default export of its
    module and names a directory, a run is the run of the command. *)
Lemma cli_configured E pos w m cfg d :
  command_of pos <> "init" ->
  import_config E (resolve E (cwd E) "miqro.config.ts") = inl m ->
  mod_default m = Some cfg ->
  workflowsDir cfg = Some d ->
  truthy d = true ->
  cli E (inl pos) w
  = cli_catch (run_command E (command_of pos) cfg (resolve E (cwd E) d)) on_fatal w.
Proof.
  intros Hcmd Himp Hdef Hdir Hd. unfold cli, cli_catch, main. cbv zeta.
  rewrite (command_not_init _ Hcmd), cli_bind_run. cli_ret.
  rewrite cli_bind_run. unfold load_config. rewrite Himp. cli_ret.
  unfold default_or_module. rewrite Hdef.
  rewrite cli_bind_run. unfold require_workflowsDir. rewrite Hdir, Hd. cli_ret.
  rewrite cli_bind_run. unfold assign_workflowsDir. rewrite Hdef. cli_ret.
  reflexivity.
Qed.

Lemma configuration_some E cfg dir :
  configuration E = Some (cfg, dir) ->
  exists m d,
    import_config E (resolve E (cwd E) "miqro.config.ts") = inl m
    /\ mod_default m = Some cfg
    /\ workflowsDir cfg = Some d
    /\ truthy d = true
    /\ dir = resolve E (cwd E) d.
Proof.
  unfold configuration.
  destruct (import_config E _) as [m|e]; [|done].
  destruct (mod_default m) as [cfg'|] eqn:Hdef; [|done].
  destruct (workflowsDir cfg') as [d|] eqn:Hdir; [|done].
  destruct (truthy d) eqn:Hd; [|done].
  intros [= <- <-]. by exists m, d.
Qed.

Lemma cli_unloadable E pos w e :
  command_of pos <> "init" ->
  import_config E (resolve E (cwd E) "miqro.config.ts") = inr e ->
  cli E (inl pos) w
  = (with_out (out w ++ config_unloadable (resolve E (cwd E) "miqro.config.ts")) w,
     Exit 1).
Proof.
  intros Hcmd Himp. unfold cli, cli_catch, main. cbv zeta.
  rewrite (command_not_init _ Hcmd), cli_bind_run. cli_ret.
  rewrite cli_bind_run. unfold load_config. rewrite Himp.
  unfold config_unloadable, cli_error, print, process_exit, with_out.
  rewrite !cli_bind_run. simpl. by rewrite <- !app_assoc.
Qed.

Lemma cli_incomplete E pos w m :
  command_of pos <> "init" ->
  import_config E (resolve E (cwd E) "miqro.config.ts") = inl m ->
  truthy_opt (workflowsDir (default_or_module m)) = false ->
  cli E (inl pos) w = (with_out (out w ++ config_incomplete) w, Exit 1).
Proof.
  intros Hcmd Himp Hdir. unfold cli, cli_catch, main. cbv zeta.
  rewrite (command_not_init _ Hcmd), cli_bind_run. cli_ret.
  rewrite cli_bind_run. unfold load_config. rewrite Himp. cli_ret.
  rewrite cli_bind_run. unfold require_workflowsDir.
  destruct (workflowsDir (default_or_module m)) as [d|]; simpl in Hdir.
  - by rewrite Hdir.
  - done.
Qed.

(** With a module that has no default export the assignment to
    [userConfig.workflowsDir] is fatal, whatever the command. *)
Lemma cli_namespace E pos w m d :
  command_of pos <> "init" ->
  import_config E (resolve E (cwd E) "miqro.config.ts") = inl m ->
  mod_default m = None ->
  workflowsDir (mod_namespace m) = Some d ->
  truthy d = true ->
  cli E (inl pos) w = (with_out (out w ++ fatal type_error) w, Exit 1).
Proof.
  intros Hcmd Himp Hdef Hdir Hd. unfold cli, cli_catch, main. cbv zeta.
  rewrite (command_not_init _ Hcmd), cli_bind_run. cli_ret.
  rewrite cli_bind_run. unfold load_config. rewrite Himp. cli_ret.
  unfold default_or_module. rewrite Hdef.
  rewrite cli_bind_run. unfold require_workflowsDir. rewrite Hdir, Hd. cli_ret.
  rewrite cli_bind_run. unfold assign_workflowsDir. rewrite Hdef.
  reflexivity.
Qed.

(** X24.  No command other than [init] does anything without a
    configuration: when the configuration module cannot be imported, or
    what it gives names no [workflowsDir] (absent or empty), the run
    prints the matching error and exits with code 1 before the command
    is looked at, so that an unknown command gets this error and not the
    usage. *)
Theorem config_required (E : Env) (pos : list string) (w : World) :
  command_of pos <> "init" ->
  (forall e,
     import_config E (resolve E (cwd E) "miqro.config.ts") = inr e ->
     cli E (inl pos) w
     = (with_out (out w ++ config_unloadable (resolve E (cwd E) "miqro.config.ts")) w,
        Exit 1))
  /\ (forall m,
        import_config E (resolve E (cwd E) "miqro.config.ts") = inl m ->
        truthy_opt (workflowsDir (default_or_module m)) = false ->
        cli E (inl pos) w = (with_out (out w ++ config_incomplete) w, Exit 1)).
Proof.
  intros Hcmd. split.
  - intros e. by apply cli_unloadable.
  - intros m. by apply cli_incomplete.
Qed.

Lemma config_required_witness :
  cli sample_env (inl ["deploy"]) empty_world
  = (with_out (config_unloadable "/proj/miqro.config.ts") empty_world, Exit 1).
Proof.
  apply (proj1 (config_required sample_env ["deploy"] empty_world ltac:(discriminate))
           (VObj [("code", VStr "ERR_MODULE_NOT_FOUND")])).
  reflexivity.
Defined.

(** X30.  A configuration written with named exports only is of no use:
    when the module has no default export and its namespace names a
    [workflowsDir], every command other than [init] ends as a fatal
    exception with exit code 1, before the command is looked at
    ([userConfig] is then the module namespace, and the assignment of the
    resolved directory to its [workflowsDir] throws); the run spawns,
    serves, builds and writes nothing. *)
Theorem named_exports_configuration_is_fatal (E : Env) (pos : list string) (w : World)
    (m : ConfigModule) (d : string) :
  command_of pos <> "init" ->
  import_config E (resolve E (cwd E) "miqro.config.ts") = inl m ->
  mod_default m = None ->
  workflowsDir (mod_namespace m) = Some d ->
  d <> "" ->
  cli E (inl pos) w = (with_out (out w ++ fatal type_error) w, Exit 1)
  /\ fs (cli E (inl pos) w).1 = fs w
  /\ actions (cli E (inl pos) w).1 = actions w
  /\ app (cli E (inl pos) w).1 = app w.
Proof.
  intros Hcmd Himp Hdef Hdir Hd.
  assert (truthy d = true) as Htruthy.
  { unfold truthy. by destruct (String.eqb_spec d ""). }
  by rewrite (cli_namespace E pos w m d Hcmd Himp Hdef Hdir Htruthy).
Qed.

Lemma named_exports_configuration_is_fatal_witness :
  cli named_exports_env (inl ["start"]) empty_world
  = (with_out (fatal type_error) empty_world, Exit 1).
Proof.
  apply (proj1 (named_exports_configuration_is_fatal named_exports_env ["start"]
                  empty_world
                  {| mod_default := None;
                     mod_namespace := {| workflowsDir := Some "workflows";
                                         port := None |} |}
                  "workflows" ltac:(discriminate) eq_refl eq_refl eq_refl
                  ltac:(discriminate))).
Defined.

(** The [build] command, path by path. *)
Lemma build_run E dir cfg w :
  build E dir cfg w
  = let w0 := with_out (out w ++ [Stdout [VStr "📦 Building Miqro for production..."]]) w in
    match env_readdir E dir with
    | inr _ =>
        (with_out (out w0 ++ [Stderr [VStr ("❌ Failed reading workflows directory during build: "
                                            +:+ dir)]]) w0,
         Exit 1)
    | inl files =>
        let code := build_entry E dir (List.filter has_workflow_ext files) cfg in
        let temp := resolve E (cwd E) ".miqro.entry.ts" in
        match write_error E (fs w) temp with
        | Some e => (w0, Raise e)
        | None =>
            let w1 := {| fs := <[temp := File code]> (fs w);
                         out := out w ++ build_started E;
                         actions := actions w
                                    ++ [BunBuild temp (resolve E (cwd E) "dist") "index.js"];
                         app := app w |} in
            match bun_build E code with
            | inr e => (w1, Raise e)
            | inl result =>
                let w2 := with_fs (match unlink_error E (fs w1) temp with
                                   | Some _ => fs w1
                                   | None => delete temp (fs w)
                                   end) w1 in
                (with_out (out w2 ++ build_finished result) w2,
                 if fst result then Done tt else Exit 1)
            end
        end
    end.
Proof.
  unfold build. cbv zeta. rewrite cli_bind_run. unfold cli_log at 1, print at 1.
  cbv beta iota. rewrite cli_bind_run.
  destruct (env_readdir E dir) as [files|err].
  - cli_ret. rewrite cli_bind_run. unfold writeFile at 1. rewrite cli_bind_run.
    unfold get_fs at 1. cbn [fs out actions app with_out with_fs].
    destruct (write_error E (fs w) _) as [e|]; [done|].
    unfold put_fs at 1. rewrite cli_bind_run. unfold cli_log at 1, print at 1.
    cbn [fs out actions app with_out with_fs]. rewrite cli_bind_run. unfold act at 1.
    cbn [fs out actions app with_out with_fs].
    rewrite cli_bind_run.
    destruct (bun_build E _) as [result|e].
    + cli_ret. rewrite cli_bind_run. unfold cli_catch, unlink.
      rewrite cli_bind_run. unfold get_fs at 1.
      cbn [fs out actions app with_out with_fs].
      destruct (unlink_error E _ _) as [e|].
      * unfold cli_raise. cli_ret. unfold build_finished.
        destruct result as [[|] logs]; simpl.
        -- unfold cli_log, print, with_out, with_fs, build_started. simpl.
           by rewrite <- !app_assoc.
        -- unfold cli_error, print, with_out, with_fs, build_started, process_exit.
           rewrite !cli_bind_run. simpl. by rewrite <- !app_assoc.
      * unfold put_fs. cbn [fs out actions app with_out with_fs]. unfold build_finished.
        rewrite delete_insert_eq.
        destruct result as [[|] logs]; simpl.
        -- unfold cli_log, print, with_out, with_fs, build_started. simpl.
           by rewrite <- !app_assoc.
        -- unfold cli_error, print, with_out, with_fs, build_started, process_exit.
           rewrite !cli_bind_run. simpl. by rewrite <- !app_assoc.
    + unfold cli_raise, with_out, with_fs, build_started. simpl.
      by rewrite <- !app_assoc.
  - rewrite cli_bind_run. unfold cli_error, print, process_exit. cbv beta iota.
    reflexivity.
Qed.

Lemma run_command_build E cfg dir w :
  run_command E "build" cfg dir w = build E dir cfg w.
Proof. reflexivity. Qed.

Lemma entry_code_default E m cfg d files :
  mod_default m = Some cfg ->
  entry_code E m d files
  = build_entry E (resolve E (cwd E) d) (List.filter has_workflow_ext files) cfg.
Proof. intros Hdef. unfold entry_code, default_or_module. by rewrite Hdef. Qed.





Lemma command_of_init pos :
  command_of pos = "init" -> exists rest, pos = "init" :: rest.
Proof.
  destruct pos as [|c rest]; simpl; [done|].
  destruct (truthy c); [|done]. intros ->. by exists rest.
Qed.

Lemma run_app_run (m : M unit) w :
  run_app m w
  = (let w' := {| fs := fs w; out := out w; actions := actions w; app := (m (app w)).1 |} in
     match (m (app w)).2 with
     | Thrown e => (w', Raise e)
     | Suspended => (w', Stalled)
     | _ => (w', Done tt)
     end).
Proof. unfold run_app. by destruct (m (app w)) as [s' [[]|r|e|]]. Qed.

Lemma dev_run E cfg dir w :
  run_command E "dev" cfg dir w
  = ({| fs := fs w;
        out := out w ++ [Stdout [VStr "🔄 Starting Miqro in DEV mode (hot-reloading enabled)..."]];
        actions := actions w ++ [Spawn ["bun"; "--watch"; script E; "start"]];
        app := app w |},
     match spawn_error E with
     | Some e => Raise e
     | None => Done tt
     end).
Proof.
  unfold run_command. change (String.eqb "dev" "dev") with true. cbv beta iota.
  cbv beta iota zeta delta [mbind Cli_bind cli_log print act fails with_out
                            fs out actions app].
  by destruct (spawn_error E).
Qed.

Lemma start_run E cfg dir w :
  run_command E "start" cfg dir w
  = (let r := startMiqro (env_cron_reject E) (env_readdir E) (env_import_default E)
                (env_object_values E) dir (app w) in
     match r.2 with
     | Thrown e =>
         ({| fs := fs w; out := out w ++ [Stdout [VStr "🚀 Starting Miqro..."]];
             actions := actions w; app := r.1 |}, Raise e)
     | Suspended =>
         ({| fs := fs w; out := out w ++ [Stdout [VStr "🚀 Starting Miqro..."]];
             actions := actions w; app := r.1 |}, Stalled)
     | _ =>
         ({| fs := fs w; out := out w ++ [Stdout [VStr "🚀 Starting Miqro..."]];
             actions := actions w ++ [Serve]; app := r.1 |},
          match serve_error E with
          | Some e => Raise e
          | None => Done tt
          end)
     end).
Proof.
  unfold run_command. change (String.eqb "start" "dev") with false.
  change (String.eqb "start" "start") with true. cbv beta iota zeta.
  rewrite cli_bind_run. unfold cli_log at 1, print at 1. cbv beta iota.
  rewrite cli_bind_run, run_app_run. cbv zeta.
  cbn [fs out actions app with_out with_fs].
  destruct (startMiqro _ _ _ _ _ _).2 as [[]|r|e|]; try done;
    rewrite cli_bind_run; unfold act, fails; cbn [fs out actions app];
    by destruct (serve_error E).
Qed.

(** What an unknown command prints. *)
Lemma unknown_run E command cfg dir w :
  String.eqb command "dev" = false ->
  String.eqb command "start" = false ->
  String.eqb command "build" = false ->
  exists o,
    run_command E command cfg dir w
    = (with_out (out w ++ Stderr [VStr ("❌ Unknown command: " +:+ command)] :: o) w, Exit 1).
Proof.
  intros H1 H2 H3. eexists. unfold run_command. rewrite H1, H2, H3.
  cbv beta iota zeta delta [mbind Cli_bind usage cli_error print process_exit with_out
                            fs out actions app].
  rewrite <- !app_assoc. reflexivity.
Qed.


Lemma startMiqro_unreadable cron_reject readdir import_default object_values dir e s :
  enumerates_own object_values ->
  readdir dir = inr e ->
  startMiqro cron_reject readdir import_default object_values dir s
  = ({| workflows := empty_registry;
        timers := timers s;
        trace := trace s
                 ++ [Readdir dir;
                     ConsoleError ("[Miqro] Error loading workflows from " +:+ dir +:+ ":")
                                  e] |},
     Normal tt).
Proof.
  intros Henum Hdir.
  assert (object_values empty_registry = []) as Hnone.
  { apply Permutation_nil. symmetry. rewrite (Henum empty_registry).
    simpl. by rewrite map_to_list_empty. }
  unfold startMiqro. rewrite run_bind.
  unfold loadWorkflows, try_catch, console_error, set_workflows.
  rewrite !run_bind. simpl. rewrite Hdir. simpl. rewrite Hnone.
  unfold startMiqroCore, set_workflows. rewrite run_bind. simpl.
  unfold log_events. simpl. by rewrite <- app_assoc.
Qed.




